(** * Interactive Xylophone: a shallow embedding of the recorder, the note
      registry and the tone scheduler, with the properties of their
      specification.

    The JavaScript modules [audio-engine.js], [xylophone.js],
    [input-handler.js] and [controls.js] are translated function by
    function.  Every module object becomes a record, every method a
    computation in a state-and-exception monad over that record, and the
    browser objects the code talks to (audio nodes, buttons, timers, the
    console) become records of what was done to them. *)

From Stdlib Require Import ZArith QArith Qreduction Qround Bool List String Ascii Lia Lqa.
From Stdlib Require Import Decimal DecimalFacts DecimalN DecimalString.
Import ListNotations.

Set Implicit Arguments.
Set Warnings "-register-all".
Local Open Scope Z_scope.

(* ===================================================================== *)
(** * JavaScript values *)
(* ===================================================================== *)

Module Js.

(** A JavaScript number: [NaN], the two infinities, or a finite number given
    by its exact rational value, kept in lowest terms by the arithmetic
    below.  Comparisons and the integer test are exact on this
    representation; the rounding of sums to binary64 is not represented. *)
Inductive num : Type :=
| NaN
| PInf
| NInf
| Fin (q : Q).

Definition int (z : Z) : num := Fin (z # 1).

Definition Qltb (x y : Q) : bool := negb (Qle_bool y x).

(** [a < b] *)
Definition lt (a b : num) : bool :=
  match a, b with
  | NaN, _ => false
  | _, NaN => false
  | PInf, _ => false
  | _, NInf => false
  | NInf, _ => true
  | _, PInf => true
  | Fin x, Fin y => Qltb x y
  end.

(** [a > b], [a <= b], [a >= b]: all false when an operand is [NaN]. *)
Definition gt (a b : num) : bool := lt b a.

Definition le (a b : num) : bool :=
  match a, b with
  | NaN, _ => false
  | _, NaN => false
  | NInf, _ => true
  | _, PInf => true
  | PInf, _ => false
  | _, NInf => false
  | Fin x, Fin y => Qle_bool x y
  end.

Definition ge (a b : num) : bool := le b a.

(** [a + b] *)
Definition add (a b : num) : num :=
  match a, b with
  | NaN, _ => NaN
  | _, NaN => NaN
  | PInf, NInf => NaN
  | NInf, PInf => NaN
  | PInf, _ => PInf
  | _, PInf => PInf
  | NInf, _ => NInf
  | _, NInf => NInf
  | Fin x, Fin y => Fin (Qred (x + y))
  end.

Definition neg (a : num) : num :=
  match a with
  | NaN => NaN
  | PInf => NInf
  | NInf => PInf
  | Fin x => Fin (Qred (- x))
  end.

(** [a - b] *)
Definition sub (a b : num) : num :=
  match a, b with
  | Fin x, Fin y => Fin (Qred (x - y))
  | _, _ => add a (neg b)
  end.

(** [a * b] *)
Definition mul (a b : num) : num :=
  match a, b with
  | NaN, _ => NaN
  | _, NaN => NaN
  | Fin x, Fin y => Fin (Qred (x * y))
  | Fin x, PInf | PInf, Fin x =>
      if Qltb 0 x then PInf else if Qltb x 0 then NInf else NaN
  | Fin x, NInf | NInf, Fin x =>
      if Qltb 0 x then NInf else if Qltb x 0 then PInf else NaN
  | PInf, PInf | NInf, NInf => PInf
  | PInf, NInf | NInf, PInf => NInf
  end.

(** [Math.max(a, b)] and [Math.min(a, b)]: [NaN] if either is [NaN]. *)
Definition Math_max (a b : num) : num :=
  match a, b with
  | NaN, _ => NaN
  | _, NaN => NaN
  | _, _ => if lt a b then b else a
  end.

Definition Math_min (a b : num) : num :=
  match a, b with
  | NaN, _ => NaN
  | _, NaN => NaN
  | _, _ => if lt b a then b else a
  end.

(** The value is a finite number with no fractional part. *)
Definition is_integer (a : num) : bool :=
  match a with
  | Fin q => Pos.eqb (Qden (Qred q)) 1
  | _ => false
  end.

(** The comparison a [Set] uses for its members (SameValueZero). *)
Definition same (a b : num) : bool :=
  match a, b with
  | NaN, NaN => true
  | PInf, PInf => true
  | NInf, NInf => true
  | Fin x, Fin y => Qeq_bool x y
  | _, _ => false
  end.

(** ** 32-bit floats

    The attributes and arguments the Web Audio interfaces declare [float]
    hold the binary32 number nearest to the number they are given (ties to
    the even one), and refuse with a [TypeError] a number that is not finite
    or that rounds to 2^128. *)

Definition pow2 (k : Z) : Q :=
  match k with
  | Zneg p => 1 # (2 ^ p)%positive
  | _ => (2 ^ k)%Z # 1
  end.

(** The [e] with [2^e <= n/d < 2^(e+1)]. *)
Definition binade (n d : positive) : Z :=
  let e := (Z.log2 (Zpos n) - Z.log2 (Zpos d))%Z in
  if Qle_bool (pow2 e) (Zpos n # d) then e else (e - 1)%Z.

Definition round_half_even (r : Q) : Z :=
  let f := Qfloor r in
  match Qcompare (r - inject_Z f) (1 # 2) with
  | Lt => f
  | Gt => (f + 1)%Z
  | Eq => if Z.even f then f else (f + 1)%Z
  end.

(** The multiple of the spacing of the floats around [n/d] (24 significant
    bits, exponents from -126) nearest to [n/d]. *)
Definition nearest_float (n d : positive) : Q :=
  let k := (Z.max (binade n d) (-126) - 23)%Z in
  (inject_Z (round_half_even ((Zpos n # d) * pow2 (- k))) * pow2 k)%Q.

Definition to_float32 (q : Q) : option Q :=
  match Qnum q with
  | Z0 => Some 0%Q
  | Zpos n =>
      let y := nearest_float n (Qden q) in
      if Qle_bool (pow2 128) y then None else Some (Qred y)
  | Zneg n =>
      let y := nearest_float n (Qden q) in
      if Qle_bool (pow2 128) y then None else Some (Qred (- y))
  end.

Arguments to_float32 : simpl never.

(** The values that occur in the program and in JSON text.  An object is the
    list of its own properties in insertion order. *)
Inductive value : Type :=
| VUndefined
| VNull
| VBool (b : bool)
| VNum (n : num)
| VStr (s : string)
| VArr (items : list value)
| VObj (props : list (string * value)).

(** [typeof v] *)
Definition typeof (v : value) : string :=
  match v with
  | VUndefined => "undefined"
  | VNull => "object"
  | VBool _ => "boolean"
  | VNum _ => "number"
  | VStr _ => "string"
  | VArr _ => "object"
  | VObj _ => "object"
  end.

(** Whether the conversion of [v] to a string (as a template literal makes
    it) returns.  No value here is a function, so an object that has a
    property [toString] of its own has no callable one, and [valueOf],
    its own or the inherited one, gives no primitive either: the conversion
    throws a [TypeError].  An array converts its elements in turn. *)
Fixpoint has_string (v : value) : bool :=
  match v with
  | VArr items => forallb has_string items
  | VObj props =>
      negb (existsb (fun kv => String.eqb "toString" (fst kv)) props)
  | _ => true
  end.

(** [Number.isInteger(v)]: false for whatever is not a number. *)
Definition Number_isInteger (v : value) : bool :=
  match v with
  | VNum n => is_integer n
  | _ => false
  end.

(** Exceptions. *)
Inductive exn : Type :=
| TypeError (msg : string)
| SyntaxError (msg : string)
| Error (msg : string).

Inductive result (A : Type) : Type :=
| Ok (a : A)
| Throw (e : exn).
Arguments Ok {A} a.
Arguments Throw {A} e.

Fixpoint lookup (k : string) (props : list (string * value)) : option value :=
  match props with
  | [] => None
  | (k', v) :: rest => if String.eqb k k' then Some v else lookup k rest
  end.

(** [v.k]: reading a property of [undefined] or [null] throws, a missing
    property reads as [undefined]. *)
Definition get_prop (v : value) (k : string) : result value :=
  match v with
  | VUndefined => Throw (TypeError "Cannot read properties of undefined")
  | VNull => Throw (TypeError "Cannot read properties of null")
  | VObj props =>
      match lookup k props with
      | Some x => Ok x
      | None => Ok VUndefined
      end
  | _ => Ok VUndefined
  end.

(** A computation on a state [S]: it returns or throws, and what it did to
    the state before throwing stays done. *)
Definition M (S A : Type) : Type := S -> result A * S.

Definition ret {S A} (a : A) : M S A := fun s => (Ok a, s).

Definition bind {S A B} (m : M S A) (f : A -> M S B) : M S B :=
  fun s =>
    match m s with
    | (Ok a, s') => f a s'
    | (Throw e, s') => (Throw e, s')
    end.

Definition throw {S A} (e : exn) : M S A := fun s => (Throw e, s).

Definition get {S} : M S S := fun s => (Ok s, s).

Definition gets {S A} (f : S -> A) : M S A := fun s => (Ok (f s), s).

Definition modify {S} (f : S -> S) : M S unit := fun s => (Ok tt, f s).

Definition lift_result {S A} (r : result A) : M S A := fun s => (r, s).

(** [try { body } catch (e) { handler e }] *)
Definition try_catch {S A} (body : M S A) (handler : exn -> M S A) : M S A :=
  fun s =>
    match body s with
    | (Ok a, s') => (Ok a, s')
    | (Throw e, s') => handler e s'
    end.

(** [try { body } finally { fin }] *)
Definition try_finally {S A} (body : M S A) (fin : M S unit) : M S A :=
  fun s =>
    match body s with
    | (r, s') =>
        match fin s' with
        | (Ok _, s'') => (r, s'')
        | (Throw e, s'') => (Throw e, s'')
        end
    end.

(** Running a computation of a component inside a larger state. *)
Definition zoom {S T A} (proj : S -> T) (inj : T -> S -> S) (m : M T A) : M S A :=
  fun s =>
    match m (proj s) with
    | (r, t') => (r, inj t' s)
    end.

End Js.

Import Js.

Declare Scope js_scope.
Delimit Scope js_scope with js.
Notation "x <- c1 ;; c2" := (bind c1 (fun x => c2))
  (at level 61, c1 at next level, right associativity) : js_scope.
Notation "c1 ;; c2" := (bind c1 (fun _ => c2))
  (at level 61, right associativity) : js_scope.
Local Open Scope js_scope.

(** [console.log], [console.warn], [console.error] and [console.debug]
    calls, newest first; the interpolated parts of a message are kept
    apart from its fixed text. *)
Inductive level : Type := Log | Warn | Err | Debug.

Record entry : Type := mkEntry {
  e_level : level;
  e_text : string;
  e_args : list value
}.

Definition console : Type := list entry.

(* ===================================================================== *)
(** * State of the modules and of the browser around them *)
(* ===================================================================== *)

(** ** audio-engine.js: the fields of [AudioEngine] and the audio graph *)
Module AudioEngineS.

Record Envelope : Type := mkEnvelope {
  attack : num;
  decay : num;
  sustain : num;
  release : num
}.

(** A call made on an [AudioParam] to schedule its value. *)
Inductive automation : Type :=
| setValueAtTime (value time : num)
| linearRampToValueAtTime (value endTime : num)
| setTargetAtTime (target startTime timeConstant : num).

(** An [AudioParam]: the value it holds now, and the scheduling calls made
    on it, oldest first.  A scheduling call does not change [value]; the
    audio clock does, later, as it renders. *)
Record AudioParam : Type := mkParam {
  value : num;
  scheduled : list automation
}.

Inductive output : Type := Unconnected | ToMasterGain | ToDestination.

Record GainNode : Type := mkGain {
  gain : AudioParam;
  gain_to : output
}.

Record OscillatorNode : Type := mkOsc {
  type : string;
  frequency : num;
  osc_to_gain : bool;
  started : option num;
  stopped : option num
}.

(** The pair of nodes [playNote] builds for one note. *)
Record Voice : Type := mkVoice {
  oscillator : OscillatorNode;
  gainNode : GainNode
}.

Inductive ctx_state : Type := suspended | running | closed.

(** A reading of an audio clock, in seconds: a fraction that is not
    negative. *)
Record Reading : Type := mkReading {
  numerator : N;
  denominator : positive
}.

Definition seconds (r : Reading) : num :=
  Fin (Qred (Z.of_N (numerator r) # denominator r)).

(** The [AudioContext]: its clock, its state, and every voice built in it,
    oldest first; a voice is referred to by its position in this list. *)
Record AudioContext : Type := mkCtx {
  currentTime : num;
  state : ctx_state;
  voices : list Voice
}.

Record t : Type := mk {
  audioContext : option AudioContext;
  masterGain : option GainNode;
  isInitialized : bool;
  activeOscillators : list nat;
  envelope : Envelope;
  oscillatorType : string;
  defaultVolume : num
}.

Definition set_audioContext (c : option AudioContext) (a : t) : t :=
  mk c (masterGain a) (isInitialized a) (activeOscillators a)
     (envelope a) (oscillatorType a) (defaultVolume a).

Definition set_masterGain (g : option GainNode) (a : t) : t :=
  mk (audioContext a) g (isInitialized a) (activeOscillators a)
     (envelope a) (oscillatorType a) (defaultVolume a).

Definition set_isInitialized (b : bool) (a : t) : t :=
  mk (audioContext a) (masterGain a) b (activeOscillators a)
     (envelope a) (oscillatorType a) (defaultVolume a).

Definition set_activeOscillators (l : list nat) (a : t) : t :=
  mk (audioContext a) (masterGain a) (isInitialized a) l
     (envelope a) (oscillatorType a) (defaultVolume a).

End AudioEngineS.

(** ** xylophone.js: the fields of [Xylophone] *)
Module XylophoneS.

Record Note : Type := mkNote {
  name : string;
  frequency : num
}.

Record t : Type := mk {
  notes : list Note;
  keyMap : list (string * num);
  noteDuration : num;
  activeNotes : list num;
  maxPolyphony : num
}.

Definition set_activeNotes (l : list num) (x : t) : t :=
  mk (notes x) (keyMap x) (noteDuration x) l (maxPolyphony x).

Definition set_noteDuration (d : num) (x : t) : t :=
  mk (notes x) (keyMap x) d (activeNotes x) (maxPolyphony x).

Definition set_maxPolyphony (n : num) (x : t) : t :=
  mk (notes x) (keyMap x) (noteDuration x) (activeNotes x) n.

End XylophoneS.

(** ** visual-feedback.js: the fields of [VisualFeedback] *)
Module VisualFeedbackS.

(** A bar element, as far as the module touches it: whether its class list
    holds the animation class. *)
Record t : Type := mk {
  barElements : list bool;
  activeDuration : num;
  activeTimeouts : list (num * nat);
  isInitialized : bool
}.

Definition set_barElements (l : list bool) (v : t) : t :=
  mk l (activeDuration v) (activeTimeouts v) (isInitialized v).

Definition set_activeTimeouts (l : list (num * nat)) (v : t) : t :=
  mk (barElements v) (activeDuration v) l (isInitialized v).

End VisualFeedbackS.

(** ** controls.js: the recording fields of [Controls] and its buttons *)
Module ControlsS.

(** The four pieces of markup the code writes into a button, and whatever
    the page had there before. *)
Inductive markup : Type :=
| PageMarkup
| StopSquare
| RecordCircle
| PauseBars
| PlayTriangle.

Record Button : Type := mkButton {
  disabled : bool;
  classList : list string;
  innerHTML : markup
}.

Inductive listener : Type :=
| VolumeInput
| RecordClick
| PlayClick
| ClearClick
| NotePlayed.

Record t : Type := mk {
  recordBtn : option Button;
  playBtn : option Button;
  clearBtn : option Button;
  recordingStatus : option string;
  isRecording : bool;
  isPlaying : bool;
  recordedSequence : list Js.value;
  recordingStartTime : num;
  maxRecordingLength : num;
  playbackTimeout : option nat;
  listeners : list listener;
  isInitialized : bool
}.

Definition set_recordBtn (b : option Button) (c : t) : t :=
  mk b (playBtn c) (clearBtn c) (recordingStatus c) (isRecording c)
     (isPlaying c) (recordedSequence c) (recordingStartTime c)
     (maxRecordingLength c) (playbackTimeout c) (listeners c) (isInitialized c).

Definition set_playBtn (b : option Button) (c : t) : t :=
  mk (recordBtn c) b (clearBtn c) (recordingStatus c) (isRecording c)
     (isPlaying c) (recordedSequence c) (recordingStartTime c)
     (maxRecordingLength c) (playbackTimeout c) (listeners c) (isInitialized c).

Definition set_clearBtn (b : option Button) (c : t) : t :=
  mk (recordBtn c) (playBtn c) b (recordingStatus c) (isRecording c)
     (isPlaying c) (recordedSequence c) (recordingStartTime c)
     (maxRecordingLength c) (playbackTimeout c) (listeners c) (isInitialized c).

Definition set_recordingStatus (s : option string) (c : t) : t :=
  mk (recordBtn c) (playBtn c) (clearBtn c) s (isRecording c)
     (isPlaying c) (recordedSequence c) (recordingStartTime c)
     (maxRecordingLength c) (playbackTimeout c) (listeners c) (isInitialized c).

Definition set_isRecording (b : bool) (c : t) : t :=
  mk (recordBtn c) (playBtn c) (clearBtn c) (recordingStatus c) b
     (isPlaying c) (recordedSequence c) (recordingStartTime c)
     (maxRecordingLength c) (playbackTimeout c) (listeners c) (isInitialized c).

Definition set_isPlaying (b : bool) (c : t) : t :=
  mk (recordBtn c) (playBtn c) (clearBtn c) (recordingStatus c) (isRecording c)
     b (recordedSequence c) (recordingStartTime c)
     (maxRecordingLength c) (playbackTimeout c) (listeners c) (isInitialized c).

Definition set_recordedSequence (l : list Js.value) (c : t) : t :=
  mk (recordBtn c) (playBtn c) (clearBtn c) (recordingStatus c) (isRecording c)
     (isPlaying c) l (recordingStartTime c)
     (maxRecordingLength c) (playbackTimeout c) (listeners c) (isInitialized c).

Definition set_recordingStartTime (n : num) (c : t) : t :=
  mk (recordBtn c) (playBtn c) (clearBtn c) (recordingStatus c) (isRecording c)
     (isPlaying c) (recordedSequence c) n
     (maxRecordingLength c) (playbackTimeout c) (listeners c) (isInitialized c).

Definition set_maxRecordingLength (n : num) (c : t) : t :=
  mk (recordBtn c) (playBtn c) (clearBtn c) (recordingStatus c) (isRecording c)
     (isPlaying c) (recordedSequence c) (recordingStartTime c)
     n (playbackTimeout c) (listeners c) (isInitialized c).

Definition set_playbackTimeout (o : option nat) (c : t) : t :=
  mk (recordBtn c) (playBtn c) (clearBtn c) (recordingStatus c) (isRecording c)
     (isPlaying c) (recordedSequence c) (recordingStartTime c)
     (maxRecordingLength c) o (listeners c) (isInitialized c).

Definition set_listeners (l : list listener) (c : t) : t :=
  mk (recordBtn c) (playBtn c) (clearBtn c) (recordingStatus c) (isRecording c)
     (isPlaying c) (recordedSequence c) (recordingStartTime c)
     (maxRecordingLength c) (playbackTimeout c) l (isInitialized c).

Definition set_isInitialized (b : bool) (c : t) : t :=
  mk (recordBtn c) (playBtn c) (clearBtn c) (recordingStatus c) (isRecording c)
     (isPlaying c) (recordedSequence c) (recordingStartTime c)
     (maxRecordingLength c) (playbackTimeout c) (listeners c) b.

End ControlsS.

(** ** The page as a whole *)

(** What a pending [setTimeout] will run. *)
Inductive callback : Type :=
| DeleteActiveNote (noteIndex : num)
| RemoveActiveClass (noteIndex : num)
| ResumePlayback (i : nat) (startTime : num) (note : Js.value).

(** A continuation waiting in the microtask queue: [playRecording] after its
    [await], with the outcome of [playSequenceWithTiming]. *)
Inductive job : Type :=
| PlaybackSettled (outcome : result unit).

Record timer : Type := mkTimer {
  timer_id : nat;
  timer_delay : num;
  timer_callback : callback
}.

(** The four module singletons and the browser state they share: the console,
    the wall clock ([now] is the last value [Date.now()] returned, [ticks]
    the values it will return next), the pending timers and microtasks.
    [triggered] is an observer's record, oldest first, of the arguments
    [inputHandler.triggerBar] has been called with. *)
Record World : Type := mkWorld {
  audio : AudioEngineS.t;
  xylo : XylophoneS.t;
  visual : VisualFeedbackS.t;
  ctrl : ControlsS.t;
  console_out : console;
  triggered : list Js.value;
  now : num;
  ticks : list num;
  timers : list timer;
  next_timer : nat;
  jobs : list job
}.

Definition set_audio (a : AudioEngineS.t) (w : World) : World :=
  mkWorld a (xylo w) (visual w) (ctrl w) (console_out w) (triggered w)
          (now w) (ticks w) (timers w) (next_timer w) (jobs w).

Definition set_xylo (x : XylophoneS.t) (w : World) : World :=
  mkWorld (audio w) x (visual w) (ctrl w) (console_out w) (triggered w)
          (now w) (ticks w) (timers w) (next_timer w) (jobs w).

Definition set_visual (v : VisualFeedbackS.t) (w : World) : World :=
  mkWorld (audio w) (xylo w) v (ctrl w) (console_out w) (triggered w)
          (now w) (ticks w) (timers w) (next_timer w) (jobs w).

Definition set_ctrl (c : ControlsS.t) (w : World) : World :=
  mkWorld (audio w) (xylo w) (visual w) c (console_out w) (triggered w)
          (now w) (ticks w) (timers w) (next_timer w) (jobs w).

Definition set_console (l : console) (w : World) : World :=
  mkWorld (audio w) (xylo w) (visual w) (ctrl w) l (triggered w) (now w)
          (ticks w) (timers w) (next_timer w) (jobs w).

Definition set_triggered (l : list Js.value) (w : World) : World :=
  mkWorld (audio w) (xylo w) (visual w) (ctrl w) (console_out w) l (now w)
          (ticks w) (timers w) (next_timer w) (jobs w).

Definition set_clock (n : num) (l : list num) (w : World) : World :=
  mkWorld (audio w) (xylo w) (visual w) (ctrl w) (console_out w)
          (triggered w) n l (timers w) (next_timer w) (jobs w).

Definition set_timers (l : list timer) (n : nat) (w : World) : World :=
  mkWorld (audio w) (xylo w) (visual w) (ctrl w) (console_out w)
          (triggered w) (now w) (ticks w) l n (jobs w).

Definition set_jobs (l : list job) (w : World) : World :=
  mkWorld (audio w) (xylo w) (visual w) (ctrl w) (console_out w)
          (triggered w) (now w) (ticks w) (timers w) (next_timer w) l.

Module Browser.

Definition console_write (lv : level) (text : string) (args : list Js.value) : M World unit :=
  modify (fun w => set_console (mkEntry lv text args :: console_out w) w).

(** [Date.now()] *)
Definition Date_now : M World num :=
  fun w =>
    match ticks w with
    | [] => (Ok (now w), w)
    | t :: rest => (Ok t, set_clock t rest w)
    end.

(** [setTimeout(cb, delay)]: the identifier of the new timer. *)
Definition setTimeout (cb : callback) (delay : num) : M World nat :=
  fun w =>
    let id := next_timer w in
    (Ok id, set_timers (timers w ++ [mkTimer id delay cb]) (S id) w).

(** [clearTimeout(id)] *)
Definition clearTimeout (id : nat) : M World unit :=
  modify (fun w =>
    set_timers (filter (fun t => negb (Nat.eqb (timer_id t) id)) (timers w))
               (next_timer w) w).

Definition queueMicrotask (j : job) : M World unit :=
  modify (fun w => set_jobs (jobs w ++ [j]) w).

End Browser.

(* ===================================================================== *)
(** * audio-engine.js *)
(* ===================================================================== *)

Module AudioEngine.
Import AudioEngineS.

(** [new AudioEngine()] *)
Definition constructor : t :=
  mk None None false []
     (mkEnvelope (Fin (1 # 200)) (Fin (1 # 10)) (Fin (3 # 10)) (Fin (6 # 5)))
     "sine" (Fin (7 # 10)).

Definition this : M World t := gets audio.

Definition update (f : t -> t) : M World unit :=
  modify (fun w => set_audio (f (audio w)) w).

(** What the page offers when [initialize] runs: whether the browser has an
    [AudioContext] class, the state and clock of a new context, and whether
    [resume()] on it is fulfilled. *)
Record Page : Type := mkPage {
  has_AudioContext : bool;
  new_state : ctx_state;
  new_time : Reading;
  resume_fulfilled : bool
}.

Definition is_suspended (s : ctx_state) : bool :=
  match s with suspended => true | _ => false end.

Definition is_running (s : ctx_state) : bool :=
  match s with running => true | _ => false end.

(** An argument or attribute declared [float]: the float it is stored as. *)
Definition as_float (x : num) : result num :=
  match x with
  | Fin q =>
      match to_float32 q with
      | Some y => Ok (Fin y)
      | None => Throw (TypeError "The provided float value is non-finite.")
      end
  | _ => Throw (TypeError "The provided float value is non-finite.")
  end.

(** An argument declared [double] that stands for a time: a [TypeError] if
    it is not finite, a [RangeError] if it is negative. *)
Definition as_time (t : num) : result unit :=
  match t with
  | Fin q =>
      if Qle_bool 0 q then Ok tt
      else Throw (Error "RangeError: the time provided is less than the minimum bound (0)")
  | _ => Throw (TypeError "The provided double value is non-finite.")
  end.

(** [async initialize()], run to its end. *)
Definition initialize (p : Page) : M World bool :=
  a <- this ;;
  if isInitialized a then ret true
  else
    try_catch
      ((if has_AudioContext p then ret tt
        else throw (Error "Web Audio API not supported in this browser")) ;;
       let ctx := mkCtx (seconds (new_time p)) (new_state p) [] in
       update (set_audioContext (Some ctx)) ;;
       (* this.masterGain = createGain(): a gain of 1, connected to nothing *)
       update (set_masterGain (Some (mkGain (mkParam (int 1) []) Unconnected))) ;;
       a <- this ;;
       (* this.masterGain.gain.value = this.defaultVolume *)
       volume <- lift_result (as_float (defaultVolume a)) ;;
       update (set_masterGain (Some (mkGain (mkParam volume []) Unconnected))) ;;
       update (set_masterGain (Some (mkGain (mkParam volume []) ToDestination))) ;;
       (if is_suspended (new_state p) then
          if resume_fulfilled p then
            update (set_audioContext (Some (mkCtx (seconds (new_time p)) running [])))
          else throw (Error "resume rejected")
        else ret tt) ;;
       update (set_isInitialized true) ;;
       Browser.console_write Log "Audio engine initialized successfully" [] ;;
       ret true)
      (fun e =>
         Browser.console_write Err "Failed to initialize audio engine:" [] ;;
         update (set_isInitialized false) ;;
         ret false).

(** The envelope calls of [playNote] on the gain of a new voice, in the order
    the code makes them. *)
Definition envelope_calls (env : Envelope) (now duration : num) : list automation :=
  let attackEnd := add now (attack env) in
  let decayEnd := add attackEnd (decay env) in
  let releaseStart := add now duration in
  let releaseEnd := add releaseStart (release env) in
  [ setValueAtTime (int 0) now;
    linearRampToValueAtTime (int 1) attackEnd;
    linearRampToValueAtTime (sustain env) decayEnd;
    setValueAtTime (sustain env) releaseStart;
    linearRampToValueAtTime (int 0) releaseEnd ].

Arguments as_float : simpl never.
Arguments as_time : simpl never.

(** A scheduling call on an [AudioParam], as far as it can fail: its value
    is a [float], its time a [double] that must not be negative. *)
Definition schedule (value time : num) : M World unit :=
  _ <- lift_result (as_float value) ;;
  lift_result (as_time time).

(** [playNote(frequency, duration = 2.0)]; [None] is the omitted argument.
    The two nodes are entered among the voices of the context once the last
    call on them has returned: when a call throws, nothing refers to them
    and the oscillator has not been started, so the context is as it
    was. *)
Definition playNote (frequency : num) (duration : option num) : M World bool :=
  let duration := match duration with Some d => d | None => int 2 end in
  a <- this ;;
  match isInitialized a, audioContext a with
  | true, Some ctx =>
      try_catch
        (let now := currentTime ctx in
         (* oscillator.frequency.value = frequency *)
         hz <- lift_result (as_float frequency) ;;
         let oscillator := mkOsc (oscillatorType a) hz false None None in
         (* gainNode.gain.value = 0 *)
         zero <- lift_result (as_float (int 0)) ;;
         let gainNode := mkGain (mkParam zero []) Unconnected in
         let oscillator := mkOsc (type oscillator) hz true None None in
         (* gainNode.connect(this.masterGain) *)
         (match masterGain a with
          | Some _ => ret tt
          | None => throw (TypeError "connect: parameter 1 is not an AudioNode")
          end) ;;
         let gainNode := mkGain (gain gainNode) ToMasterGain in
         let attackEnd := add now (attack (envelope a)) in
         let decayEnd := add attackEnd (decay (envelope a)) in
         let releaseStart := add now duration in
         let releaseEnd := add releaseStart (release (envelope a)) in
         schedule (int 0) now ;;
         schedule (int 1) attackEnd ;;
         schedule (sustain (envelope a)) decayEnd ;;
         schedule (sustain (envelope a)) releaseStart ;;
         schedule (int 0) releaseEnd ;;
         let gainNode :=
           mkGain (mkParam (value (gain gainNode))
                           (scheduled (gain gainNode)
                              ++ envelope_calls (envelope a) now duration))
                  (gain_to gainNode) in
         (* oscillator.start(now) *)
         lift_result (as_time now) ;;
         let oscillator :=
           mkOsc (type oscillator) hz true (Some now) None in
         (* oscillator.stop(releaseEnd) *)
         lift_result (as_time releaseEnd) ;;
         let oscillator :=
           mkOsc (type oscillator) hz true (Some now) (Some releaseEnd) in
         let id := List.length (voices ctx) in
         update (set_audioContext
                   (Some (mkCtx (currentTime ctx) (state ctx)
                                (voices ctx ++ [mkVoice oscillator gainNode])))) ;;
         update (fun a =>
                   set_activeOscillators
                     (if existsb (Nat.eqb id) (activeOscillators a)
                      then activeOscillators a
                      else activeOscillators a ++ [id]) a) ;;
         ret true)
        (fun e =>
           Browser.console_write Err "Error playing note:" [] ;;
           ret false)
  | _, _ =>
      Browser.console_write Warn "Audio engine not initialized" [] ;;
      ret false
  end.

(** [setVolume(volume)] *)
Definition setVolume (volume : num) : M World unit :=
  a <- this ;;
  match isInitialized a, masterGain a with
  | true, Some g =>
      let clampedVolume := Math_max (int 0) (Math_min (int 1) volume) in
      match audioContext a with
      | None => throw (TypeError "Cannot read properties of null")
      | Some ctx =>
          let now := currentTime ctx in
          (* setTargetAtTime(clampedVolume, now, 0.01) *)
          _ <- lift_result (as_float clampedVolume) ;;
          lift_result (as_time now) ;;
          _ <- lift_result (as_float (Fin (1 # 100))) ;;
          update (set_masterGain
                    (Some (mkGain
                             (mkParam (value (gain g))
                                      (scheduled (gain g)
                                         ++ [setTargetAtTime clampedVolume now (Fin (1 # 100))]))
                             (gain_to g))))
      end
  | _, _ =>
      Browser.console_write Warn "Audio engine not initialized" []
  end.

(** [getVolume()] *)
Definition getVolume : M World num :=
  a <- this ;;
  match isInitialized a, masterGain a with
  | true, Some g => ret (value (gain g))
  | _, _ => ret (defaultVolume a)
  end.

(** The [onended] handler [playNote] installs on the oscillator of voice
    [id]: both nodes are disconnected and the oscillator leaves the set. *)
Definition onended (id : nat) : M World unit :=
  update (fun a =>
    let a :=
      match audioContext a with
      | None => a
      | Some ctx =>
          set_audioContext
            (Some (mkCtx (currentTime ctx) (state ctx)
                     (map (fun iv : nat * Voice =>
                             let (i, v) := iv in
                             if Nat.eqb i id then
                               mkVoice
                                 (mkOsc (type (oscillator v)) (frequency (oscillator v))
                                        false (started (oscillator v)) (stopped (oscillator v)))
                                 (mkGain (gain (gainNode v)) Unconnected)
                             else v)
                          (combine (seq 0 (List.length (voices ctx))) (voices ctx))))) a
      end in
    set_activeOscillators
      (filter (fun i => negb (Nat.eqb i id)) (activeOscillators a)) a).

(** [getActiveNoteCount()] *)
Definition getActiveNoteCount : M World nat :=
  a <- this ;;
  ret (List.length (activeOscillators a)).

(** The voices after [oscillator.stop(when)] on the oscillator of voice
    [id]: the stop time asked for last is the one kept. *)
Definition stop_voice (when : num) (id : nat) (vs : list Voice) : list Voice :=
  map (fun iv : nat * Voice =>
         let (i, v) := iv in
         if Nat.eqb i id then
           mkVoice
             (mkOsc (type (oscillator v)) (frequency (oscillator v))
                    (osc_to_gain (oscillator v)) (started (oscillator v)) (Some when))
             (gainNode v)
         else v)
      (combine (seq 0 (List.length vs)) vs).

(** [oscillator.stop(when)]: a time that is not finite throws, then an
    oscillator that was never started, then a negative time. *)
Definition oscillator_stop (when : num) (id : nat) : M World unit :=
  a <- this ;;
  match audioContext a with
  | None => ret tt
  | Some ctx =>
      match nth_error (voices ctx) id with
      | None => ret tt
      | Some v =>
          (match when with
           | Fin _ => ret tt
           | _ => throw (TypeError "The provided double value is non-finite.")
           end) ;;
          match started (oscillator v) with
          | None => throw (Error "InvalidStateError: cannot call stop without calling start first")
          | Some _ =>
              lift_result (as_time when) ;;
              update (set_audioContext
                        (Some (mkCtx (currentTime ctx) (state ctx)
                                     (stop_voice when id (voices ctx)))))
          end
      end
  end.

(** The loop of [stopAllNotes()] over the active oscillators. *)
Fixpoint stop_each (when : num) (ids : list nat) : M World unit :=
  match ids with
  | [] => ret tt
  | id :: rest =>
      try_catch (oscillator_stop when id)
                (fun e => Browser.console_write Debug "Error stopping oscillator:" []) ;;
      stop_each when rest
  end.

(** [stopAllNotes()] *)
Definition stopAllNotes : M World unit :=
  a <- this ;;
  if negb (isInitialized a) then ret tt
  else
    match audioContext a with
    | None => throw (TypeError "Cannot read properties of null (reading 'currentTime')")
    | Some ctx =>
        let now := currentTime ctx in
        stop_each (add now (Fin (1 # 20))) (activeOscillators a) ;;
        update (set_activeOscillators [])
    end.

(** [async resume()], run to its end; [fulfilled] tells whether the promise
    of [audioContext.resume()] is fulfilled. *)
Definition resume (fulfilled : bool) : M World bool :=
  a <- this ;;
  match audioContext a with
  | None => ret false
  | Some ctx =>
      try_catch
        ((if is_suspended (state ctx) then
            if fulfilled then
              update (set_audioContext
                        (Some (mkCtx (currentTime ctx) running (voices ctx)))) ;;
              Browser.console_write Log "Audio context resumed" []
            else throw (Error "resume rejected")
          else ret tt) ;;
         ret true)
        (fun e =>
           Browser.console_write Err "Error resuming audio context:" [] ;;
           ret false)
  end.

Definition state_name (s : ctx_state) : string :=
  match s with
  | suspended => "suspended"
  | running => "running"
  | closed => "closed"
  end.

(** [getState()] *)
Definition getState : M World string :=
  a <- this ;;
  match audioContext a with
  | None => ret "uninitialized"%string
  | Some ctx => ret (state_name (state ctx))
  end.

(** [isReady()], as the truth value of what it returns. *)
Definition isReady : M World bool :=
  a <- this ;;
  ret (isInitialized a
       && match audioContext a with
          | None => false
          | Some ctx => is_running (state ctx)
          end).

(** [async dispose()], run to its end; [close()] is rejected on a context
    that is closed already. *)
Definition dispose : M World unit :=
  a <- this ;;
  match audioContext a with
  | None => ret tt
  | Some ctx =>
      try_catch
        (stopAllNotes ;;
         (match state ctx with
          | closed => throw (Error "InvalidStateError: cannot close a closed AudioContext")
          | _ => ret tt
          end) ;;
         update (set_audioContext None) ;;
         update (set_masterGain None) ;;
         update (set_isInitialized false) ;;
         Browser.console_write Log "Audio engine disposed" [])
        (fun e => Browser.console_write Err "Error disposing audio engine:" [])
  end.

End AudioEngine.

(* ===================================================================== *)
(** * JSON text *)
(* ===================================================================== *)

(** [JSON.stringify(v, null, 2)] and [JSON.parse(text)] on the values above.
    A string is its sequence of bytes.  Numbers are written in positional
    decimal notation (the exponent notation JavaScript switches to beyond
    1e21 and below 1e-6 is not produced) and read by the JSON grammar with
    their exact decimal value. *)
Module JSON.
Local Open Scope string_scope.

Definition chr (n : N) : ascii := ascii_of_N n.
Definition dquote : ascii := chr 34.
Definition backslash : ascii := chr 92.
Definition nl : ascii := chr 10.
Definition str1 (c : ascii) : string := String c EmptyString.

(** ** Writing *)

Definition show_N (n : N) : string := NilEmpty.string_of_uint (N.to_uint n).

Definition show_Z (z : Z) : string :=
  ((if Z.ltb z 0 then "-" else "") ++ show_N (Z.abs_N z))%string.

(** The digits after the point of [r / d], for [0 <= r < d]. *)
Fixpoint frac_digits (fuel : nat) (r d : Z) : string :=
  match fuel with
  | O => ""
  | S fuel =>
      if Z.eqb r 0 then ""
      else (show_Z (r * 10 / d) ++ frac_digits fuel ((r * 10) mod d) d)%string
  end.

Definition show_Q (q : Q) : string :=
  let q := Qred q in
  let n := Qnum q in
  let d := Zpos (Qden q) in
  if Pos.eqb (Qden q) 1 then show_Z n
  else
    ((if Z.ltb n 0 then "-" else "")
       ++ show_Z (Z.abs n / d) ++ "."
       ++ frac_digits (Nat.max 17 (Pos.size_nat (Qden q))) (Z.abs n mod d) d)%string.

(** A number in JSON text: [null] unless it is finite. *)
Definition show_num (n : num) : string :=
  match n with
  | Fin q => show_Q q
  | _ => "null"
  end.

Definition hex_digit (n : N) : ascii :=
  if N.ltb n 10 then chr (48 + n) else chr (87 + n).

Definition escape_char (c : ascii) : string :=
  let n := N_of_ascii c in
  match n with
  | 34%N => String backslash (str1 dquote)
  | 92%N => String backslash (str1 backslash)
  | 8%N => String backslash "b"
  | 12%N => String backslash "f"
  | 10%N => String backslash "n"
  | 13%N => String backslash "r"
  | 9%N => String backslash "t"
  | _ =>
      if N.ltb n 32 then
        String backslash
          ("u00" ++ String (hex_digit (n / 16)) (str1 (hex_digit (n mod 16))))
      else str1 c
  end.

Fixpoint escape (s : string) : string :=
  match s with
  | EmptyString => ""
  | String c rest => (escape_char c ++ escape rest)%string
  end.

Definition quote (s : string) : string :=
  String dquote (escape s ++ str1 dquote).

Fixpoint join (sep : string) (parts : list string) : string :=
  match parts with
  | [] => ""
  | [p] => p
  | p :: rest => (p ++ sep ++ join sep rest)%string
  end.

(** The text of [v] at indentation [indent]; [None] where [JSON.stringify]
    gives [undefined]. *)
Fixpoint serialize (indent : string) (v : value) : option string :=
  let inner := (indent ++ "  ")%string in
  let sep := String "," (String nl inner) in
  match v with
  | VUndefined => None
  | VNull => Some "null"
  | VBool true => Some "true"
  | VBool false => Some "false"
  | VNum n => Some (show_num n)
  | VStr s => Some (quote s)
  | VArr [] => Some "[]"
  | VArr items =>
      Some ("[" ++ String nl inner
              ++ join sep
                   (map (fun x =>
                           match serialize inner x with
                           | Some t => t
                           | None => "null"
                           end) items)
              ++ String nl indent ++ "]")
  | VObj props =>
      let partial :=
        flat_map (fun kx : string * value =>
                    match serialize inner (snd kx) with
                    | Some t => [quote (fst kx) ++ ": " ++ t]
                    | None => []
                    end) props in
      match partial with
      | [] => Some "{}"
      | _ => Some ("{" ++ String nl inner ++ join sep partial
                     ++ String nl indent ++ "}")
      end
  end.

(** [JSON.stringify(v, null, 2)] *)
Definition stringify (v : value) : option string := serialize "" v.

(** ** Reading *)

Definition is_ws (c : ascii) : bool :=
  match N_of_ascii c with
  | 32%N | 9%N | 10%N | 13%N => true
  | _ => false
  end.

Fixpoint skip_ws (s : string) : string :=
  match s with
  | EmptyString => ""
  | String c rest => if is_ws c then skip_ws rest else s
  end.

Definition digit (c : ascii) : option (uint -> uint) :=
  match N_of_ascii c with
  | 48%N => Some D0
  | 49%N => Some D1
  | 50%N => Some D2
  | 51%N => Some D3
  | 52%N => Some D4
  | 53%N => Some D5
  | 54%N => Some D6
  | 55%N => Some D7
  | 56%N => Some D8
  | 57%N => Some D9
  | _ => None
  end.

(** The longest run of digits at the head of [s], and what follows it. *)
Fixpoint read_digits (s : string) : uint * string :=
  match s with
  | EmptyString => (Nil, "")
  | String c rest =>
      match digit c with
      | Some d => let (ds, rest') := read_digits rest in (d ds, rest')
      | None => (Nil, s)
      end
  end.

(** The number a JSON literal denotes: sign, integer digits, fraction
    digits and exponent. *)
Definition number_value (negative : bool) (ip fp : uint) (e : Z) : num :=
  let k := Z.of_nat (nb_digits fp) in
  let m := (Z.of_N (N.of_uint ip) * 10 ^ k + Z.of_N (N.of_uint fp))%Z in
  let m := if negative then (- m)%Z else m in
  let x := (e - k)%Z in
  Fin (Qred (if Z.leb 0 x then (m * 10 ^ x)%Z # 1
             else m # Z.to_pos (10 ^ (- x)))).

Definition read_fraction (s : string) : option (uint * string) :=
  match s with
  | String c rest =>
      if Ascii.eqb c "." then
        match read_digits rest with
        | (Nil, _) => None
        | (f, rest') => Some (f, rest')
        end
      else Some (Nil, s)
  | EmptyString => Some (Nil, s)
  end.

Definition read_exponent (s : string) : option (Z * string) :=
  match s with
  | String c rest =>
      if Ascii.eqb c "e" || Ascii.eqb c "E" then
        let (negative, rest) :=
          match rest with
          | String c' rest' =>
              if Ascii.eqb c' "-" then (true, rest')
              else if Ascii.eqb c' "+" then (false, rest')
              else (false, rest)
          | EmptyString => (false, rest)
          end in
        match read_digits rest with
        | (Nil, _) => None
        | (ds, rest') =>
            let e := Z.of_N (N.of_uint ds) in
            Some (if negative then (- e)%Z else e, rest')
        end
      else Some (0%Z, s)
  | EmptyString => Some (0%Z, s)
  end.

Definition parse_number (s : string) : option (num * string) :=
  let (negative, s) :=
    match s with
    | String c rest => if Ascii.eqb c "-" then (true, rest) else (false, s)
    | EmptyString => (false, s)
    end in
  match read_digits s with
  | (Nil, _) => None
  | (D0 (D0 _ | D1 _ | D2 _ | D3 _ | D4 _ | D5 _ | D6 _ | D7 _ | D8 _ | D9 _), _) => None
  | (ip, s) =>
      match read_fraction s with
      | None => None
      | Some (fp, s) =>
          match read_exponent s with
          | None => None
          | Some (e, s) => Some (number_value negative ip fp e, s)
          end
      end
  end.

Definition hex_value (c : ascii) : option N :=
  let n := N_of_ascii c in
  if N.leb 48 n && N.leb n 57 then Some (n - 48)%N
  else if N.leb 97 n && N.leb n 102 then Some (n - 87)%N
  else if N.leb 65 n && N.leb n 70 then Some (n - 55)%N
  else None.

(** The bytes of a code point below 65536. *)
Definition utf8 (cp : N) : string :=
  if N.ltb cp 128 then str1 (chr cp)
  else if N.ltb cp 2048 then
    String (chr (192 + cp / 64)) (str1 (chr (128 + cp mod 64)))
  else
    String (chr (224 + cp / 4096))
      (String (chr (128 + (cp / 64) mod 64)) (str1 (chr (128 + cp mod 64)))).

(** The characters of a string literal after its opening quote, up to and
    including the closing one. *)
Fixpoint parse_string (s : string) : option (string * string) :=
  match s with
  | EmptyString => None
  | String c rest =>
      if Ascii.eqb c dquote then Some ("", rest)
      else if Ascii.eqb c backslash then
        match rest with
        | EmptyString => None
        | String e rest1 =>
            let simple (x : ascii) :=
              match parse_string rest1 with
              | Some (t, r) => Some (String x t, r)
              | None => None
              end in
            match N_of_ascii e with
            | 34%N => simple dquote
            | 92%N => simple backslash
            | 47%N => simple "/"%char
            | 98%N => simple (chr 8)
            | 102%N => simple (chr 12)
            | 110%N => simple (chr 10)
            | 114%N => simple (chr 13)
            | 116%N => simple (chr 9)
            | 117%N =>
                match rest1 with
                | String h1 (String h2 (String h3 (String h4 rest2))) =>
                    match hex_value h1, hex_value h2, hex_value h3, hex_value h4 with
                    | Some a, Some b, Some c', Some d =>
                        match parse_string rest2 with
                        | Some (t, r) =>
                            Some ((utf8 (((a * 16 + b) * 16 + c') * 16 + d) ++ t)%string, r)
                        | None => None
                        end
                    | _, _, _, _ => None
                    end
                | _ => None
                end
            | _ => None
            end
        end
      else if N.ltb (N_of_ascii c) 32 then None
      else
        match parse_string rest with
        | Some (t, r) => Some (String c t, r)
        | None => None
        end
  end.

Fixpoint strip_prefix (p s : string) : option string :=
  match p, s with
  | EmptyString, _ => Some s
  | String a p', String b s' => if Ascii.eqb a b then strip_prefix p' s' else None
  | _, EmptyString => None
  end.

(** A property written twice keeps its first place and its last value. *)
Fixpoint define (k : string) (v : value) (props : list (string * value))
  : list (string * value) :=
  match props with
  | [] => [(k, v)]
  | (k', v') :: rest =>
      if String.eqb k k' then (k', v) :: rest else (k', v') :: define k v rest
  end.

Definition object_of (members : list (string * value)) : value :=
  VObj (fold_left (fun props kv => define (fst kv) (snd kv) props) members []).

(** A value at the head of [s] (after white space), and the rest of [s].
    [parse_elements] reads the elements of an array after its bracket,
    [parse_members] the members of an object after its brace. *)
Fixpoint parse_value (fuel : nat) (s : string) : option (value * string) :=
  match fuel with
  | O => None
  | S fuel =>
      match skip_ws s with
      | EmptyString => None
      | String c rest =>
          match N_of_ascii c with
          | 123%N =>
              match skip_ws rest with
              | String c' rest' =>
                  if Ascii.eqb c' "}" then Some (VObj [], rest')
                  else
                    match parse_members fuel (skip_ws rest) with
                    | Some (ms, r) => Some (object_of ms, r)
                    | None => None
                    end
              | EmptyString => None
              end
          | 91%N =>
              match skip_ws rest with
              | String c' rest' =>
                  if Ascii.eqb c' "]" then Some (VArr [], rest')
                  else
                    match parse_elements fuel rest with
                    | Some (vs, r) => Some (VArr vs, r)
                    | None => None
                    end
              | EmptyString => None
              end
          | 34%N =>
              match parse_string rest with
              | Some (t, r) => Some (VStr t, r)
              | None => None
              end
          | 116%N =>
              match strip_prefix "rue" rest with
              | Some r => Some (VBool true, r)
              | None => None
              end
          | 102%N =>
              match strip_prefix "alse" rest with
              | Some r => Some (VBool false, r)
              | None => None
              end
          | 110%N =>
              match strip_prefix "ull" rest with
              | Some r => Some (VNull, r)
              | None => None
              end
          | _ =>
              match parse_number (String c rest) with
              | Some (n, r) => Some (VNum n, r)
              | None => None
              end
          end
      end
  end

with parse_elements (fuel : nat) (s : string) : option (list value * string) :=
  match fuel with
  | O => None
  | S fuel =>
      match parse_value fuel s with
      | None => None
      | Some (v, r) =>
          match skip_ws r with
          | String c r' =>
              if Ascii.eqb c "," then
                match parse_elements fuel r' with
                | Some (vs, r'') => Some (v :: vs, r'')
                | None => None
                end
              else if Ascii.eqb c "]" then Some ([v], r')
              else None
          | EmptyString => None
          end
      end
  end

with parse_members (fuel : nat) (s : string) : option (list (string * value) * string) :=
  match fuel with
  | O => None
  | S fuel =>
      match skip_ws s with
      | String q r =>
          if Ascii.eqb q dquote then
            match parse_string r with
            | None => None
            | Some (k, r1) =>
                match skip_ws r1 with
                | String c r2 =>
                    if Ascii.eqb c ":" then
                      match parse_value fuel r2 with
                      | None => None
                      | Some (v, r3) =>
                          match skip_ws r3 with
                          | String c' r4 =>
                              if Ascii.eqb c' "," then
                                match parse_members fuel r4 with
                                | Some (ms, r5) => Some ((k, v) :: ms, r5)
                                | None => None
                                end
                              else if Ascii.eqb c' "}" then Some ([(k, v)], r4)
                              else None
                          | EmptyString => None
                          end
                      end
                    else None
                | EmptyString => None
                end
            end
          else None
      | EmptyString => None
      end
  end.

(** [JSON.parse(text)]: the value, or a [SyntaxError]. *)
Definition parse (text : string) : result value :=
  match parse_value (2 * String.length text + 2) text with
  | Some (v, rest) =>
      match skip_ws rest with
      | EmptyString => Ok v
      | _ => Throw (SyntaxError "Unexpected non-whitespace character after JSON")
      end
  | None => Throw (SyntaxError "Unexpected token in JSON")
  end.

End JSON.

(* ===================================================================== *)
(** * xylophone.js *)
(* ===================================================================== *)

Module Xylophone.
Import XylophoneS.
Local Open Scope string_scope.

Definition hz (hundredths : Z) : num := Fin (Qred (hundredths # 100)).

(** [new Xylophone()] *)
Definition constructor : t :=
  mk [ mkNote "C4" (hz 26163); mkNote "D4" (hz 29366); mkNote "E4" (hz 32963);
       mkNote "F4" (hz 34923); mkNote "G4" (hz 39200); mkNote "A4" (hz 44000);
       mkNote "B4" (hz 49388); mkNote "C5" (hz 52325); mkNote "D5" (hz 58733);
       mkNote "E5" (hz 65925); mkNote "F5" (hz 69846) ]
     [ ("a", int 0); ("A", int 0); ("s", int 1); ("S", int 1);
       ("d", int 2); ("D", int 2); ("f", int 3); ("F", int 3);
       ("g", int 4); ("G", int 4); ("h", int 5); ("H", int 5);
       ("j", int 6); ("J", int 6); ("k", int 7); ("K", int 7);
       ("l", int 8); ("L", int 8); (";", int 9); (":", int 9);
       ("'", int 10); (JSON.str1 JSON.dquote, int 10) ]
     (int 2) [] (int 20).

Definition this : M World t := gets xylo.

Definition update (f : t -> t) : M World unit :=
  modify (fun w => set_xylo (f (xylo w)) w).

(** The number a value is, where the code has already checked that it is
    one. *)
Definition as_number (v : Js.value) : num :=
  match v with
  | VNum n => n
  | _ => NaN
  end.

Definition size {A} (l : list A) : num := int (Z.of_nat (List.length l)).

(** [array[n]]: an element only at a non-negative integer below the length,
    [undefined] (here [None]) at any other number. *)
Definition element {A} (l : list A) (n : num) : option A :=
  match n with
  | Fin q =>
      if is_integer n && Qle_bool 0 q
      then nth_error l (Z.to_nat (Qnum (Qred q)))
      else None
  | _ => None
  end.

(** [set.has(n)], [set.add(n)] and [set.delete(n)] on a [Set] of numbers. *)
Definition has (n : num) (s : list num) : bool := existsb (same n) s.

Definition set_add (n : num) (s : list num) : list num :=
  if has n s then s else s ++ [n].

Definition set_delete (n : num) (s : list num) : list num :=
  filter (fun m => negb (same n m)) s.

(** [playNote(noteIndex)] *)
Definition playNote (noteIndex : num) : M World bool :=
  x <- this ;;
  if lt noteIndex (int 0) || ge noteIndex (size (notes x)) then
    Browser.console_write Warn "Invalid note index: " [VNum noteIndex] ;;
    ret false
  else if ge (size (activeNotes x)) (maxPolyphony x) then
    Browser.console_write Warn "Maximum polyphony reached, skipping note" [] ;;
    ret false
  else
    let note := element (notes x) noteIndex in
    match note with
    | None =>
        throw (TypeError "Cannot read properties of undefined (reading 'frequency')")
    | Some note =>
        success <- AudioEngine.playNote (frequency note) (Some (noteDuration x)) ;;
        (if success : bool then
           update (fun x => set_activeNotes (set_add noteIndex (activeNotes x)) x) ;;
           _ <- Browser.setTimeout (DeleteActiveNote noteIndex)
                                   (mul (noteDuration x) (int 1000)) ;;
           Browser.console_write Debug "Playing note " [VStr (name note); VNum (frequency note)]
         else ret tt) ;;
        ret success
    end.

(** The callback of the timer [playNote] sets. *)
Definition delete_active (noteIndex : num) : M World unit :=
  update (fun x => set_activeNotes (set_delete noteIndex (activeNotes x)) x).

(** [playNoteByKey(key)] *)
Definition playNoteByKey (key : string) : M World bool :=
  x <- this ;;
  match find (fun kv => String.eqb key (fst kv)) (keyMap x) with
  | None =>
      Browser.console_write Debug "No note mapped to key: " [VStr key] ;;
      ret false
  | Some (_, noteIndex) => playNote noteIndex
  end.

(** [isNotePlaying(noteIndex)] *)
Definition isNotePlaying (noteIndex : num) : M World bool :=
  x <- this ;;
  ret (has noteIndex (activeNotes x)).

(** [getActiveNoteCount()] *)
Definition getActiveNoteCount : M World nat :=
  x <- this ;;
  ret (List.length (activeNotes x)).

(** [setNoteDuration(duration)] *)
Definition setNoteDuration (duration : num) : M World unit :=
  if gt duration (int 0) && le duration (int 10) then
    update (set_noteDuration duration)
  else
    Browser.console_write Warn
      "Invalid note duration, must be between 0 and 10 seconds" [].

(** [setMaxPolyphony(maxNotes)] *)
Definition setMaxPolyphony (maxNotes : num) : M World unit :=
  if gt maxNotes (int 0) && le maxNotes (int 50) then
    update (set_maxPolyphony maxNotes)
  else
    Browser.console_write Warn
      "Invalid polyphony limit, must be between 1 and 50" [].

(** [getNoteCount()] *)
Definition getNoteCount : M World nat :=
  x <- this ;;
  ret (List.length (notes x)).

(** [isValidNoteIndex(noteIndex)] *)
Definition isValidNoteIndex (noteIndex : Js.value) : M World bool :=
  x <- this ;;
  ret (Number_isInteger noteIndex
       && ge (as_number noteIndex) (int 0)
       && lt (as_number noteIndex) (size (notes x))).

(** [getNoteInfo(noteIndex)]: [null] outside the range, else a copy of
    [notes[noteIndex]]; the copy of an element that is not there is an
    object with no property. *)
Definition getNoteInfo (noteIndex : num) : M World Js.value :=
  x <- this ;;
  if lt noteIndex (int 0) || ge noteIndex (size (notes x)) then ret VNull
  else
    match element (notes x) noteIndex with
    | None => ret (VObj [])
    | Some note =>
        ret (VObj [("name", VStr (name note)); ("frequency", VNum (frequency note))])
    end.

(** The members every object inherits from [Object.prototype]. *)
Definition Object_prototype : list string :=
  [ "constructor"; "hasOwnProperty"; "isPrototypeOf"; "propertyIsEnumerable";
    "toLocaleString"; "toString"; "valueOf"; "__proto__";
    "__defineGetter__"; "__defineSetter__"; "__lookupGetter__"; "__lookupSetter__" ].

(** [this.keyMap[key]]: the index mapped to the key, or an inherited member
    (a function or an object, never a number), or [undefined]. *)
Inductive member : Type :=
| Own (noteIndex : num)
| Inherited
| Missing.

Definition keyMap_get (key : string) (x : t) : member :=
  match find (fun kv => String.eqb key (fst kv)) (keyMap x) with
  | Some (_, noteIndex) => Own noteIndex
  | None =>
      if existsb (String.eqb key) Object_prototype then Inherited else Missing
  end.

(** [getNoteIndexForKey(key)]; [None] is [null].  An inherited member is
    written as an object with no property: the callers only test whether
    what they get is a number. *)
Definition getNoteIndexForKey (key : string) : M World (option Js.value) :=
  x <- this ;;
  ret (match keyMap_get key x with
       | Own noteIndex => Some (VNum noteIndex)
       | Inherited => Some (VObj [])
       | Missing => None
       end).

(** [stopAllNotes()] *)
Definition stopAllNotes : M World unit :=
  AudioEngine.stopAllNotes ;;
  update (set_activeNotes []).

(** [getNoteDuration()] and [getMaxPolyphony()] *)
Definition getNoteDuration : M World num :=
  x <- this ;; ret (noteDuration x).

Definition getMaxPolyphony : M World num :=
  x <- this ;; ret (maxPolyphony x).

End Xylophone.

(* ===================================================================== *)
(** * visual-feedback.js *)
(* ===================================================================== *)

Module VisualFeedback.
Import VisualFeedbackS.
Local Open Scope string_scope.

(** [new VisualFeedback()] *)
Definition constructor : t := mk [] (int 300) [] false.

(** The module after [initialize()] on a page with [n] bars. *)
Definition initialized (n : nat) : t := mk (repeat false n) (int 300) [] true.

Definition this : M World t := gets visual.

Definition update (f : t -> t) : M World unit :=
  modify (fun w => set_visual (f (visual w)) w).

Fixpoint set_nth {A} (i : nat) (a : A) (l : list A) : list A :=
  match l, i with
  | [], _ => []
  | _ :: rest, O => a :: rest
  | x :: rest, S i => x :: set_nth i a rest
  end.

Definition set_class (noteIndex : num) (on : bool) (bars : list bool) : list bool :=
  match noteIndex with
  | Fin q => set_nth (Z.to_nat (Qnum (Qred q))) on bars
  | _ => bars
  end.

(** [activateBar(noteIndex)] *)
Definition activateBar (noteIndex : num) : M World bool :=
  v <- this ;;
  if negb (isInitialized v) then
    Browser.console_write Warn "Visual feedback not initialized" [] ;;
    ret false
  else if lt noteIndex (int 0) || ge noteIndex (Xylophone.size (barElements v)) then
    Browser.console_write Warn "Invalid note index for visual feedback: " [VNum noteIndex] ;;
    ret false
  else
    (match find (fun kt => same noteIndex (fst kt)) (activeTimeouts v) with
     | Some (_, id) =>
         Browser.clearTimeout id ;;
         update (fun v => set_activeTimeouts
                   (filter (fun kt => negb (same noteIndex (fst kt))) (activeTimeouts v)) v)
     | None => ret tt
     end) ;;
    match Xylophone.element (barElements v) noteIndex with
    | None => throw (TypeError "Cannot read properties of undefined (reading 'classList')")
    | Some _ =>
        update (fun v => set_barElements (set_class noteIndex true (barElements v)) v) ;;
        timeout <- Browser.setTimeout (RemoveActiveClass noteIndex) (activeDuration v) ;;
        update (fun v => set_activeTimeouts
                  (filter (fun kt => negb (same noteIndex (fst kt))) (activeTimeouts v)
                     ++ [(noteIndex, timeout)]) v) ;;
        ret true
    end.

(** The callback of the timer [activateBar] sets. *)
Definition remove_active (noteIndex : num) : M World unit :=
  update (fun v =>
    set_activeTimeouts
      (filter (fun kt => negb (same noteIndex (fst kt))) (activeTimeouts v))
      (set_barElements (set_class noteIndex false (barElements v)) v)).

(** [deactivateBar(noteIndex)] *)
Definition deactivateBar (noteIndex : num) : M World bool :=
  v <- this ;;
  if negb (isInitialized v) then ret false
  else if lt noteIndex (int 0) || ge noteIndex (Xylophone.size (barElements v)) then
    ret false
  else
    (match find (fun kt => same noteIndex (fst kt)) (activeTimeouts v) with
     | Some (_, id) =>
         Browser.clearTimeout id ;;
         update (fun v => set_activeTimeouts
                   (filter (fun kt => negb (same noteIndex (fst kt))) (activeTimeouts v)) v)
     | None => ret tt
     end) ;;
    match Xylophone.element (barElements v) noteIndex with
    | None => throw (TypeError "Cannot read properties of undefined (reading 'classList')")
    | Some _ =>
        update (fun v => set_barElements (set_class noteIndex false (barElements v)) v) ;;
        ret true
    end.

(** [isBarActive(noteIndex)] *)
Definition isBarActive (noteIndex : num) : M World bool :=
  v <- this ;;
  if negb (isInitialized v)
     || lt noteIndex (int 0)
     || ge noteIndex (Xylophone.size (barElements v)) then ret false
  else
    match Xylophone.element (barElements v) noteIndex with
    | None => throw (TypeError "Cannot read properties of undefined (reading 'classList')")
    | Some active => ret active
    end.

(** [setActiveDuration(duration)] *)
Definition setActiveDuration (duration : num) : M World unit :=
  if gt duration (int 0) && le duration (int 2000) then
    update (fun v => mk (barElements v) duration (activeTimeouts v) (isInitialized v))
  else
    Browser.console_write Warn
      "Invalid active duration, must be between 0 and 2000ms" [].

(** The loop of [deactivateAllBars()] over the entries of the map, oldest
    first. *)
Fixpoint clear_each (entries : list (num * nat)) : M World unit :=
  match entries with
  | [] => ret tt
  | (noteIndex, timeout) :: rest =>
      Browser.clearTimeout timeout ;;
      v <- this ;;
      match Xylophone.element (barElements v) noteIndex with
      | None => throw (TypeError "Cannot read properties of undefined (reading 'classList')")
      | Some _ =>
          update (fun v => set_barElements (set_class noteIndex false (barElements v)) v)
      end ;;
      clear_each rest
  end.

(** [deactivateAllBars()] *)
Definition deactivateAllBars : M World unit :=
  v <- this ;;
  if negb (isInitialized v) then ret tt
  else
    clear_each (activeTimeouts v) ;;
    update (set_activeTimeouts []).

(** [getActiveBarCount()] *)
Definition getActiveBarCount : M World nat :=
  v <- this ;;
  ret (List.length (activeTimeouts v)).

End VisualFeedback.

(* ===================================================================== *)
(** * input-handler.js *)
(* ===================================================================== *)

(** The [detail] of a [notePlayed] event, as far as its listeners read it. *)
Record NoteDetail : Type := mkDetail {
  noteIndex : Js.value;
  timestamp : num
}.

(** The fields of [InputHandler] the keyboard handlers use. *)
Module InputHandlerS.

Record t : Type := mk {
  keyDebounceTime : num;
  lastKeyPress : list (string * num);
  keysCurrentlyPressed : list string
}.

End InputHandlerS.

Module InputHandler.
Local Open Scope string_scope.

(** [new InputHandler()] *)
Definition constructor : InputHandlerS.t := InputHandlerS.mk (int 100) [] [].

(** A computation of the page, run by the input handler. *)
Definition on_page {A} (m : M World A) : M (InputHandlerS.t * World) A :=
  zoom snd (fun w s => (fst s, w)) m.

Definition this : M (InputHandlerS.t * World) InputHandlerS.t := gets fst.

Definition update (f : InputHandlerS.t -> InputHandlerS.t) : M (InputHandlerS.t * World) unit :=
  modify (fun s => (f (fst s), snd s)).

(** [map.set(key, value)] on a [Map] with string keys. *)
Fixpoint map_set (key : string) (value : num) (m : list (string * num)) : list (string * num) :=
  match m with
  | [] => [(key, value)]
  | (k, v) :: rest =>
      if String.eqb key k then (k, value) :: rest else (k, v) :: map_set key value rest
  end.

(** [map.get(key) || 0] *)
Definition last_press (key : string) (m : list (string * num)) : num :=
  match find (fun kv => String.eqb key (fst kv)) m with
  | Some (_, NaN) => int 0
  | Some (_, t) => t
  | None => int 0
  end.

Section Dispatch.

(** [document.dispatchEvent] for a [notePlayed] event: what the listeners
    registered on the document do with its detail. *)
Variable dispatchEvent : NoteDetail -> M World unit.

(** [emitNoteEvent(noteIndex)] *)
Definition emitNoteEvent (noteIndex : Js.value) : M World unit :=
  now <- Browser.Date_now ;;
  dispatchEvent (mkDetail noteIndex now).

(** [handleBarActivation(noteIndex)] *)
Definition handleBarActivation (noteIndex : Js.value) : M World unit :=
  valid <- Xylophone.isValidNoteIndex noteIndex ;;
  if negb valid then
    (* `Invalid note index: ${noteIndex}` *)
    (if has_string noteIndex then ret tt
     else throw (TypeError "Cannot convert object to primitive value")) ;;
    Browser.console_write Warn "Invalid note index: " [noteIndex]
  else
    success <- Xylophone.playNote (Xylophone.as_number noteIndex) ;;
    if success : bool then
      _ <- VisualFeedback.activateBar (Xylophone.as_number noteIndex) ;;
      emitNoteEvent noteIndex
    else ret tt.

(** [triggerBar(noteIndex)] *)
Definition triggerBar (noteIndex : Js.value) : M World unit :=
  modify (fun w => set_triggered (triggered w ++ [noteIndex]) w) ;;
  handleBarActivation noteIndex.

(** The [keydown] listener of [setupKeyboardEvents()] on an event whose
    [key] is [key]; it returns whether it called [preventDefault()]. *)
Definition keyDownHandler (key : string) : M (InputHandlerS.t * World) bool :=
  noteIndex <- on_page (Xylophone.getNoteIndexForKey key) ;;
  match noteIndex with
  | None => ret false
  | Some noteIndex =>
      h <- this ;;
      if existsb (String.eqb key) (InputHandlerS.keysCurrentlyPressed h) then ret true
      else
        now <- on_page Browser.Date_now ;;
        let lastPress := last_press key (InputHandlerS.lastKeyPress h) in
        if lt (sub now lastPress) (InputHandlerS.keyDebounceTime h) then ret true
        else
          update (fun h =>
                    InputHandlerS.mk
                      (InputHandlerS.keyDebounceTime h)
                      (InputHandlerS.lastKeyPress h)
                      (if existsb (String.eqb key) (InputHandlerS.keysCurrentlyPressed h)
                       then InputHandlerS.keysCurrentlyPressed h
                       else InputHandlerS.keysCurrentlyPressed h ++ [key])) ;;
          update (fun h =>
                    InputHandlerS.mk
                      (InputHandlerS.keyDebounceTime h)
                      (map_set key now (InputHandlerS.lastKeyPress h))
                      (InputHandlerS.keysCurrentlyPressed h)) ;;
          on_page (handleBarActivation noteIndex) ;;
          ret true
  end.

(** The [keyup] listener. *)
Definition keyUpHandler (key : string) : M (InputHandlerS.t * World) unit :=
  update (fun h =>
            InputHandlerS.mk
              (InputHandlerS.keyDebounceTime h)
              (InputHandlerS.lastKeyPress h)
              (filter (fun k => negb (String.eqb key k))
                      (InputHandlerS.keysCurrentlyPressed h))).

(** [setKeyDebounceTime(time)] *)
Definition setKeyDebounceTime (time : num) : M (InputHandlerS.t * World) unit :=
  if ge time (int 0) && le time (int 1000) then
    update (fun h =>
              InputHandlerS.mk time (InputHandlerS.lastKeyPress h)
                               (InputHandlerS.keysCurrentlyPressed h))
  else
    on_page (Browser.console_write Warn
               "Invalid debounce time, must be between 0 and 1000ms" []).

End Dispatch.

End InputHandler.

(* ===================================================================== *)
(** * controls.js *)
(* ===================================================================== *)

(** What an [async] function has handed back to its caller. *)
Inductive promise : Type :=
| Pending
| Fulfilled
| Rejected (e : exn).

(** How far a run of the playback loop got before it gave control back: to
    its end, to an [await] on a timer, or (in this embedding only) to the
    end of the steps it was allowed. *)
Inductive progress : Type :=
| Finished
| Waiting
| OutOfFuel.

Module Controls.
Import ControlsS.
Local Open Scope string_scope.

(** [new Controls()] *)
Definition constructor : t :=
  mk None None None None false false [] (int 0) (int 100) None [] false.

Definition this : M World t := gets ctrl.

Definition update (f : t -> t) : M World unit :=
  modify (fun w => set_ctrl (f (ctrl w)) w).

(** ** The elements *)

Definition add_class (cls : string) (b : Button) : Button :=
  mkButton (disabled b)
           (if existsb (String.eqb cls) (classList b) then classList b
            else classList b ++ [cls])
           (innerHTML b).

Definition remove_class (cls : string) (b : Button) : Button :=
  mkButton (disabled b)
           (filter (fun c => negb (String.eqb cls c)) (classList b))
           (innerHTML b).

Definition set_innerHTML (m : markup) (b : Button) : Button :=
  mkButton (disabled b) (classList b) m.

Definition set_disabled (d : bool) (b : Button) : Button :=
  mkButton d (classList b) (innerHTML b).

(** [this.recordBtn.<member> ...]: a [TypeError] while the field is [null]. *)
Definition on_recordBtn (f : Button -> Button) : M World unit :=
  c <- this ;;
  match recordBtn c with
  | None => throw (TypeError "Cannot read properties of null")
  | Some b => update (set_recordBtn (Some (f b)))
  end.

Definition on_playBtn (f : Button -> Button) : M World unit :=
  c <- this ;;
  match playBtn c with
  | None => throw (TypeError "Cannot read properties of null")
  | Some b => update (set_playBtn (Some (f b)))
  end.

Definition on_clearBtn (f : Button -> Button) : M World unit :=
  c <- this ;;
  match clearBtn c with
  | None => throw (TypeError "Cannot read properties of null")
  | Some b => update (set_clearBtn (Some (f b)))
  end.

(** [updateRecordingStatus(message)] *)
Definition updateRecordingStatus (message : string) : M World unit :=
  c <- this ;;
  match recordingStatus c with
  | Some _ => update (set_recordingStatus (Some message))
  | None => ret tt
  end.

Definition count {A} (l : list A) : string := JSON.show_N (N.of_nat (List.length l)).

(** ** Recording *)

(** [startRecording()] *)
Definition startRecording : M World unit :=
  c <- this ;;
  if isPlaying c then
    Browser.console_write Warn "Cannot record while playing" []
  else
    update (set_isRecording true) ;;
    update (set_recordedSequence []) ;;
    now <- Browser.Date_now ;;
    update (set_recordingStartTime now) ;;
    on_recordBtn (add_class "recording") ;;
    on_recordBtn (set_innerHTML StopSquare) ;;
    updateRecordingStatus "Recording..." ;;
    Browser.console_write Log "Recording started" [].

(** [stopRecording()] *)
Definition stopRecording : M World unit :=
  c <- this ;;
  if negb (isRecording c) then ret tt
  else
    update (set_isRecording false) ;;
    on_recordBtn (remove_class "recording") ;;
    on_recordBtn (set_innerHTML RecordCircle) ;;
    c <- this ;;
    (if Nat.ltb 0 (List.length (recordedSequence c)) then
       on_playBtn (set_disabled false) ;;
       on_clearBtn (set_disabled false) ;;
       updateRecordingStatus ("Recorded " ++ count (recordedSequence c) ++ " notes")
     else
       updateRecordingStatus "No notes recorded") ;;
    Browser.console_write Log "Recording stopped: " [VNum (Xylophone.size (recordedSequence c))].

(** [recordNote(noteDetail)] *)
Definition recordNote (noteDetail : NoteDetail) : M World unit :=
  c <- this ;;
  if negb (isRecording c) then ret tt
  else if ge (Xylophone.size (recordedSequence c)) (maxRecordingLength c) then
    Browser.console_write Warn "Maximum recording length reached" [] ;;
    stopRecording
  else
    let delay := sub (timestamp noteDetail) (recordingStartTime c) in
    update (fun c =>
              set_recordedSequence
                (recordedSequence c
                   ++ [VObj [("noteIndex", noteIndex noteDetail); ("delay", VNum delay)]])
                c) ;;
    c <- this ;;
    updateRecordingStatus ("Recording... (" ++ count (recordedSequence c) ++ " notes)").

(** The [notePlayed] listener of [setupNoteListener]. *)
Definition notePlayedHandler (detail : NoteDetail) : M World unit :=
  c <- this ;;
  if isRecording c then recordNote detail else ret tt.

Fixpoint for_each {A} (f : A -> M World unit) (l : list A) : M World unit :=
  match l with
  | [] => ret tt
  | a :: rest => f a ;; for_each f rest
  end.

(** What the browser does with an exception that leaves a listener, a timer
    callback or a promise nobody awaits: it reports it and goes on. *)
Definition reported {A} (m : M World A) : M World unit :=
  fun w =>
    match m w with
    | (Ok _, w') => (Ok tt, w')
    | (Throw e, w') => (Ok tt, set_console (mkEntry Err "Uncaught" [] :: console_out w') w')
    end.

(** [document.dispatchEvent] of a [notePlayed] event: every listener the
    module has registered for it runs in turn. *)
Definition dispatchEvent (detail : NoteDetail) : M World unit :=
  c <- this ;;
  for_each (fun l =>
              match l with
              | NotePlayed => reported (notePlayedHandler detail)
              | _ => ret tt
              end) (listeners c).

(** [inputHandler.triggerBar(noteIndex)] on this page. *)
Definition triggerBar (noteIndex : Js.value) : M World unit :=
  InputHandler.triggerBar dispatchEvent noteIndex.

(** ** Playback *)

(** [stopPlayback()] *)
Definition stopPlayback : M World unit :=
  c <- this ;;
  if negb (isPlaying c) then ret tt
  else
    update (set_isPlaying false) ;;
    (match playbackTimeout c with
     | Some (S id) =>
         Browser.clearTimeout (S id) ;;
         update (set_playbackTimeout None)
     | _ => ret tt
     end) ;;
    on_playBtn (remove_class "playing") ;;
    on_playBtn (set_innerHTML PlayTriangle) ;;
    on_recordBtn (set_disabled false) ;;
    on_clearBtn (set_disabled false) ;;
    c <- this ;;
    updateRecordingStatus ("Recorded " ++ count (recordedSequence c) ++ " notes") ;;
    Browser.console_write Log "Playback stopped" [].

(** The loop of [playSequenceWithTiming()] from its iteration [i], run until
    it ends or awaits.  With [awaited = None] the iteration starts at the loop
    test; with [awaited = Some note] it goes on after the [await] of that
    iteration, whether the wait was taken or skipped. *)
Fixpoint playFrom (fuel : nat) (startTime : num) (i : nat) (awaited : option Js.value)
  : M World progress :=
  match fuel with
  | O => ret OutOfFuel
  | S fuel =>
      match awaited with
      | Some note =>
          c <- this ;;
          (if isPlaying c then
             index <- lift_result (get_prop note "noteIndex") ;;
             triggerBar index
           else ret tt) ;;
          playFrom fuel startTime (S i) None
      | None =>
          c <- this ;;
          match nth_error (recordedSequence c) i with
          | None => ret Finished
          | Some note =>
              if negb (isPlaying c) then ret Finished
              else
                delay <- lift_result (get_prop note "delay") ;;
                let targetTime := add startTime (Xylophone.as_number delay) in
                currentTime <- Browser.Date_now ;;
                let waitTime := sub targetTime currentTime in
                if gt waitTime (int 0) then
                  id <- Browser.setTimeout (ResumePlayback i startTime note) waitTime ;;
                  update (set_playbackTimeout (Some id)) ;;
                  ret Waiting
                else playFrom fuel startTime i (Some note)
          end
      end
  end.

(** [async playSequenceWithTiming()], from its call to its first [await] or
    its end. *)
Definition playSequenceWithTiming (fuel : nat) : M World progress :=
  startTime <- Browser.Date_now ;;
  playFrom fuel startTime 0 None.

Definition attempt {A} (m : M World A) : M World (result A) :=
  fun w => match m w with (r, w') => (Ok r, w') end.

(** Where [playRecording] stands once the loop has given control back: it
    stays suspended while the loop waits, and is queued to go on after its
    own [await] once the loop has ended or thrown. *)
Definition settle (r : result progress) : M World progress :=
  match r with
  | Ok Finished => Browser.queueMicrotask (PlaybackSettled (Ok tt)) ;; ret Finished
  | Throw e => Browser.queueMicrotask (PlaybackSettled (Throw e)) ;; ret Finished
  | Ok p => ret p
  end.

(** [async playRecording()], from its call to the point where it hands a
    promise back. *)
Definition playRecording (fuel : nat) : M World (promise * progress) :=
  c <- this ;;
  if Nat.eqb (List.length (recordedSequence c)) 0 then
    Browser.console_write Warn "No recording to play" [] ;;
    ret (Fulfilled, Finished)
  else if isPlaying c then
    Browser.console_write Warn "Already playing" [] ;;
    ret (Fulfilled, Finished)
  else
    try_catch
      (update (set_isPlaying true) ;;
       on_playBtn (add_class "playing") ;;
       on_playBtn (set_innerHTML PauseBars) ;;
       on_recordBtn (set_disabled true) ;;
       on_clearBtn (set_disabled true) ;;
       updateRecordingStatus "Playing..." ;;
       Browser.console_write Log "Playing recording" [] ;;
       r <- attempt (playSequenceWithTiming fuel) ;;
       p <- settle r ;;
       ret (Pending, p))
      (fun e => ret (Rejected e, Finished)).

(** [playRecording] after its [await]: the [catch] and [finally] blocks. *)
Definition run_job (j : job) : M World unit :=
  match j with
  | PlaybackSettled outcome =>
      try_finally
        (try_catch (lift_result outcome)
                   (fun e => Browser.console_write Err "Error playing recording:" []))
        stopPlayback
  end.

(** The microtask queue is emptied. *)
Definition run_microtasks : M World unit :=
  fun w => for_each (fun j => reported (run_job j)) (jobs w) (set_jobs [] w).

(** The timer [id] fires: it leaves the pending timers, its callback runs,
    and the microtasks queued meanwhile run after it. *)
Definition fire_timer (fuel : nat) (id : nat) : M World progress :=
  fun w =>
    match find (fun t => Nat.eqb (timer_id t) id) (timers w) with
    | None => (Ok Finished, w)
    | Some t =>
        (Browser.clearTimeout id ;;
         p <- match timer_callback t with
              | DeleteActiveNote n => reported (Xylophone.delete_active n) ;; ret Finished
              | RemoveActiveClass n => reported (VisualFeedback.remove_active n) ;; ret Finished
              | ResumePlayback i startTime note =>
                  r <- attempt (playFrom fuel startTime i (Some note)) ;;
                  settle r
              end ;;
         run_microtasks ;;
         ret p) w
    end.

(** [clearRecording()] *)
Definition clearRecording : M World unit :=
  c <- this ;;
  (if isPlaying c then stopPlayback else ret tt) ;;
  update (set_recordedSequence []) ;;
  on_playBtn (set_disabled true) ;;
  on_clearBtn (set_disabled true) ;;
  updateRecordingStatus "" ;;
  Browser.console_write Log "Recording cleared" [].

(** The click listeners of [setupRecordingControls]. *)
Definition recordHandler : M World unit :=
  c <- this ;;
  if isRecording c then stopRecording else startRecording.

Definition playHandler (fuel : nat) : M World unit :=
  c <- this ;;
  if isPlaying c then stopPlayback
  else _ <- playRecording fuel ;; ret tt.

Definition clearHandler : M World unit := clearRecording.

(** ** Accessors *)

(** [getRecordedSequence()] *)
Definition getRecordedSequence : M World (list Js.value) :=
  c <- this ;; ret (recordedSequence c).

(** [isCurrentlyRecording()] *)
Definition isCurrentlyRecording : M World bool :=
  c <- this ;; ret (isRecording c).

(** [isCurrentlyPlaying()] *)
Definition isCurrentlyPlaying : M World bool :=
  c <- this ;; ret (isPlaying c).

(** [getRecordingLength()] *)
Definition getRecordingLength : M World nat :=
  c <- this ;; ret (List.length (recordedSequence c)).

(** [setMaxRecordingLength(maxLength)] *)
Definition setMaxRecordingLength (maxLength : num) : M World unit :=
  if gt maxLength (int 0) && le maxLength (int 500) then
    update (set_maxRecordingLength maxLength)
  else
    Browser.console_write Warn
      "Invalid max recording length, must be between 1 and 500" [].

(** ** Export and import *)

(** [exportSequence()]; [None] stands for [undefined], which
    [JSON.stringify] does not give for an array. *)
Definition exportSequence : M World (option string) :=
  c <- this ;;
  ret (JSON.stringify (VArr (recordedSequence c))).

(** The test of one element in the loop of [importSequence]. *)
Definition validate_note (note : Js.value) : M World unit :=
  a <- lift_result (get_prop note "noteIndex") ;;
  if negb (String.eqb (typeof a) "number") then
    throw (Error "Invalid note format")
  else
    b <- lift_result (get_prop note "delay") ;;
    if negb (String.eqb (typeof b) "number") then
      throw (Error "Invalid note format")
    else ret tt.

(** [importSequence(jsonString)] *)
Definition importSequence (jsonString : string) : M World bool :=
  try_catch
    (sequence <- lift_result (JSON.parse jsonString) ;;
     match sequence with
     | VArr items =>
         for_each validate_note items ;;
         update (set_recordedSequence items) ;;
         c <- this ;;
         (if Nat.ltb 0 (List.length (recordedSequence c)) then
            on_playBtn (set_disabled false) ;;
            on_clearBtn (set_disabled false) ;;
            updateRecordingStatus ("Imported " ++ count (recordedSequence c) ++ " notes")
          else ret tt) ;;
         Browser.console_write Log "Sequence imported successfully" [] ;;
         ret true
     | _ => throw (Error "Invalid sequence format")
     end)
    (fun e =>
       Browser.console_write Err "Error importing sequence:" [] ;;
       ret false).

(** ** Set-up *)

(** The elements [initialize] looks up in the page; [None] where
    [getElementById] finds nothing. *)
Record Page : Type := mkPage {
  volume_slider : bool;
  record_btn : option Button;
  play_btn : option Button;
  clear_btn : option Button;
  recording_status : option string
}.

Definition addListener (l : listener) : M World unit :=
  update (fun c => set_listeners (listeners c ++ [l]) c).

(** [setupRecordingControls()] *)
Definition setupRecordingControls : M World unit :=
  on_recordBtn (fun b => b) ;;
  on_playBtn (fun b => b) ;;
  on_clearBtn (fun b => b) ;;
  addListener RecordClick ;;
  addListener PlayClick ;;
  addListener ClearClick.

(** [initialize()]; of [setupVolumeControl()] only the listener it registers
    is kept. *)
Definition initialize (p : Page) : M World bool :=
  update (set_recordBtn (record_btn p)) ;;
  update (set_playBtn (play_btn p)) ;;
  update (set_clearBtn (clear_btn p)) ;;
  update (set_recordingStatus (recording_status p)) ;;
  match volume_slider p, record_btn p with
  | true, Some _ =>
      addListener VolumeInput ;;
      setupRecordingControls ;;
      addListener NotePlayed ;;
      update (set_isInitialized true) ;;
      Browser.console_write Log "Controls initialized" [] ;;
      ret true
  | _, _ =>
      Browser.console_write Warn "Control elements not found, controls disabled" [] ;;
      ret false
  end.

End Controls.

(* ===================================================================== *)
(** * Pages to run the modules on *)
(* ===================================================================== *)

Module Page.

(** The four singletons as their constructors leave them, before any
    [initialize()], with the wall clock at [t0]. *)
Definition fresh (t0 : Z) : World :=
  mkWorld AudioEngine.constructor Xylophone.constructor
          VisualFeedback.constructor Controls.constructor
          [] [] (int t0) [] [] 1 [].

Definition button : ControlsS.Button :=
  ControlsS.mkButton false [] ControlsS.PageMarkup.

(** A page with every control element, and a browser that grants a running
    audio context whose clock reads [0]. *)
Definition controls_page : Controls.Page :=
  Controls.mkPage true (Some button) (Some button) (Some button)
                  (Some EmptyString).

Definition audio_page : AudioEngine.Page :=
  AudioEngine.mkPage true AudioEngineS.running (AudioEngineS.mkReading 0 1) true.

(** The page after the application has initialized its modules: eleven bars,
    the controls bound, the audio engine running. *)
Definition ready (t0 : Z) : World :=
  snd ((Controls.initialize controls_page ;;
        AudioEngine.initialize audio_page)
         (set_visual (VisualFeedback.initialized 11) (fresh t0))).

(** A page that has none of the control elements. *)
Definition no_controls : Controls.Page :=
  Controls.mkPage false None None None None.

(** The same page with the values the next calls of [Date.now()] return. *)
Definition at_times (ts : list Z) (w : World) : World :=
  set_clock (now w) (map int ts) w.

(** The run of a computation: its result and the world it leaves. *)
Definition after {A} (m : M World A) (w : World) : World := snd (m w).
Definition outcome {A} (m : M World A) (w : World) : result A := fst (m w).

(** The page when the modules have been loaded and the visual feedback has
    looked for its bars: with no bar in the page it stays as constructed. *)
Definition loaded (bars : nat) (t0 : Z) : World :=
  set_visual (match bars with
              | O => VisualFeedback.constructor
              | S _ => VisualFeedback.initialized bars
              end)
             (fresh t0).

End Page.

(* ===================================================================== *)
(** * Vocabulary of the properties *)
(* ===================================================================== *)

Module Spec.
Import ControlsS.
Local Open Scope string_scope.

(** The three buttons of the recorder have been found in the page. *)
Definition bound (c : ControlsS.t) : bool :=
  match recordBtn c, playBtn c, clearBtn c with
  | Some _, Some _, Some _ => true
  | _, _, _ => false
  end.

(** The record of a note played at [timestamp d] in a recording started at
    [startTime]. *)
Definition entry (startTime : num) (d : NoteDetail) : Js.value :=
  VObj [("noteIndex", noteIndex d); ("delay", VNum (sub (timestamp d) startTime))].

(** Notes struck one after the other with no timer firing in between. *)
Fixpoint play_all (l : list num) : M World (list bool) :=
  match l with
  | [] => ret []
  | i :: rest =>
      b <- Xylophone.playNote i ;;
      bs <- play_all rest ;;
      ret (b :: bs)
  end.

(** The record of bar [i] played [d] milliseconds after the start. *)
Definition note_record (i d : Z) : Js.value :=
  VObj [("noteIndex", VNum (int i)); ("delay", VNum (int d))].

(** A sequence as a recording made on the page leaves it: every record has
    a whole bar number and a whole number of milliseconds. *)
Definition recording (l : list (Z * Z)) : list Js.value :=
  map (fun id => note_record (fst id) (snd id)) l.

(** The text of such a record in an exported sequence, followed by [rest]. *)
Definition record_text (i d : Z) (rest : string) : string :=
  String "{" (String JSON.nl
    ("    " ++ JSON.quote "noteIndex" ++ ": " ++ JSON.show_Z i
       ++ String "," (String JSON.nl
    ("    " ++ JSON.quote "delay" ++ ": " ++ JSON.show_Z d
       ++ String JSON.nl ("  }" ++ rest))))).

(** The texts of the records of a sequence, separated as in an export. *)
Fixpoint records_text (l : list (Z * Z)) (rest : string) : string :=
  match l with
  | [] => rest
  | [(i, d)] => record_text i d rest
  | (i, d) :: more =>
      record_text i d (String "," (String JSON.nl ("  " ++ records_text more rest)))
  end.

(** The text of an exported sequence. *)
Definition sequence_text (l : list (Z * Z)) : string :=
  match l with
  | [] => "[]"
  | _ => String "[" (String JSON.nl ("  " ++ records_text l (String JSON.nl "]")))
  end.

(** The element of an imported array has a [noteIndex] and a [delay] that
    are both numbers. *)
Definition well_formed (note : Js.value) : bool :=
  match get_prop note "noteIndex", get_prop note "delay" with
  | Ok a, Ok b =>
      String.eqb (typeof a) "number" && String.eqb (typeof b) "number"
  | _, _ => false
  end.

(** The values [Date.now()] returns from now on, in order; the last one is
    returned again and again. *)
Definition upcoming (w : World) : list num :=
  match ticks w with
  | [] => [now w]
  | l => l
  end.




(** A step that leaves the recorder, the trigger record, the wall clock and
    the microtasks as they were. *)
Definition only_sound (w w' : World) : Prop :=
  ctrl w' = ctrl w /\ triggered w' = triggered w /\
  now w' = now w /\ ticks w' = ticks w /\ jobs w' = jobs w.

(** The character after a number literal is none that could continue it. *)
Definition literal_end (rest : string) : bool :=
  match rest with
  | EmptyString => true
  | String c _ =>
      match JSON.digit c with
      | Some _ => false
      | None => negb (Ascii.eqb c "." || Ascii.eqb c "e" || Ascii.eqb c "E")
      end
  end.

(** The text a status element shows, if the page has one. *)
Definition status_text (old : option string) (message : string) : option string :=
  match old with
  | Some _ => Some message
  | None => None
  end.

(** A voice whose oscillator has been started and told when to stop. *)
Definition voice_scheduled (v : AudioEngineS.Voice) : bool :=
  match AudioEngineS.started (AudioEngineS.oscillator v),
        AudioEngineS.stopped (AudioEngineS.oscillator v) with
  | Some _, Some _ => true
  | _, _ => false
  end.

(** The audio engine holds together: initialized, it has its context and
    its master gain; not initialized, it tracks no oscillator; the tracked
    oscillators are distinct voices of the context, and every voice of the
    context has been started and told when to stop. *)
Definition engine_ok (a : AudioEngineS.t) : Prop :=
  match AudioEngineS.isInitialized a return Prop with
  | true =>
      exists (ctx : AudioEngineS.AudioContext) (g : AudioEngineS.GainNode),
        AudioEngineS.audioContext a = Some ctx /\ AudioEngineS.masterGain a = Some g
  | false => AudioEngineS.activeOscillators a = []
  end /\
  NoDup (AudioEngineS.activeOscillators a) /\
  (forall ctx : AudioEngineS.AudioContext,
      AudioEngineS.audioContext a = Some ctx ->
      Forall (fun id => (id < List.length (AudioEngineS.voices ctx))%nat)
             (AudioEngineS.activeOscillators a) /\
      forallb voice_scheduled (AudioEngineS.voices ctx) = true).

(** A time the scheduling calls of Web Audio take: finite and not
    negative. *)
Definition valid_time (t : num) : bool :=
  match t with
  | Fin q => Qle_bool 0 q
  | _ => false
  end.

(** A number a [float] attribute or argument takes. *)
Definition is_float (x : num) : bool :=
  match AudioEngine.as_float x with
  | Ok _ => true
  | Throw _ => false
  end.

(** The float a [float] attribute holds after [x] has been assigned to it,
    where the assignment returns. *)
Definition stored (x : num) : num :=
  match AudioEngine.as_float x with
  | Ok y => y
  | Throw _ => x
  end.

(** The arguments of [playNote] on which no call it makes on the audio
    nodes throws, at the audio time [now] and with the envelope [env]. *)
Definition accepted (env : AudioEngineS.Envelope) (now frequency duration : num) : bool :=
  is_float frequency
  && is_float (AudioEngineS.sustain env)
  && valid_time now
  && valid_time (add now (AudioEngineS.attack env))
  && valid_time (add (add now (AudioEngineS.attack env)) (AudioEngineS.decay env))
  && valid_time (add now duration)
  && valid_time (add (add now duration) (AudioEngineS.release env)).

(** The settings of the engine are those of its constructor, and the clock
    of its context reads a time. *)
Definition engine_set (a : AudioEngineS.t) : Prop :=
  AudioEngineS.envelope a = AudioEngineS.envelope AudioEngine.constructor /\
  AudioEngineS.defaultVolume a = AudioEngineS.defaultVolume AudioEngine.constructor /\
  match AudioEngineS.audioContext a with
  | Some ctx => valid_time (AudioEngineS.currentTime ctx) = true
  | None => True
  end.

(** A whole number from 0 up to [n], [n] excluded. *)
Definition valid_index (n : nat) (i : num) : bool :=
  is_integer i && ge i (int 0) && lt i (int (Z.of_nat n)).

(** The position a whole number from 0 indexes. *)
Definition position (i : num) : nat :=
  match i with
  | Fin q => Z.to_nat (Qnum (Qred q))
  | _ => O
  end.

(** Every pending timer has an identifier below the next one to be given
    out. *)
Definition fresh_ids (w : World) : bool :=
  forallb (fun t => Nat.ltb (timer_id t) (next_timer w)) (timers w).

(** No two members of the list are the same number. *)
Fixpoint distinct (l : list num) : bool :=
  match l with
  | [] => true
  | n :: rest => negb (Xylophone.has n rest) && distinct rest
  end.

(** The xylophone holds together: its notes and keys are those of the
    constructor, its note duration lies in (0, 10] and its polyphony limit in
    (0, 50], and its active notes are distinct indices of its notes. *)
Definition registry_ok (x : XylophoneS.t) : Prop :=
  XylophoneS.notes x = XylophoneS.notes Xylophone.constructor /\
  XylophoneS.keyMap x = XylophoneS.keyMap Xylophone.constructor /\
  gt (XylophoneS.noteDuration x) (int 0) && le (XylophoneS.noteDuration x) (int 10) = true /\
  gt (XylophoneS.maxPolyphony x) (int 0) && le (XylophoneS.maxPolyphony x) (int 50) = true /\
  distinct (XylophoneS.activeNotes x) = true /\
  forallb (valid_index 11) (XylophoneS.activeNotes x) = true.

(** [map.has(n)] on the map of the pending removals. *)
Definition has_key (n : num) (m : list (num * nat)) : bool :=
  existsb (fun kt => same n (fst kt)) m.

(** The visual feedback holds together on a page of [bars] bars: the map of
    pending removals has distinct keys, all of them indices of bars, a bar
    carries the animation class exactly when the map has its index, the
    active duration lies in (0, 2000], and the module is initialized if the
    page has a bar. *)
Definition visual_ok (bars : nat) (v : VisualFeedbackS.t) : Prop :=
  List.length (VisualFeedbackS.barElements v) = bars /\
  distinct (map fst (VisualFeedbackS.activeTimeouts v)) = true /\
  forallb (valid_index bars) (map fst (VisualFeedbackS.activeTimeouts v)) = true /\
  (forall i : nat,
      (i < bars)%nat ->
      nth i (VisualFeedbackS.barElements v) false
      = has_key (int (Z.of_nat i)) (VisualFeedbackS.activeTimeouts v)) /\
  gt (VisualFeedbackS.activeDuration v) (int 0)
  && le (VisualFeedbackS.activeDuration v) (int 2000) = true /\
  Nat.eqb bars 0 || VisualFeedbackS.isInitialized v = true.

(** A pending timer that removes the animation class does so on a bar of
    the page. *)
Definition timer_ok (bars : nat) (t : timer) : Prop :=
  match timer_callback t with
  | RemoveActiveClass n => valid_index bars n = true
  | _ => True
  end.

(** The three modules and the pending timers hold together. *)
Definition sane (bars : nat) (w : World) : Prop :=
  engine_ok (audio w) /\ registry_ok (xylo w) /\ visual_ok bars (visual w) /\
  Forall (timer_ok bars) (timers w).

(** The number of bars that carry the animation class. *)
Definition lit (bars : list bool) : nat := List.length (filter (fun b => b) bars).

(** A computation keeps a property of the page: if the page has it before
    the run it has it after, whether the run returns or throws. *)
Definition preserves {A} (P : World -> Prop) (m : M World A) : Prop :=
  forall w : World, P w -> P (snd (m w)).

(** A pending timer on which a playback waits holds a note whose two fields
    are numbers. *)
Definition resume_ok (t : timer) : Prop :=
  match timer_callback t with
  | ResumePlayback _ _ note => well_formed note = true
  | _ => True
  end.

(** The recorder holds together: its maximum length is in (0, 500], and
    every note it has stored, or waits to play, has a [noteIndex] and a
    [delay] that are numbers. *)
Definition recorder_ok (w : World) : Prop :=
  gt (maxRecordingLength (ctrl w)) (int 0)
  && le (maxRecordingLength (ctrl w)) (int 500) = true /\
  forallb well_formed (recordedSequence (ctrl w)) = true /\
  Forall resume_ok (timers w).

(** The listeners of [notePlayed] registered on the document: one for each
    [initialize()] of the controls that succeeded. *)
Definition note_listeners (c : ControlsS.t) : nat :=
  List.length (filter (fun l => match l with NotePlayed => true | _ => false end)
                      (listeners c)).

(** The recorder can take [k] more notes before it reaches its maximum. *)
Definition room (k : nat) (c : ControlsS.t) : bool :=
  match k with
  | O => true
  | S k' =>
      negb (ge (int (Z.of_nat (List.length (recordedSequence c) + k')))
               (maxRecordingLength c))
  end.

End Spec.

(* ===================================================================== *)
(** * The calls a page makes on the modules *)
(* ===================================================================== *)

Module Api.

(** A call from outside the modules: by the application, by a listener the
    browser runs, or by the browser when a timer fires or an oscillator
    ends; and the wall clock moving on, which gives the values the next
    calls of [Date.now()] return. *)
Inductive call : Type :=
| AudioInitialize (p : AudioEngine.Page)
| AudioPlayNote (frequency : num) (duration : option num)
| AudioSetVolume (volume : num)
| AudioStopAllNotes
| AudioResume (fulfilled : bool)
| AudioDispose
| OscillatorEnded (id : nat)
| PlayNote (noteIndex : num)
| StopAllNotes
| SetNoteDuration (duration : num)
| SetMaxPolyphony (maxNotes : num)
| ActivateBar (noteIndex : num)
| DeactivateBar (noteIndex : num)
| DeactivateAllBars
| SetActiveDuration (duration : num)
| BarActivated (noteIndex : Js.value)
| TriggerBar (noteIndex : Js.value)
| ControlsInitialize (p : Controls.Page)
| RecordClicked
| PlayClicked (fuel : nat)
| ClearClicked
| StartRecording
| StopRecording
| PlayRecording (fuel : nat)
| StopPlayback
| ClearRecording
| ImportSequence (text : string)
| SetMaxRecordingLength (maxLength : num)
| TimerFired (fuel : nat) (id : nat)
| ClockReads (readings : list Z).

Definition drop {A} (m : M World A) : M World unit := m ;; ret tt.

Definition body (c : call) : M World unit :=
  match c with
  | AudioInitialize p => drop (AudioEngine.initialize p)
  | AudioPlayNote frequency duration => drop (AudioEngine.playNote frequency duration)
  | AudioSetVolume volume => AudioEngine.setVolume volume
  | AudioStopAllNotes => AudioEngine.stopAllNotes
  | AudioResume fulfilled => drop (AudioEngine.resume fulfilled)
  | AudioDispose => AudioEngine.dispose
  | OscillatorEnded id => AudioEngine.onended id
  | PlayNote noteIndex => drop (Xylophone.playNote noteIndex)
  | StopAllNotes => Xylophone.stopAllNotes
  | SetNoteDuration duration => Xylophone.setNoteDuration duration
  | SetMaxPolyphony maxNotes => Xylophone.setMaxPolyphony maxNotes
  | ActivateBar noteIndex => drop (VisualFeedback.activateBar noteIndex)
  | DeactivateBar noteIndex => drop (VisualFeedback.deactivateBar noteIndex)
  | DeactivateAllBars => VisualFeedback.deactivateAllBars
  | SetActiveDuration duration => VisualFeedback.setActiveDuration duration
  | BarActivated noteIndex => InputHandler.handleBarActivation Controls.dispatchEvent noteIndex
  | TriggerBar noteIndex => Controls.triggerBar noteIndex
  | ControlsInitialize p => drop (Controls.initialize p)
  | RecordClicked => Controls.recordHandler
  | PlayClicked fuel => Controls.playHandler fuel
  | ClearClicked => Controls.clearHandler
  | StartRecording => Controls.startRecording
  | StopRecording => Controls.stopRecording
  | PlayRecording fuel => drop (Controls.playRecording fuel)
  | StopPlayback => Controls.stopPlayback
  | ClearRecording => Controls.clearRecording
  | ImportSequence text => drop (Controls.importSequence text)
  | SetMaxRecordingLength maxLength => Controls.setMaxRecordingLength maxLength
  | TimerFired fuel id => drop (Controls.fire_timer fuel id)
  | ClockReads readings => modify (Page.at_times readings)
  end.

(** One call, run as the browser runs a task: an exception that leaves it is
    reported, and the microtasks it queued run after it. *)
Definition perform (c : call) : M World unit :=
  Controls.reported (body c) ;;
  Controls.run_microtasks.

(** Calls made one after the other. *)
Definition run (calls : list call) : M World unit :=
  Controls.for_each perform calls.

(** The calls by which the application makes a loaded page ready: the
    controls are bound, the audio engine is initialized. *)
Definition start : list call :=
  [ControlsInitialize Page.controls_page; AudioInitialize Page.audio_page].

End Api.

(* ===================================================================== *)
(** * Properties *)
(* ===================================================================== *)

(** ** Sequencing *)

Lemma bind_ok (S A B : Type) (m : M S A) (f : A -> M S B) (s s' : S) (a : A) :
  m s = (Ok a, s') -> bind m f s = f a s'.
Proof. intro H. unfold bind. rewrite H. reflexivity. Qed.
Arguments bind_ok {S A B m} f {s s' a} _.

Lemma bind_throw (S A B : Type) (m : M S A) (f : A -> M S B) (s s' : S) (e : exn) :
  m s = (Throw e, s') -> bind m f s = (Throw e, s').
Proof. intro H. unfold bind. rewrite H. reflexivity. Qed.
Arguments bind_throw {S A B m} f {s s' e} _.

(** ** Numbers *)

Section Numbers.

Lemma Qred_int (z : Z) : Qred (z # 1) = z # 1.
Proof.
  unfold Qred.
  pose proof (Z.ggcd_gcd z 1) as Hg.
  pose proof (Z.ggcd_correct_divisors z 1) as Hd.
  destruct (Z.ggcd z 1) as [g [a b]]. simpl in *.
  rewrite Z.gcd_1_r in Hg. subst g.
  destruct Hd as [Ha Hb].
  rewrite Z.mul_1_l in Ha, Hb. subst a b. reflexivity.
Qed.

Lemma Qltb_true (x y : Q) : Qltb x y = true <-> (x < y)%Q.
Proof.
  unfold Qltb. rewrite negb_true_iff.
  split; intro H.
  - apply Qnot_le_lt. intro Hle. apply Qle_bool_iff in Hle. congruence.
  - destruct (Qle_bool y x) eqn:E; [|reflexivity].
    apply Qle_bool_iff in E. exfalso. exact (Qlt_not_le _ _ H E).
Qed.

Lemma Qltb_false (x y : Q) : Qltb x y = false <-> (y <= x)%Q.
Proof.
  unfold Qltb. rewrite negb_false_iff. apply Qle_bool_iff.
Qed.

Lemma same_refl (n : num) : same n n = true.
Proof.
  destruct n; simpl; try reflexivity.
  apply Qeq_bool_iff. reflexivity.
Qed.

Lemma same_sym (a b : num) : same a b = same b a.
Proof.
  destruct a, b; simpl; try reflexivity.
  destruct (Qeq_bool q q0) eqn:E1, (Qeq_bool q0 q) eqn:E2; try reflexivity.
  - apply Qeq_bool_iff in E1. symmetry in E1. apply Qeq_bool_iff in E1. congruence.
  - apply Qeq_bool_iff in E2. symmetry in E2. apply Qeq_bool_iff in E2. congruence.
Qed.

Lemma same_trans (a b c : num) :
  same a b = true -> same b c = true -> same a c = true.
Proof.
  destruct a, b, c; simpl; try congruence.
  rewrite !Qeq_bool_iff. intros H1 H2. rewrite H1. exact H2.
Qed.

End Numbers.

(** ** The tone scheduler *)

Section ToneScheduler.
Import AudioEngineS.

(** ** What Web Audio accepts *)

Lemma as_time_valid (t : num) :
  Spec.valid_time t = true -> AudioEngine.as_time t = Ok tt.
Proof.
  unfold Spec.valid_time, AudioEngine.as_time.
  destruct t as [| | |q]; try discriminate. intro H. rewrite H. reflexivity.
Qed.

Lemma as_time_invalid (t : num) :
  Spec.valid_time t = false -> exists e : exn, AudioEngine.as_time t = Throw e.
Proof.
  unfold Spec.valid_time, AudioEngine.as_time.
  destruct t as [| | |q]; try (intros _; eexists; reflexivity).
  intro H. rewrite H. eexists. reflexivity.
Qed.

Lemma as_float_valid (x : num) :
  Spec.is_float x = true -> exists y : num, AudioEngine.as_float x = Ok y.
Proof.
  unfold Spec.is_float. destruct (AudioEngine.as_float x) as [y|e]; [|discriminate].
  intros _. exists y. reflexivity.
Qed.

Lemma as_float_invalid (x : num) :
  Spec.is_float x = false ->
  exists message : string, AudioEngine.as_float x = Throw (TypeError message).
Proof.
  unfold Spec.is_float, AudioEngine.as_float.
  destruct x as [| | |q]; try (intros _; eexists; reflexivity).
  destruct (to_float32 q); [discriminate|]. intros _. eexists. reflexivity.
Qed.

Lemma schedule_valid (value time : num) (w : World) :
  Spec.is_float value = true -> Spec.valid_time time = true ->
  AudioEngine.schedule value time w = (Ok tt, w).
Proof.
  intros Hv Ht. unfold AudioEngine.schedule, bind, lift_result.
  destruct (@as_float_valid value Hv) as [y Hy]. rewrite Hy, (@as_time_valid time Ht).
  reflexivity.
Qed.

Lemma schedule_invalid (value time : num) (w : World) :
  Spec.is_float value && Spec.valid_time time = false ->
  exists e : exn, AudioEngine.schedule value time w = (Throw e, w).
Proof.
  intro H. unfold AudioEngine.schedule, bind, lift_result.
  destruct (Spec.is_float value) eqn:Hv.
  - destruct (@as_float_valid value Hv) as [y Hy]. rewrite Hy.
    destruct (@as_time_invalid time H) as [e He]. rewrite He. eexists. reflexivity.
  - destruct (@as_float_invalid value Hv) as [m Hm]. rewrite Hm. eexists. reflexivity.
Qed.

Lemma zero_is_float : AudioEngine.as_float (int 0) = Ok (int 0).
Proof. reflexivity. Qed.

Lemma one_is_float : AudioEngine.as_float (int 1) = Ok (int 1).
Proof. vm_compute. reflexivity. Qed.

(** What [playNote] comes to on an engine that is initialized and has its
    context and its master gain: on arguments Web Audio accepts, the voice
    it builds; on others, [false] and a line on the console. *)
Lemma playNote_outcome (w : World) (ctx : AudioContext) (g : GainNode)
      (frequency : num) (duration : option num) :
  isInitialized (audio w) = true ->
  audioContext (audio w) = Some ctx ->
  masterGain (audio w) = Some g ->
  let d := match duration with Some d => d | None => int 2 end in
  let now := currentTime ctx in
  let env := envelope (audio w) in
  let stop := add (add now d) (release env) in
  AudioEngine.playNote frequency duration w
  = if Spec.accepted env now frequency d then
      (Ok true,
       set_audio
         (set_activeOscillators
            (if existsb (Nat.eqb (List.length (voices ctx))) (activeOscillators (audio w))
             then activeOscillators (audio w)
             else activeOscillators (audio w) ++ [List.length (voices ctx)])
            (set_audioContext
               (Some (mkCtx now (state ctx)
                        (voices ctx ++
                           [mkVoice
                              (mkOsc (oscillatorType (audio w)) (Spec.stored frequency) true
                                     (Some now) (Some stop))
                              (mkGain
                                 (mkParam (int 0) (AudioEngine.envelope_calls env now d))
                                 ToMasterGain)])))
               (audio w)))
         w)
    else
      (Ok false, set_console (mkEntry Err "Error playing note:" [] :: console_out w) w).
Proof.
  intros Hinit Hctx Hgain d now env stop.
  unfold AudioEngine.playNote, AudioEngine.this.
  unfold bind at 1. unfold gets at 1. cbn beta.
  rewrite Hinit, Hctx. fold d. cbv zeta. fold now env.
  unfold Spec.accepted.
  unfold try_catch.
  destruct (Spec.is_float frequency) eqn:Hf; cbn [andb].
  2:{ destruct (@as_float_invalid frequency Hf) as [m Hm].
      unfold bind at 1. unfold lift_result at 1. rewrite Hm. reflexivity. }
  destruct (@as_float_valid frequency Hf) as [y Hy].
  assert (Ey : Spec.stored frequency = y) by (unfold Spec.stored; rewrite Hy; reflexivity).
  rewrite Ey.
  unfold bind at 1. unfold lift_result at 1. rewrite Hy.
  unfold bind at 1. unfold lift_result at 1. rewrite zero_is_float.
  rewrite Hgain. unfold bind at 1. unfold ret at 1.
  destruct (Spec.is_float (sustain env)) eqn:Hs; cbn [andb].
  2:{ destruct (Spec.valid_time now) eqn:H0.
      - rewrite (bind_ok _ (@schedule_valid (int 0) now w eq_refl H0)).
        destruct (Spec.valid_time (add now (attack env))) eqn:H1.
        + rewrite (bind_ok _ (@schedule_valid (int 1) _ w eq_refl H1)).
          destruct (@schedule_invalid (sustain env)
                      (add (add now (attack env)) (decay env)) w) as [e He].
          { rewrite Hs. reflexivity. }
          rewrite (bind_throw _ He). reflexivity.
        + destruct (@schedule_invalid (int 1) (add now (attack env)) w) as [e He].
          { rewrite H1. apply andb_false_r. }
          rewrite (bind_throw _ He). reflexivity.
      - destruct (@schedule_invalid (int 0) now w) as [e He].
        { rewrite H0. apply andb_false_r. }
        rewrite (bind_throw _ He). reflexivity. }
  destruct (Spec.valid_time now) eqn:H0; cbn [andb].
  2:{ destruct (@schedule_invalid (int 0) now w) as [e He].
      { rewrite H0. apply andb_false_r. }
      rewrite (bind_throw _ He). reflexivity. }
  rewrite (bind_ok _ (@schedule_valid (int 0) now w eq_refl H0)).
  destruct (Spec.valid_time (add now (attack env))) eqn:H1; cbn [andb].
  2:{ destruct (@schedule_invalid (int 1) (add now (attack env)) w) as [e He].
      { rewrite H1. apply andb_false_r. }
      rewrite (bind_throw _ He). reflexivity. }
  rewrite (bind_ok _ (@schedule_valid (int 1) _ w eq_refl H1)).
  destruct (Spec.valid_time (add (add now (attack env)) (decay env))) eqn:H2; cbn [andb].
  2:{ destruct (@schedule_invalid (sustain env)
                  (add (add now (attack env)) (decay env)) w) as [e He].
      { rewrite H2. apply andb_false_r. }
      rewrite (bind_throw _ He). reflexivity. }
  rewrite (bind_ok _ (@schedule_valid (sustain env) _ w Hs H2)).
  destruct (Spec.valid_time (add now d)) eqn:H3; cbn [andb].
  2:{ destruct (@schedule_invalid (sustain env) (add now d) w) as [e He].
      { rewrite H3. apply andb_false_r. }
      rewrite (bind_throw _ He). reflexivity. }
  rewrite (bind_ok _ (@schedule_valid (sustain env) _ w Hs H3)).
  destruct (Spec.valid_time (add (add now d) (release env))) eqn:H4; cbn [andb].
  2:{ destruct (@schedule_invalid (int 0) (add (add now d) (release env)) w) as [e He].
      { rewrite H4. apply andb_false_r. }
      rewrite (bind_throw _ He). reflexivity. }
  rewrite (bind_ok _ (@schedule_valid (int 0) _ w eq_refl H4)).
  unfold bind at 1. unfold lift_result at 1. rewrite (@as_time_valid now H0).
  unfold bind at 1. unfold lift_result at 1.
  rewrite (@as_time_valid (add (add now d) (release env)) H4).
  unfold AudioEngine.update, bind, modify, ret. cbn.
  reflexivity.
Qed.

(** C7, as stated, fails: a trigger whose frequency is not a number, or whose
    duration puts the release before time 0, schedules nothing.  On a ready
    page [playNote(NaN, 2)] and [playNote(440, -5)] return [false] and leave
    the context without a voice. *)
Lemma C7_rejected_trigger_counterexample :
  Page.outcome (AudioEngine.playNote NaN (Some (int 2))) (Page.ready 0) = Ok false /\
  audioContext (audio (Page.after (AudioEngine.playNote NaN (Some (int 2))) (Page.ready 0)))
  = Some (mkCtx (int 0) running []) /\
  Page.outcome (AudioEngine.playNote (int 440) (Some (int (-5)))) (Page.ready 0) = Ok false /\
  audioContext (audio (Page.after (AudioEngine.playNote (int 440) (Some (int (-5))))
                                  (Page.ready 0)))
  = Some (mkCtx (int 0) running []).
Proof. vm_compute. repeat split. Qed.

(** C7, amended: on an initialized engine that has its context and its
    master gain, when Web Audio accepts the arguments (the frequency and
    the sustain level are floats, and the five times are finite and not
    negative), [playNote(frequency, d)] at audio-clock time [now] returns
    [true] and builds one new voice, whose oscillator holds the frequency
    as the float it is stored as and whose gain is scheduled with exactly
    the calls: value 0 set at [now], linear ramp to 1 ending at
    [now + attack], linear ramp to [sustain] ending at
    [(now + attack) + decay], value [sustain] set at [now + d], linear ramp
    to 0 ending at [(now + d) + release]; its oscillator starts at [now]
    and stops at [(now + d) + release].  With the envelope of the
    constructor and [d = 2], [d + release] is 3.2.  On other arguments
    [playNote] returns [false], and the context and the tracked oscillators
    are as they were. *)
Theorem C7_envelope_breakpoints :
  forall (w : World) (ctx : AudioContext) (g : GainNode) (frequency d : num),
    isInitialized (audio w) = true ->
    audioContext (audio w) = Some ctx ->
    masterGain (audio w) = Some g ->
    let now := currentTime ctx in
    let env := envelope (audio w) in
    let stop := add (add now d) (release env) in
    exists w' : World,
      AudioEngine.playNote frequency (Some d) w
      = (Ok (Spec.accepted env now frequency d), w') /\
      (Spec.accepted env now frequency d = true ->
       audioContext (audio w') =
         Some (mkCtx now (state ctx)
                 (voices ctx ++
                    [mkVoice
                       (mkOsc (oscillatorType (audio w)) (Spec.stored frequency) true
                              (Some now) (Some stop))
                       (mkGain
                          (mkParam (int 0)
                             [ setValueAtTime (int 0) now;
                               linearRampToValueAtTime (int 1) (add now (attack env));
                               linearRampToValueAtTime (sustain env)
                                 (add (add now (attack env)) (decay env));
                               setValueAtTime (sustain env) (add now d);
                               linearRampToValueAtTime (int 0) stop ])
                          ToMasterGain)]))) /\
      (Spec.accepted env now frequency d = false ->
       audioContext (audio w') = audioContext (audio w) /\
       activeOscillators (audio w') = activeOscillators (audio w)) /\
      (env = envelope AudioEngine.constructor -> d = int 2 ->
       add d (release env) = Fin (16 # 5)).
Proof.
  intros w ctx g frequency d Hinit Hctx Hgain now env stop.
  pose proof (@playNote_outcome w ctx g frequency (Some d) Hinit Hctx Hgain) as H.
  cbv zeta in H. fold now env stop in H.
  destruct (Spec.accepted env now frequency d) eqn:Hacc.
  - eexists. split; [exact H|]. split; [|split].
    + intros _. reflexivity.
    + discriminate.
    + intros Henv Hd. rewrite Henv, Hd. reflexivity.
  - eexists. split; [exact H|]. split; [|split].
    + discriminate.
    + intros _. split; reflexivity.
    + intros Henv Hd. rewrite Henv, Hd. reflexivity.
Qed.

(** C7 amended, at the first note of a ready page: middle C for two
    seconds. *)
Lemma C7_envelope_breakpoints_witness :
  exists w' : World,
    AudioEngine.playNote (Xylophone.hz 26163) (Some (int 2)) (Page.ready 0)
    = (Ok true, w').
Proof.
  destruct (@C7_envelope_breakpoints (Page.ready 0)
              (mkCtx (int 0) running [])
              (mkGain (mkParam (Fin (11744051 # 16777216)) []) ToDestination)
              (Xylophone.hz 26163) (int 2))
    as [w' [H _]].
  - vm_compute. reflexivity.
  - vm_compute. reflexivity.
  - vm_compute. reflexivity.
  - exists w'. rewrite H. vm_compute. reflexivity.
Defined.

(** ** The master volume *)









End ToneScheduler.

(** ** JSON text of integers *)

Section JsonNumbers.
Import JSON.
Local Open Scope string_scope.

Lemma append_assoc (a b c : string) : ((a ++ b) ++ c = a ++ (b ++ c))%string.
Proof. induction a as [|x a IH]; cbn; [reflexivity|]. rewrite IH. reflexivity. Qed.

Lemma length_append (a b : string) :
  String.length (a ++ b) = (String.length a + String.length b)%nat.
Proof. induction a as [|x a IH]; cbn; [reflexivity|]. rewrite IH. reflexivity. Qed.

Lemma literal_end_no_digit (rest : string) :
  Spec.literal_end rest = true ->
  read_digits rest = (Nil, rest).
Proof.
  destruct rest as [|c rest]; [reflexivity|].
  cbn. destruct (digit c); [discriminate|reflexivity].
Qed.

(** The digits just written are the digits read back. *)
Lemma read_digits_written (d : uint) (rest : string) :
  Spec.literal_end rest = true ->
  read_digits (NilEmpty.string_of_uint d ++ rest) = (d, rest).
Proof.
  intro Hend.
  induction d as [|d IH|d IH|d IH|d IH|d IH|d IH|d IH|d IH|d IH|d IH];
    [exact (literal_end_no_digit _ Hend)|..];
    cbn [NilEmpty.string_of_uint append read_digits];
    rewrite IH; reflexivity.
Qed.

(** The decimal digits of a natural number: never empty, and with a leading
    zero only for zero itself. *)
Lemma to_uint_shape (n : N) :
  match N.to_uint n with
  | Nil => False
  | D0 d => d = Nil
  | _ => True
  end.
Proof.
  pose proof (DecimalN.Unsigned.to_of (N.to_uint n)) as H.
  rewrite DecimalN.Unsigned.of_to in H.
  destruct (N.to_uint n) as [|d|d|d|d|d|d|d|d|d|d] eqn:E; try exact I.
  - exact (unorm_nonnil _ (eq_sym H)).
  - rewrite unorm_D0 in H. unfold unorm in H.
    destruct (nzhead d) eqn:Ez.
    + injection H as <-. reflexivity.
    + exfalso. symmetry in H. rewrite <- Ez in H. exact (nzhead_nonzero _ _ H).
    + discriminate.
    + discriminate.
    + discriminate.
    + discriminate.
    + discriminate.
    + discriminate.
    + discriminate.
    + discriminate.
    + discriminate.
Qed.

Lemma number_value_integer (negative : bool) (u : uint) :
  number_value negative u Nil 0
  = int (if negative then - Z.of_N (N.of_uint u) else Z.of_N (N.of_uint u)).
Proof.
  unfold number_value, int. cbn [nb_digits Z.of_nat Z.sub Z.opp Z.leb Z.compare].
  f_equal.
  replace (Z.of_N (N.of_uint u) * 10 ^ 0 + Z.of_N (N.of_uint Nil))%Z
    with (Z.of_N (N.of_uint u)) by (cbn; lia).
  rewrite Z.pow_0_r, Z.mul_1_r. apply Qred_int.
Qed.

(** A natural number written in decimal is read back as itself. *)
Lemma parse_unsigned (negative : bool) (n : N) (rest : string) :
  Spec.literal_end rest = true ->
  match read_digits (show_N n ++ rest) with
  | (Nil, _) => None
  | (D0 (D0 _ | D1 _ | D2 _ | D3 _ | D4 _ | D5 _ | D6 _ | D7 _ | D8 _ | D9 _), _) => None
  | (ip, s) =>
      match read_fraction s with
      | None => None
      | Some (fp, s) =>
          match read_exponent s with
          | None => None
          | Some (e, s) => Some (number_value negative ip fp e, s)
          end
      end
  end
  = Some (int (if negative then - Z.of_N n else Z.of_N n), rest).
Proof.
  intro Hend. unfold show_N.
  rewrite (read_digits_written _ _ Hend).
  pose proof (to_uint_shape n) as Hshape.
  pose proof (DecimalN.Unsigned.of_to n) as Hback.
  assert (Hfrac : read_fraction rest = Some (Nil, rest)).
  { destruct rest as [|c rest']; [reflexivity|].
    cbn in Hend |- *. destruct (digit c); [discriminate|].
    destruct (Ascii.eqb c "."); [discriminate|reflexivity]. }
  assert (Hexp : read_exponent rest = Some (0%Z, rest)).
  { destruct rest as [|c rest']; [reflexivity|].
    cbn in Hend |- *. destruct (digit c); [discriminate|].
    destruct (Ascii.eqb c "."); [discriminate|].
    destruct (Ascii.eqb c "e"); [discriminate|].
    destruct (Ascii.eqb c "E"); [discriminate|reflexivity]. }
  destruct (N.to_uint n) as [|d|d|d|d|d|d|d|d|d|d] eqn:E;
    [contradiction|subst d|..];
    rewrite Hfrac, Hexp, number_value_integer, Hback; reflexivity.
Qed.

Lemma show_N_head (n : N) (rest : string) :
  exists (c : ascii) (s : string),
    (show_N n ++ rest)%string = String c s /\
    In c ["0"; "1"; "2"; "3"; "4"; "5"; "6"; "7"; "8"; "9"]%char.
Proof.
  unfold show_N. pose proof (to_uint_shape n) as Hshape.
  destruct (N.to_uint n) as [|d|d|d|d|d|d|d|d|d|d]; [contradiction|..];
    cbn [NilEmpty.string_of_uint append]; eexists _, _; (split; [reflexivity|]);
    cbn; tauto.
Qed.

(** An integer written in decimal is read back as itself. *)
Lemma parse_number_written (z : Z) (rest : string) :
  Spec.literal_end rest = true ->
  parse_number (show_Z z ++ rest) = Some (int z, rest).
Proof.
  intro Hend. unfold show_Z, parse_number.
  destruct (Z.ltb z 0) eqn:Hneg.
  - cbn [append]. cbn [Ascii.eqb Bool.eqb andb].
    rewrite (parse_unsigned true _ _ Hend).
    apply Z.ltb_lt in Hneg. do 2 f_equal.
    rewrite N2Z.inj_abs_N. unfold int. f_equal. f_equal. lia.
  - cbn [append].
    destruct (show_N_head (Z.abs_N z) rest) as [c [s [Es Hc]]].
    rewrite Es.
    assert (Hminus : Ascii.eqb c "-" = false).
    { cbn in Hc. intuition (subst c; reflexivity). }
    rewrite Hminus, <- Es.
    rewrite (parse_unsigned false _ _ Hend).
    apply Z.ltb_ge in Hneg. do 2 f_equal.
    rewrite N2Z.inj_abs_N. unfold int. f_equal. f_equal. lia.
Qed.

Lemma show_Z_head (z : Z) (rest : string) :
  exists (c : ascii) (s : string),
    (show_Z z ++ rest)%string = String c s /\
    In c ["-"; "0"; "1"; "2"; "3"; "4"; "5"; "6"; "7"; "8"; "9"]%char.
Proof.
  unfold show_Z. destruct (Z.ltb z 0).
  - cbn [append]. eexists _, _. split; [reflexivity|]. cbn. tauto.
  - cbn [append]. destruct (show_N_head (Z.abs_N z) rest) as [c [s [Es Hc]]].
    exists c, s. split; [exact Es|]. right. exact Hc.
Qed.

(** At a digit or a minus sign [parse_value] reads a number. *)
Lemma parse_value_at_number (fuel : nat) (c : ascii) (s : string) :
  In c ["-"; "0"; "1"; "2"; "3"; "4"; "5"; "6"; "7"; "8"; "9"]%char ->
  parse_value (S fuel) (String c s)
  = match parse_number (String c s) with
    | Some (n, r) => Some (VNum n, r)
    | None => None
    end.
Proof.
  intro Hc. cbn in Hc.
  repeat (destruct Hc as [<- | Hc]; [reflexivity|]).
  contradiction.
Qed.

(** [parse_value] reads an integer written in decimal. *)
Lemma parse_value_written (fuel : nat) (z : Z) (rest : string) :
  Spec.literal_end rest = true ->
  parse_value (S fuel) (show_Z z ++ rest) = Some (VNum (int z), rest).
Proof.
  intro Hend.
  pose proof (parse_number_written z rest Hend) as Hnum.
  destruct (show_Z_head z rest) as [c [s [Es Hc]]].
  rewrite Es in Hnum |- *.
  rewrite (parse_value_at_number fuel s Hc), Hnum. reflexivity.
Qed.

Lemma show_num_int (z : Z) : show_num (int z) = show_Z z.
Proof.
  unfold show_num, int, show_Q. rewrite Qred_int. reflexivity.
Qed.

(** The text [JSON.stringify] gives for one record, as an element of an
    array. *)
Lemma serialize_record (i d : Z) (rest : string) :
  (match serialize "  " (Spec.note_record i d) with
   | Some t => t
   | None => "null"
   end ++ rest)%string
  = Spec.record_text i d rest.
Proof.
  unfold Spec.note_record, Spec.record_text.
  cbn [serialize flat_map snd fst List.app join].
  rewrite !show_num_int.
  cbn [append].
  repeat (rewrite !append_assoc; cbn [append]).
  reflexivity.
Qed.

Lemma join_records (l : list (Z * Z)) (rest : string) :
  l <> [] ->
  (join (String "," (String nl "  "))
        (map (fun x => match serialize "  " x with
                       | Some t => t
                       | None => "null"
                       end) (Spec.recording l)) ++ rest)%string
  = Spec.records_text l rest.
Proof.
  induction l as [|[i d] l IH]; intro Hne; [contradiction|].
  destruct l as [|[i' d'] l'].
  - cbn [Spec.recording map join Spec.records_text fst snd].
    apply serialize_record.
  - assert (Hj : forall (sep a : string) (l0 : list string),
               l0 <> [] -> join sep (a :: l0) = (a ++ sep ++ join sep l0)%string).
    { intros sep a [|b l0] H; [contradiction|reflexivity]. }
    change (Spec.recording ((i, d) :: (i', d') :: l'))
      with (Spec.note_record i d :: Spec.recording ((i', d') :: l')).
    cbn [map]. rewrite Hj by (cbn; discriminate).
    change (Spec.records_text ((i, d) :: (i', d') :: l') rest)
      with (Spec.record_text i d
              (String "," (String nl ("  " ++ Spec.records_text ((i', d') :: l') rest)))).
    rewrite !append_assoc. rewrite IH by discriminate.
    rewrite serialize_record. reflexivity.
Qed.

(** The text [exportSequence] gives for a recording. *)
Lemma stringify_recording (l : list (Z * Z)) :
  stringify (VArr (Spec.recording l)) = Some (Spec.sequence_text l).
Proof.
  destruct l as [|[i d] l]; [reflexivity|].
  unfold stringify, Spec.sequence_text.
  change (Spec.recording ((i, d) :: l))
    with (Spec.note_record i d :: Spec.recording l).
  cbn [serialize]. f_equal.
  change (Spec.note_record i d :: Spec.recording l)
    with (Spec.recording ((i, d) :: l)).
  cbn [append]. do 4 f_equal.
  apply join_records. discriminate.
Qed.

(** White space before a value is skipped. *)
Lemma parse_value_ws (fuel : nat) (c : ascii) (s : string) :
  is_ws c = true ->
  parse_value fuel (String c s) = parse_value fuel s.
Proof.
  intro Hc. destruct fuel as [|fuel]; [reflexivity|].
  cbn [parse_value skip_ws]. rewrite Hc. reflexivity.
Qed.

(** The text of a record is read back as the record. *)
Lemma parse_record (fuel : nat) (i d : Z) (rest : string) :
  parse_value (S (S (S (S fuel)))) (Spec.record_text i d rest)
  = Some (Spec.note_record i d, rest).
Proof.
  unfold Spec.record_text.
  remember (S (S (S fuel))) as f1 eqn:E1.
  cbn [parse_value]. cbn.
  subst f1. remember (S (S fuel)) as f2 eqn:E2.
  cbn [parse_members]. cbn.
  rewrite parse_value_ws by reflexivity.
  subst f2.
  rewrite (@parse_value_written (S fuel) i) by reflexivity.
  remember (S fuel) as f3 eqn:E3.
  cbn.
  rewrite parse_value_ws by reflexivity.
  subst f3.
  rewrite (@parse_value_written fuel d) by reflexivity.
  cbn. reflexivity.
Qed.

(** The elements of an exported recording are read back in order. *)
Lemma parse_records (l : list (Z * Z)) :
  forall (fuel : nat) (rest : string),
    l <> [] ->
    parse_elements (S (S (S (S (List.length l + fuel)))))
      (String nl ("  " ++ Spec.records_text l (String nl (String "]" rest))))
    = Some (Spec.recording l, rest).
Proof.
  induction l as [|[i d] l IH]; intros fuel rest Hne; [contradiction|].
  cbn [List.length Nat.add append].
  remember (S (S (S (S (List.length l + fuel))))) as f eqn:Ef.
  cbn [parse_elements].
  rewrite !parse_value_ws by reflexivity.
  destruct l as [|[i' d'] l'].
  - cbn [Spec.records_text]. subst f.
    rewrite parse_record. reflexivity.
  - change (Spec.records_text ((i, d) :: (i', d') :: l') (String nl (String "]" rest)))
      with (Spec.record_text i d
              (String "," (String nl ("  " ++ Spec.records_text ((i', d') :: l')
                                               (String nl (String "]" rest)))))).
    rewrite Ef at 1. rewrite parse_record.
    cbn [skip_ws is_ws]. change (is_ws ",") with false. cbn iota.
    change (Ascii.eqb "," ",") with true. cbn iota.
    subst f. rewrite IH by discriminate. reflexivity.
Qed.

Lemma record_text_length (i d : Z) (rest : string) :
  (1 + String.length rest <= String.length (Spec.record_text i d rest))%nat.
Proof.
  unfold Spec.record_text.
  repeat (cbn [String.length append]; rewrite ?length_append).
  lia.
Qed.

Lemma records_text_length (l : list (Z * Z)) (rest : string) :
  (List.length l + String.length rest <= String.length (Spec.records_text l rest))%nat.
Proof.
  induction l as [|[i d] l IH]; [cbn; lia|].
  destruct l as [|[i' d'] l'].
  - cbn [Spec.records_text List.length]. pose proof (record_text_length i d rest). lia.
  - change (Spec.records_text ((i, d) :: (i', d') :: l') rest)
      with (Spec.record_text i d
              (String "," (String nl ("  " ++ Spec.records_text ((i', d') :: l') rest)))).
    pose proof (record_text_length i d
                  (String "," (String nl ("  " ++ Spec.records_text ((i', d') :: l') rest))))
      as H.
    cbn [String.length append] in H. cbn [List.length append] in IH |- *. lia.
Qed.

(** [JSON.parse] reads the text of an exported recording back as that
    recording. *)
Lemma parse_sequence_text (l : list (Z * Z)) :
  JSON.parse (Spec.sequence_text l) = Ok (VArr (Spec.recording l)).
Proof.
  destruct l as [|[i d] l]; [reflexivity|].
  unfold JSON.parse.
  set (text := Spec.sequence_text ((i, d) :: l)).
  assert (Hfuel : exists k : nat,
             (2 * String.length text + 2
              = S (S (S (S (S (List.length ((i, d) :: l) + k))))))%nat).
  { pose proof (records_text_length ((i, d) :: l) (String nl "]")) as H.
    subst text. unfold Spec.sequence_text.
    cbn [String.length append] in H |- *.
    exists (2 * String.length
                  (Spec.records_text ((i, d) :: l) (String nl "]"))
            + 5 - List.length ((i, d) :: l))%nat.
    cbn [List.length] in H |- *. lia. }
  destruct Hfuel as [k ->].
  subst text. unfold Spec.sequence_text.
  remember (S (S (S (S (List.length ((i, d) :: l) + k))))) as f eqn:Ef.
  assert (Hhead : exists s : string,
             Spec.records_text ((i, d) :: l) (String nl "]") = String "{" s).
  { destruct l as [|[i' d'] l']; cbn [Spec.records_text];
      unfold Spec.record_text; eexists; reflexivity. }
  destruct Hhead as [s Hs].
  cbn [parse_value skip_ws append].
  change (is_ws "[") with false. change (is_ws nl) with true.
  change (is_ws " ") with true. change (N_of_ascii "[") with 91%N. cbn iota.
  subst f.
  pose proof (@parse_records ((i, d) :: l) k "") as Hp.
  cbn [append] in Hp. rewrite Hp by discriminate.
  rewrite Hs. change (Ascii.eqb "{" "]") with false. cbn iota.
  reflexivity.
Qed.

End JsonNumbers.

(** ** The note registry and the active-note set *)

Section Registry.
Import XylophoneS.

(** [audioEngine.playNote] returns a boolean and touches nothing but the
    engine and the console. *)
Lemma AudioEngine_playNote_frame (frequency : num) (duration : option num) (w : World) :
  exists (b : bool) (a' : AudioEngineS.t) (co' : console),
    AudioEngine.playNote frequency duration w
    = (Ok b, set_console co' (set_audio a' w)).
Proof.
  destruct (AudioEngineS.isInitialized (audio w)) eqn:Hinit.
  2:{ exists false, (audio w),
        (mkEntry Warn "Audio engine not initialized" [] :: console_out w).
      unfold AudioEngine.playNote, AudioEngine.this, bind, gets.
      rewrite Hinit. destruct w; reflexivity. }
  destruct (AudioEngineS.audioContext (audio w)) as [ctx|] eqn:Hctx.
  2:{ exists false, (audio w),
        (mkEntry Warn "Audio engine not initialized" [] :: console_out w).
      unfold AudioEngine.playNote, AudioEngine.this, bind, gets.
      rewrite Hinit, Hctx. destruct w; reflexivity. }
  destruct (AudioEngineS.masterGain (audio w)) as [g|] eqn:Hgain.
  - rewrite (@playNote_outcome w ctx g frequency duration Hinit Hctx Hgain).
    cbv zeta.
    destruct (Spec.accepted _ _ _ _).
    + match goal with
      | |- context [(Ok true, set_audio ?a w)] => exists true, a, (console_out w)
      end.
      destruct w; reflexivity.
    + exists false, (audio w), (mkEntry Err "Error playing note:" [] :: console_out w).
      destruct w; reflexivity.
  - exists false, (audio w), (mkEntry Err "Error playing note:" [] :: console_out w).
    unfold AudioEngine.playNote, AudioEngine.this, try_catch.
    unfold bind at 1. unfold gets at 1. cbn beta.
    rewrite Hinit, Hctx. cbv zeta.
    unfold bind at 1. unfold lift_result at 1.
    destruct (AudioEngine.as_float frequency) as [y|e]; [|destruct w; reflexivity].
    unfold bind at 1. unfold lift_result at 1. rewrite zero_is_float.
    rewrite Hgain. destruct w; reflexivity.
Qed.

Lemma has_set_add (i : num) (s : list num) : Xylophone.has i (Xylophone.set_add i s) = true.
Proof.
  unfold Xylophone.set_add.
  destruct (Xylophone.has i s) eqn:E; [exact E|].
  unfold Xylophone.has. rewrite existsb_app. cbn.
  rewrite same_refl. apply orb_true_r.
Qed.

Lemma set_add_present (i : num) (s : list num) :
  Xylophone.has i s = true -> Xylophone.set_add i s = s.
Proof. intro H. unfold Xylophone.set_add. rewrite H. reflexivity. Qed.

Lemma set_add_length (i : num) (s : list num) :
  (List.length (Xylophone.set_add i s) <= List.length s + 1)%nat.
Proof.
  unfold Xylophone.set_add.
  destruct (Xylophone.has i s); [lia|].
  rewrite List.length_app. cbn. lia.
Qed.

(** What [playNote] does to the active-note set: nothing, or, when it
    returns [true], the addition of its index. *)
Lemma playNote_active (i : num) (w : World) :
  exists (r : result bool) (w' : World),
    Xylophone.playNote i w = (r, w') /\
    notes (xylo w') = notes (xylo w) /\
    maxPolyphony (xylo w') = maxPolyphony (xylo w) /\
    (activeNotes (xylo w') = activeNotes (xylo w)
     \/ (r = Ok true
         /\ activeNotes (xylo w') = Xylophone.set_add i (activeNotes (xylo w)))).
Proof.
  unfold Xylophone.playNote.
  unfold bind at 1. unfold Xylophone.this at 1, gets at 1.
  destruct (lt i (int 0) || ge i (Xylophone.size (notes (xylo w)))) eqn:Hrange.
  { eexists _, _. split; [reflexivity|]. cbn. auto. }
  destruct (ge (Xylophone.size (activeNotes (xylo w))) (maxPolyphony (xylo w))) eqn:Hfull.
  { eexists _, _. split; [reflexivity|]. cbn. auto. }
  destruct (Xylophone.element (notes (xylo w)) i) as [note|] eqn:Hnote.
  2:{ eexists _, _. split; [reflexivity|]. cbn. auto. }
  destruct (AudioEngine_playNote_frame (frequency note) (Some (noteDuration (xylo w))) w)
    as [b [a' [co' Hplay]]].
  rewrite (bind_ok _ Hplay).
  destruct b.
  - eexists _, _. split; [reflexivity|]. cbn.
    destruct (xylo w) as [ns km nd an mp]. cbn. auto.
  - eexists _, _. split; [reflexivity|]. cbn. auto.
Qed.

(** [isValidNoteIndex(v)] is [true] exactly for the integers 0 to 10 (on the
    eleven notes of the constructor), and never throws or changes anything. *)
Lemma isValidNoteIndex_spec (w : World) (v : Js.value) :
  List.length (notes (xylo w)) = 11%nat ->
  (exists b : bool, Xylophone.isValidNoteIndex v w = (Ok b, w)) /\
  (Xylophone.isValidNoteIndex v w = (Ok true, w) <->
   exists (z : Z) (q : Q), (0 <= z <= 10)%Z /\ v = VNum (Fin q) /\ (q == inject_Z z)%Q).
Proof.
  intro Hlen.
  unfold Xylophone.isValidNoteIndex, Xylophone.this, bind, gets, ret,
    Xylophone.size.
  rewrite Hlen. split; [eexists; reflexivity|].
  split.
  - intro H. injection H as H.
    apply andb_true_iff in H. destruct H as [H Hlt].
    apply andb_true_iff in H. destruct H as [Hint Hge].
    destruct v as [| | |[| | |q]| | |]; try discriminate.
    cbv [Number_isInteger is_integer] in Hint.
    cbv [Xylophone.as_number ge le int] in Hge.
    cbv [Xylophone.as_number lt int] in Hlt.
    apply Pos.eqb_eq in Hint.
    apply Qle_bool_iff in Hge. apply Qltb_true in Hlt.
    assert (Hq : (q == inject_Z (Qnum (Qred q)))%Q).
    { rewrite <- (Qred_correct q) at 1.
      destruct (Qred q) as [n d]. cbn in *. subst d. reflexivity. }
    exists (Qnum (Qred q)), q. repeat split; try exact Hq.
    + rewrite Hq in Hge. unfold Qle, inject_Z in Hge. cbn in Hge. lia.
    + rewrite Hq in Hlt. unfold Qlt, inject_Z in Hlt. cbn in Hlt. lia.
  - intros [z [q [Hz [-> Hq]]]]. f_equal. f_equal.
    cbv [Number_isInteger is_integer Xylophone.as_number ge le lt int].
    change (Z.of_nat 11) with 11%Z.
    assert (Hred : Qred q = z # 1).
    { rewrite <- (Qred_int z). apply Qred_complete. exact Hq. }
    rewrite Hred. cbn [Qden Pos.eqb andb].
    assert (H0 : Qle_bool (0 # 1) q = true).
    { apply Qle_bool_iff. rewrite Hq. unfold Qle, inject_Z. cbn. lia. }
    assert (H1 : Qltb q (11 # 1) = true).
    { apply Qltb_true. rewrite Hq. unfold Qlt, inject_Z. cbn. lia. }
    rewrite H0, H1. reflexivity.
Qed.

(** Outside the range of the notes [playNote] is refused: it returns [false]
    and leaves a warning, nothing else. *)
Lemma playNote_rejects_out_of_range (w : World) (i : num) :
  lt i (int 0) || ge i (Xylophone.size (notes (xylo w))) = true ->
  Xylophone.playNote i w
  = (Ok false,
     set_console (mkEntry Warn "Invalid note index: " [VNum i] :: console_out w) w).
Proof.
  intro H. unfold Xylophone.playNote, Xylophone.this.
  unfold bind at 1. unfold gets at 1. rewrite H. reflexivity.
Qed.

(** C3: the index 1.5 is not valid, yet [playNote(1.5)] on a ready page passes
    the range test of [playNote], finds no note at [notes[1.5]] and raises a
    [TypeError] on reading its frequency instead of returning [false]. *)
Theorem C3_playNote_raises_on_fractional_index :
  Xylophone.isValidNoteIndex (VNum (Fin (3 # 2))) (Page.ready 0)
  = (Ok false, Page.ready 0)
  /\ Xylophone.playNote (Fin (3 # 2)) (Page.ready 0)
     = (Throw (TypeError "Cannot read properties of undefined (reading 'frequency')"),
        Page.ready 0).
Proof. vm_compute. split; reflexivity. Qed.

(** C9: the active-note set is keyed by the note index.  A [playNote] of an
    index that is already active leaves the set as it is, whatever it
    returns; a [playNote] makes the set at most one larger, and larger only
    if it returned [true] for an index that was not active.  So any number
    of strikes of one index, with no timer firing in between, leave the set
    at most one larger than before, and no larger if the index was active. *)
Theorem C9_active_set_keyed_by_index :
  (forall (i : num) (w w' : World) (r : result bool),
      Xylophone.playNote i w = (r, w') ->
      (Xylophone.has i (activeNotes (xylo w)) = true ->
       activeNotes (xylo w') = activeNotes (xylo w)) /\
      (List.length (activeNotes (xylo w')) <= List.length (activeNotes (xylo w)) + 1)%nat /\
      (List.length (activeNotes (xylo w)) < List.length (activeNotes (xylo w')) ->
       r = Ok true /\ Xylophone.has i (activeNotes (xylo w)) = false)%nat) /\
  (forall (n : nat) (i : num) (w w' : World) (r : result (list bool)),
      Spec.play_all (repeat i n) w = (r, w') ->
      (Xylophone.has i (activeNotes (xylo w)) = true ->
       activeNotes (xylo w') = activeNotes (xylo w)) /\
      (List.length (activeNotes (xylo w')) <= List.length (activeNotes (xylo w)) + 1)%nat).
Proof.
  assert (Hone : forall (i : num) (w w' : World) (r : result bool),
             Xylophone.playNote i w = (r, w') ->
             activeNotes (xylo w') = activeNotes (xylo w)
             \/ (r = Ok true
                 /\ activeNotes (xylo w') = Xylophone.set_add i (activeNotes (xylo w)))).
  { intros i w w' r H.
    destruct (playNote_active i w) as [r0 [w0 [H0 [_ [_ Hact]]]]].
    rewrite H in H0. injection H0 as <- <-. exact Hact. }
  split.
  - intros i w w' r H. destruct (Hone i w w' r H) as [Hsame | [Hr Hadd]].
    + rewrite Hsame. repeat split; lia.
    + rewrite Hadd. split; [apply set_add_present|]. split; [apply set_add_length|].
      intro Hgrow. split; [exact Hr|].
      destruct (Xylophone.has i (activeNotes (xylo w))) eqn:E; [|reflexivity].
      rewrite (set_add_present _ _ E) in Hgrow. lia.
  - induction n as [|n IH]; intros i w w' r H.
    + cbn in H. injection H as <- <-. split; [reflexivity|lia].
    + cbn [repeat Spec.play_all] in H.
      destruct (Xylophone.playNote i w) as [r1 w1] eqn:H1.
      pose proof (Hone i w w1 r1 H1) as Hstep.
      unfold bind at 1 in H. rewrite H1 in H.
      destruct r1 as [b|e].
      * unfold bind at 1 in H.
        destruct (Spec.play_all (repeat i n) w1) as [r2 w2] eqn:H2.
        assert (Hw : w2 = w') by (destruct r2; injection H as <- <-; reflexivity).
        subst w2.
        destruct (IH i w1 w' r2 H2) as [Hpres Hlen].
        destruct Hstep as [Hsame | [_ Hadd]].
        -- rewrite Hsame in Hpres, Hlen. split; assumption.
        -- rewrite Hadd in Hpres. rewrite (Hpres (has_set_add _ _)).
           split; [apply set_add_present|apply set_add_length].
      * injection H as <- <-.
        destruct Hstep as [Hsame | [Hr _]]; [|discriminate].
        rewrite Hsame. split; [reflexivity|lia].
Qed.

(** C9 at three strikes of bar 3 on a ready page: all three succeed and one
    note is active. *)
Lemma C9_active_set_keyed_by_index_witness :
  Page.outcome (Spec.play_all (repeat (int 3) 3)) (Page.ready 0)
  = Ok [true; true; true] /\
  (List.length
     (activeNotes (xylo (Page.after (Spec.play_all (repeat (int 3) 3)) (Page.ready 0))))
   <= List.length (activeNotes (xylo (Page.ready 0))) + 1)%nat.
Proof.
  split.
  - vm_compute. reflexivity.
  - exact (proj2 (proj2 C9_active_set_keyed_by_index 3%nat (int 3) (Page.ready 0)
                    (Page.after (Spec.play_all (repeat (int 3) 3)) (Page.ready 0))
                    (Page.outcome (Spec.play_all (repeat (int 3) 3)) (Page.ready 0))
                    (surjective_pairing _))).
Defined.

End Registry.

(** ** The recorder *)

Section Recorder.
Import ControlsS.

Lemma size_ge (A : Type) (l : list A) (m : nat) :
  ge (Xylophone.size l) (int (Z.of_nat m)) = Nat.leb m (List.length l).
Proof.
  unfold ge, Xylophone.size, int. cbn [le].
  destruct (Nat.leb m (List.length l)) eqn:E.
  - apply Nat.leb_le in E. apply Qle_bool_iff. unfold Qle. simpl. lia.
  - apply Nat.leb_gt in E.
    destruct (Qle_bool (Z.of_nat m # 1) (Z.of_nat (List.length l) # 1)) eqn:Q;
      [|reflexivity].
    apply Qle_bool_iff in Q. unfold Qle in Q. simpl in Q. lia.
Qed.

(** While recording below the maximum, [recordNote] appends one record and
    touches nothing else but the status text. *)
Lemma recordNote_appends (w : World) (d : NoteDetail) :
  isRecording (ctrl w) = true ->
  ge (Xylophone.size (recordedSequence (ctrl w))) (maxRecordingLength (ctrl w)) = false ->
  exists msg : string,
    Controls.recordNote d w =
    (Ok tt,
     set_ctrl
       (set_recordingStatus
          (Spec.status_text (recordingStatus (ctrl w)) msg)
          (set_recordedSequence
             (recordedSequence (ctrl w)
                ++ [Spec.entry (recordingStartTime (ctrl w)) d])
             (ctrl w)))
       w).
Proof.
  intros Hrec Hlen.
  destruct w as [a x v c co tr n ti tm nt j].
  destruct c as [rb pb cb st ir ip sq t0 mx pt ls ini]. cbn in Hrec, Hlen.
  subst ir.
  unfold Controls.recordNote, Controls.updateRecordingStatus, Controls.this,
    Controls.update, bind, gets, modify, ret.
  cbn. rewrite Hlen.
  eexists. destruct st; reflexivity.
Qed.

(** [stopRecording] on a recorder with its buttons: it leaves the Recording
    state and keeps the sequence. *)
Lemma stopRecording_stops (w : World) :
  Spec.bound (ctrl w) = true ->
  exists w' : World,
    Controls.stopRecording w = (Ok tt, w') /\
    isRecording (ctrl w') = false /\
    recordedSequence (ctrl w') = recordedSequence (ctrl w) /\
    isPlaying (ctrl w') = isPlaying (ctrl w) /\
    maxRecordingLength (ctrl w') = maxRecordingLength (ctrl w) /\
    Spec.bound (ctrl w') = true.
Proof.
  intros Hb.
  destruct w as [a x v c co tr n ti tm nt j].
  destruct c as [rb pb cb st ir ip sq t0 mx pt ls ini].
  unfold Spec.bound in Hb. cbn in Hb.
  destruct rb as [rb|]; [|discriminate].
  destruct pb as [pb|]; [|discriminate].
  destruct cb as [cb|]; [|discriminate].
  destruct ir; [destruct sq as [|e sq]; destruct st|];
    vm_compute; eexists; repeat split.
Qed.

(** [startRecording] on an idle recorder with its buttons. *)
Lemma startRecording_starts (w : World) :
  Spec.bound (ctrl w) = true ->
  isPlaying (ctrl w) = false ->
  exists w' : World,
    Controls.startRecording w = (Ok tt, w') /\
    isRecording (ctrl w') = true /\
    recordedSequence (ctrl w') = [] /\
    isPlaying (ctrl w') = false /\
    maxRecordingLength (ctrl w') = maxRecordingLength (ctrl w) /\
    Spec.bound (ctrl w') = true /\
    recordingStartTime (ctrl w') = hd NaN (Spec.upcoming w).
Proof.
  intros Hb Hp.
  destruct w as [a x v c co tr n ti tm nt j].
  destruct c as [rb pb cb st ir ip sq t0 mx pt ls ini].
  unfold Spec.bound in Hb. cbn in Hb, Hp. subst ip.
  destruct rb as [rb|]; [|discriminate].
  destruct pb as [pb|]; [|discriminate].
  destruct cb as [cb|]; [|discriminate].
  destruct ti; destruct st; vm_compute; eexists; repeat split.
Qed.

(** A run of [recordNote] that stays within the maximum appends the record
    of every event, in order, and stays in the Recording state. *)
Lemma record_events (m : nat) (events : list NoteDetail) :
  forall w : World,
    isRecording (ctrl w) = true ->
    maxRecordingLength (ctrl w) = int (Z.of_nat m) ->
    (List.length (recordedSequence (ctrl w)) + List.length events <= m)%nat ->
    exists w' : World,
      Controls.for_each Controls.recordNote events w = (Ok tt, w') /\
      recordedSequence (ctrl w') =
        recordedSequence (ctrl w)
          ++ map (Spec.entry (recordingStartTime (ctrl w))) events /\
      isRecording (ctrl w') = true /\
      isPlaying (ctrl w') = isPlaying (ctrl w) /\
      maxRecordingLength (ctrl w') = maxRecordingLength (ctrl w) /\
      Spec.bound (ctrl w') = Spec.bound (ctrl w).
Proof.
  induction events as [|d events IH]; intros w Hrec Hmax Hlen.
  - exists w. cbn. rewrite List.app_nil_r. repeat split. exact Hrec.
  - cbn [List.length] in Hlen.
    assert (Hroom :
              ge (Xylophone.size (recordedSequence (ctrl w)))
                 (maxRecordingLength (ctrl w)) = false).
    { rewrite Hmax, size_ge. apply Nat.leb_gt. lia. }
    destruct (recordNote_appends w d Hrec Hroom) as [msg Hstep].
    set (w1 := set_ctrl _ w) in Hstep.
    destruct (IH w1) as [w' [Hrun [Hseq [Hrec' [Hplay' [Hmax' Hb']]]]]].
    + exact Hrec.
    + exact Hmax.
    + subst w1. cbn. rewrite List.length_app. cbn. lia.
    + exists w'. split.
      * cbn [Controls.for_each]. unfold bind at 1. rewrite Hstep. exact Hrun.
      * rewrite Hseq, Hplay', Hmax', Hb'. subst w1. cbn.
        rewrite <- List.app_assoc. repeat split; try assumption.
Qed.

(** C1: the recorder is in the Recording state with one recorded note (bar 3,
    half a second after the start); [play()], called a second after the
    start, then sets [isPlaying], arms the playback timer and leaves
    [isRecording] set. *)
Theorem C1_play_while_recording_starts_playback :
  let w :=
    Page.after (Controls.startRecording ;;
                Controls.recordNote (mkDetail (VNum (int 3)) (int 1500)))
               (Page.at_times [1000; 2000; 2000; 2500; 2500] (Page.ready 1000)) in
  isRecording (ctrl w) = true /\
  recordedSequence (ctrl w) =
    [VObj [("noteIndex"%string, VNum (int 3)); ("delay"%string, VNum (int 500))]] /\
  isPlaying (ctrl w) = false /\
  Page.outcome (Controls.playRecording 10) w = Ok (Pending, Waiting) /\
  let w' := Page.after (Controls.playRecording 10) w in
  isPlaying (ctrl w') = true /\
  isRecording (ctrl w') = true /\
  timers w' =
    [mkTimer 1 (int 500)
       (ResumePlayback 0 (int 2000)
          (VObj [("noteIndex"%string, VNum (int 3));
                 ("delay"%string, VNum (int 500))]))].
Proof. vm_compute. repeat split. Qed.

(** What follows in the same run: when the timer fires the note is played
    and, the recorder still recording, written to the sequence being played,
    which now has two records; the playback waits to play that one too. *)
Lemma play_while_recording_feeds_back :
  let w :=
    Page.after (Controls.startRecording ;;
                Controls.recordNote (mkDetail (VNum (int 3)) (int 1500)) ;;
                Controls.playRecording 10 ;;
                Controls.fire_timer 10 1)
               (Page.at_times [1000; 2000; 2000; 2500; 2500] (Page.ready 1000)) in
  triggered w = [VNum (int 3)] /\
  recordedSequence (ctrl w) =
    [VObj [("noteIndex"%string, VNum (int 3)); ("delay"%string, VNum (int 500))];
     VObj [("noteIndex"%string, VNum (int 3)); ("delay"%string, VNum (int 1500))]] /\
  isPlaying (ctrl w) = true /\
  isRecording (ctrl w) = true /\
  playbackTimeout (ctrl w) = Some 4%nat.
Proof. vm_compute. repeat split. Qed.

(** C2, as stated, fails: after exactly [maxRecordingLength] (100) events the
    recorder is still in the Recording state. *)
Lemma C2_still_recording_counterexample :
  let events := repeat (mkDetail (VNum (int 3)) (int 1500)) 100 in
  let w :=
    Page.after (Controls.startRecording ;;
                Controls.for_each Controls.recordNote events)
               (Page.ready 1000) in
  maxRecordingLength (ctrl w) = int 100 /\
  List.length (recordedSequence (ctrl w)) = 100%nat /\
  isRecording (ctrl w) = true.
Proof. vm_compute. repeat split. Qed.

(** C2, amended: in a recording session on a recorder with its buttons,
    recording exactly [maxRecordingLength] events keeps every one of them
    and leaves the recorder in the Recording state; the next [recordNote]
    call is the one that stops it (the recorder becomes Idle) and its event
    is not stored; a further [recordNote] call changes nothing. *)
Theorem C2_auto_stop_on_the_event_after_the_maximum :
  forall (w : World) (m : nat) (events : list NoteDetail) (d1 d2 : NoteDetail),
    Spec.bound (ctrl w) = true ->
    isPlaying (ctrl w) = false ->
    maxRecordingLength (ctrl w) = int (Z.of_nat m) ->
    List.length events = m ->
    exists w0 w1 w2 : World,
      Controls.startRecording w = (Ok tt, w0) /\
      Controls.for_each Controls.recordNote events w0 = (Ok tt, w1) /\
      isRecording (ctrl w1) = true /\
      recordedSequence (ctrl w1) =
        map (Spec.entry (recordingStartTime (ctrl w0))) events /\
      Controls.recordNote d1 w1 = (Ok tt, w2) /\
      isRecording (ctrl w2) = false /\
      recordedSequence (ctrl w2) = recordedSequence (ctrl w1) /\
      Controls.recordNote d2 w2 = (Ok tt, w2).
Proof.
  intros w m events d1 d2 Hb Hp Hmax Hlen.
  destruct (startRecording_starts w Hb Hp)
    as [w0 [Hstart [Hrec0 [Hseq0 [Hp0 [Hmax0 [Hb0 _]]]]]]].
  destruct (@record_events m events w0) as [w1 [Hrun [Hseq1 [Hrec1 [Hp1 [Hmax1 Hb1]]]]]].
  - exact Hrec0.
  - congruence.
  - rewrite Hseq0. cbn. lia.
  - rewrite Hseq0 in Hseq1. cbn in Hseq1.
    set (w1' := set_console
                  (mkEntry Warn "Maximum recording length reached" [] :: console_out w1) w1).
    destruct (stopRecording_stops w1') as [w2 [Hstop [Hrec2 [Hseq2 [_ [_ _]]]]]].
    { subst w1'. cbn. congruence. }
    exists w0, w1, w2.
    repeat split; try assumption.
    + unfold Controls.recordNote, Controls.this, Browser.console_write,
        bind, gets, modify, ret.
      rewrite Hrec1. cbn.
      rewrite Hmax1, Hmax0, Hmax, size_ge, Hseq1, List.length_map, Hlen, Nat.leb_refl.
      exact Hstop.
    + unfold Controls.recordNote, Controls.this, bind, gets, ret.
      rewrite Hrec2. reflexivity.
Qed.

(** C2 amended, at a maximum of two events. *)
Lemma C2_auto_stop_on_the_event_after_the_maximum_witness :
  exists w0 w1 w2 : World,
    Controls.startRecording
      (Page.after (Controls.setMaxRecordingLength (int 2)) (Page.ready 1000))
    = (Ok tt, w0) /\
    Controls.for_each Controls.recordNote
      [mkDetail (VNum (int 0)) (int 1000); mkDetail (VNum (int 4)) (int 1050)] w0
    = (Ok tt, w1) /\
    isRecording (ctrl w1) = true /\
    Controls.recordNote (mkDetail (VNum (int 7)) (int 1200)) w1 = (Ok tt, w2) /\
    isRecording (ctrl w2) = false /\
    recordedSequence (ctrl w2) = recordedSequence (ctrl w1).
Proof.
  destruct (@C2_auto_stop_on_the_event_after_the_maximum
              (Page.after (Controls.setMaxRecordingLength (int 2)) (Page.ready 1000))
              2
              [mkDetail (VNum (int 0)) (int 1000); mkDetail (VNum (int 4)) (int 1050)]
              (mkDetail (VNum (int 7)) (int 1200))
              (mkDetail (VNum (int 9)) (int 1300))
              eq_refl eq_refl eq_refl eq_refl)
    as [w0 [w1 [w2 [H0 [H1 [Hrec [_ [H2 [Hidle [Hseq _]]]]]]]]]].
  exists w0, w1, w2. repeat split; assumption.
Defined.




(** A recorder that plays on a page without a play button: [clear()] throws,
    and the recording is still there. *)
Lemma clear_without_play_button :
  let w := set_ctrl (set_isPlaying true
                       (set_recordedSequence [Spec.note_record 3 500] Controls.constructor))
                    (Page.ready 1000) in
  exists message : string,
    Page.outcome Controls.clearRecording w = Throw (TypeError message) /\
    recordedSequence (ctrl (Page.after Controls.clearRecording w))
    = [Spec.note_record 3 500].
Proof. vm_compute. eexists. split; reflexivity. Qed.

(** ** Import and export *)

(** The test of one element never changes anything, and passes exactly the
    elements whose two fields are numbers. *)
Lemma validate_note_spec (note : Js.value) (w : World) :
  exists r : result unit,
    Controls.validate_note note w = (r, w) /\
    (r = Ok tt <-> Spec.well_formed note = true).
Proof.
  unfold Controls.validate_note, Spec.well_formed, lift_result, bind, throw, ret.
  destruct (get_prop note "noteIndex") as [a|e].
  - destruct (String.eqb (typeof a) "number"); cbn [negb andb].
    + destruct (get_prop note "delay") as [b|e].
      * destruct (String.eqb (typeof b) "number"); cbn [negb];
          eexists; (split; [reflexivity|]); split; congruence.
      * eexists; (split; [reflexivity|]); split; congruence.
    + destruct (get_prop note "delay");
        eexists; (split; [reflexivity|]); split; congruence.
  - eexists; (split; [reflexivity|]); split; congruence.
Qed.

Lemma validate_all_spec (items : list Js.value) (w : World) :
  exists r : result unit,
    Controls.for_each Controls.validate_note items w = (r, w) /\
    (r = Ok tt <-> forallb Spec.well_formed items = true).
Proof.
  induction items as [|note items IH].
  - exists (Ok tt). split; [reflexivity|]. split; reflexivity.
  - cbn [Controls.for_each forallb].
    destruct (validate_note_spec note w) as [r1 [H1 Hr1]].
    destruct r1 as [[]|e].
    + rewrite (bind_ok _ H1).
      destruct IH as [r [H Hr]]. exists r. split; [exact H|].
      rewrite Hr. destruct Hr1 as [Hr1 _]. rewrite (Hr1 eq_refl). reflexivity.
    + rewrite (bind_throw _ H1). exists (Throw e). split; [reflexivity|].
      split; [discriminate|]. intro H. apply andb_true_iff in H.
      destruct H as [H _]. apply Hr1 in H. discriminate.
Qed.

(** [importSequence] never throws.  When it returns [true] the text was an
    array of well-formed elements and that array is now the stored
    sequence.  On a recorder with its buttons, it returns [true] for every
    such text and otherwise leaves the stored sequence as it was. *)
Lemma importSequence_spec (text : string) (w : World) :
  exists (b : bool) (w' : World),
    Controls.importSequence text w = (Ok b, w') /\
    (b = true ->
     exists items : list Js.value,
       JSON.parse text = Ok (VArr items) /\
       forallb Spec.well_formed items = true /\
       recordedSequence (ctrl w') = items) /\
    (forall items : list Js.value,
        JSON.parse text = Ok (VArr items) ->
        forallb Spec.well_formed items = true ->
        recordedSequence (ctrl w') = items) /\
    (Spec.bound (ctrl w) = true ->
     (b = false -> recordedSequence (ctrl w') = recordedSequence (ctrl w)) /\
     (forall items : list Js.value,
         JSON.parse text = Ok (VArr items) ->
         forallb Spec.well_formed items = true ->
         b = true)).
Proof.
  unfold Controls.importSequence, try_catch.
  destruct (JSON.parse text) as [v|e] eqn:Hparse.
  2:{ cbn. eexists _, _. split; [reflexivity|].
      split; [discriminate|]. split; [discriminate|].
      intros _. split; [reflexivity|discriminate]. }
  assert (Hlift : lift_result (Ok v) w = (Ok v, w)) by reflexivity.
  rewrite (bind_ok _ Hlift).
  destruct v as [| | | | |items|];
    try (cbn; eexists _, _; split; [reflexivity|];
         split; [discriminate|]; split; [discriminate|];
         intros _; split; [reflexivity|discriminate]).
  destruct (validate_all_spec items w) as [r [Hvalid Hr]].
  destruct r as [[]|e].
  2:{ rewrite (bind_throw _ Hvalid). cbn. eexists _, _. split; [reflexivity|].
      split; [discriminate|].
      assert (Hbad : forall items' : list Js.value,
                 Ok (VArr items) = Ok (VArr items') ->
                 forallb Spec.well_formed items' = true -> False).
      { intros items' Hitems Hwf. injection Hitems as <-.
        apply Hr in Hwf. discriminate. }
      split; [intros items' H1 H2; destruct (Hbad items' H1 H2)|].
      intros _. split; [reflexivity|].
      intros items' H1 H2. destruct (Hbad items' H1 H2). }
  rewrite (bind_ok _ Hvalid).
  destruct Hr as [Hr _]. specialize (Hr eq_refl).
  destruct w as [a x v c co tr n ti tm nt j].
  destruct c as [rb pb cb st ir ip sq t0 mx pt ls ini].
  assert (Hsame : forall (items' : list Js.value) (P : Prop),
             Ok (VArr items) = Ok (VArr items') -> (items = items' -> P) -> P).
  { intros items' P H HP. injection H as H. exact (HP H). }
  destruct items as [|note items].
  - vm_compute. eexists _, _. split; [reflexivity|].
    split; [intros _; exists []; repeat split|].
    split; [intros items' H _; apply (Hsame items' _ H); intros <-; reflexivity|].
    intros _. split; [discriminate|reflexivity].
  - destruct pb as [pb|]; [destruct cb as [cb|]|].
    + destruct st; vm_compute; eexists _, _; (split; [reflexivity|]);
        (split; [intros _; exists (note :: items); repeat split; exact Hr|]);
        (split; [intros items' H _; apply (Hsame items' _ H); intros <-; reflexivity|]);
        intros _; (split; [discriminate|reflexivity]).
    + vm_compute. eexists _, _. split; [reflexivity|].
      split; [discriminate|].
      split; [intros items' H _; apply (Hsame items' _ H); intros <-; reflexivity|].
      unfold Spec.bound. cbn. destruct rb; discriminate.
    + vm_compute. eexists _, _. split; [reflexivity|].
      split; [discriminate|].
      split; [intros items' H _; apply (Hsame items' _ H); intros <-; reflexivity|].
      unfold Spec.bound. cbn. destruct rb; discriminate.
Qed.

Lemma recording_well_formed (l : list (Z * Z)) :
  forallb Spec.well_formed (Spec.recording l) = true.
Proof.
  induction l as [|[i d] l IH]; [reflexivity|].
  cbn [Spec.recording map forallb]. exact IH.
Qed.

(** What [recordNote] stores for a bar number and a timestamp in whole
    milliseconds is a record of whole numbers. *)
Lemma entry_of_integers (t0 i t : Z) :
  Spec.entry (int t0) (mkDetail (VNum (int i)) (int t)) = Spec.note_record i (t - t0).
Proof.
  unfold Spec.entry, Spec.note_record, int. cbn [noteIndex timestamp sub].
  replace (Qred ((t # 1) - (t0 # 1))) with ((t - t0) # 1); [reflexivity|].
  rewrite <- (Qred_int (t - t0)). apply Qred_complete.
  unfold Qminus, Qplus, Qopp, Qeq. cbn. lia.
Qed.

(** A recording session on the page: started when the clock reads [t0]
    whole milliseconds, fed the bar numbers and the timestamps of the notes
    played, it stores a recording in the sense above, the delays being the
    timestamps less [t0]. *)
Lemma recording_session (w : World) (t0 : Z) (m : nat) (played : list (Z * Z)) :
  Spec.bound (ctrl w) = true ->
  isPlaying (ctrl w) = false ->
  hd NaN (Spec.upcoming w) = int t0 ->
  maxRecordingLength (ctrl w) = int (Z.of_nat m) ->
  (List.length played <= m)%nat ->
  exists w0 w1 : World,
    Controls.startRecording w = (Ok tt, w0) /\
    Controls.for_each Controls.recordNote
      (map (fun it => mkDetail (VNum (int (fst it))) (int (snd it))) played) w0
    = (Ok tt, w1) /\
    recordedSequence (ctrl w1)
    = Spec.recording (map (fun it => (fst it, (snd it - t0)%Z)) played).
Proof.
  intros Hb Hp Hclock Hmax Hlen.
  destruct (startRecording_starts w Hb Hp)
    as [w0 [Hstart [Hrec0 [Hseq0 [_ [Hmax0 [_ Ht0]]]]]]].
  destruct (@record_events m
              (map (fun it => mkDetail (VNum (int (fst it))) (int (snd it))) played) w0)
    as [w1 [Hrun [Hseq1 _]]].
  - exact Hrec0.
  - congruence.
  - rewrite Hseq0, List.length_map. cbn. lia.
  - exists w0, w1. split; [exact Hstart|]. split; [exact Hrun|].
    rewrite Hseq1, Hseq0, Ht0, Hclock. cbn [List.app].
    unfold Spec.recording. rewrite !List.map_map.
    apply map_ext. intros [i t]. cbn [fst snd]. apply entry_of_integers.
Qed.

(** C5: on a page without the control elements [initialize()] gives up and
    leaves the buttons [null]; there [importSequence], given the text of a
    one-record array, stores the record and then fails on the first button,
    so it returns [false] although it has replaced the sequence. *)
Theorem C5_import_reports_failure_after_replacing :
  let w := Page.after (Controls.initialize Page.no_controls) (Page.fresh 0) in
  let text := Spec.sequence_text [(1, 0)] in
  JSON.parse text = Ok (VArr [Spec.note_record 1 0]) /\
  recordedSequence (ctrl w) = [] /\
  Page.outcome (Controls.importSequence text) w = Ok false /\
  recordedSequence (ctrl (Page.after (Controls.importSequence text) w))
  = [Spec.note_record 1 0].
Proof. vm_compute. repeat split. Qed.

(** C6: the text [exportSequence] gives for a recording (records of whole
    bar numbers and whole milliseconds), imported into any recorder, a fresh
    one included, leaves there a sequence identical to the original, record
    by record, field names and order included; [importSequence] also
    returns [true] when the recorder has its buttons. *)
Theorem C6_export_import_round_trip :
  forall (l : list (Z * Z)) (src dst : World),
    recordedSequence (ctrl src) = Spec.recording l ->
    exists (text : string) (b : bool) (dst' : World),
      Controls.exportSequence src = (Ok (Some text), src) /\
      Controls.importSequence text dst = (Ok b, dst') /\
      recordedSequence (ctrl dst') = Spec.recording l /\
      (Spec.bound (ctrl dst) = true -> b = true).
Proof.
  intros l src dst Hsrc.
  destruct (importSequence_spec (Spec.sequence_text l) dst)
    as [b [dst' [Himport [_ [Hstored Hbound]]]]].
  exists (Spec.sequence_text l), b, dst'.
  split.
  - unfold Controls.exportSequence, Controls.this, bind, gets, ret.
    rewrite Hsrc, stringify_recording. reflexivity.
  - split; [exact Himport|]. split.
    + apply Hstored; [apply parse_sequence_text|apply recording_well_formed].
    + intro Hb. destruct (Hbound Hb) as [_ Htrue].
      apply (Htrue (Spec.recording l));
        [apply parse_sequence_text|apply recording_well_formed].
Qed.

(** C6 at the recording of three notes played 0, 50 and 200 ms after the
    start, exported and imported into a recorder just constructed. *)
Lemma C6_export_import_round_trip_witness :
  exists (text : string) (b : bool) (dst' : World),
    Controls.exportSequence
      (Page.after (Controls.startRecording ;;
                   Controls.for_each Controls.recordNote
                     [mkDetail (VNum (int 0)) (int 1000);
                      mkDetail (VNum (int 4)) (int 1050);
                      mkDetail (VNum (int 7)) (int 1200)])
                  (Page.ready 1000))
    = (Ok (Some text),
       Page.after (Controls.startRecording ;;
                   Controls.for_each Controls.recordNote
                     [mkDetail (VNum (int 0)) (int 1000);
                      mkDetail (VNum (int 4)) (int 1050);
                      mkDetail (VNum (int 7)) (int 1200)])
                  (Page.ready 1000)) /\
    Controls.importSequence text (Page.fresh 0) = (Ok b, dst') /\
    recordedSequence (ctrl dst') = Spec.recording [(0, 0); (4, 50); (7, 200)].
Proof.
  destruct (@C6_export_import_round_trip
              [(0, 0); (4, 50); (7, 200)]
              (Page.after (Controls.startRecording ;;
                           Controls.for_each Controls.recordNote
                             [mkDetail (VNum (int 0)) (int 1000);
                              mkDetail (VNum (int 4)) (int 1050);
                              mkDetail (VNum (int 7)) (int 1200)])
                          (Page.ready 1000))
              (Page.fresh 0))
    as [text [b [dst' [Hexport [Himport [Hstored _]]]]]].
  - vm_compute. reflexivity.
  - exists text, b, dst'. repeat split; assumption.
Defined.

End Recorder.

(** ** Playback *)

Section Playback.
Import ControlsS.

Lemma only_sound_refl (w : World) : Spec.only_sound w w.
Proof. repeat split. Qed.

Lemma only_sound_trans (w1 w2 w3 : World) :
  Spec.only_sound w1 w2 -> Spec.only_sound w2 w3 -> Spec.only_sound w1 w3.
Proof.
  unfold Spec.only_sound.
  intros [A1 [A2 [A3 [A4 A5]]]] [B1 [B2 [B3 [B4 B5]]]].
  repeat split; congruence.
Qed.

(** A whole number from 0 up to the length of an array indexes one of its
    elements. *)
Lemma element_in_range (A : Type) (l : list A) (n : num) :
  is_integer n = true ->
  ge n (int 0) = true ->
  ge n (Xylophone.size l) = false ->
  exists a : A, Xylophone.element l n = Some a.
Proof.
  intros Hint Hge Hlt.
  destruct n as [| | |q]; try discriminate.
  unfold Xylophone.element. rewrite Hint.
  cbv [ge le int] in Hge. rewrite Hge. cbn [andb].
  cbv [ge le Xylophone.size int] in Hlt.
  cbv [is_integer] in Hint. apply Pos.eqb_eq in Hint.
  apply Qle_bool_iff in Hge.
  assert (Hq : (q == inject_Z (Qnum (Qred q)))%Q).
  { rewrite <- (Qred_correct q) at 1.
    destruct (Qred q) as [z d]. cbn in *. subst d. reflexivity. }
  assert (Hlt' : ~ (inject_Z (Z.of_nat (List.length l)) <= q)%Q).
  { intro H. apply Qle_bool_iff in H. unfold inject_Z in H. congruence. }
  rewrite Hq in Hge, Hlt'. unfold Qle, inject_Z in Hge, Hlt'. cbn in Hge, Hlt'.
  destruct (nth_error l (Z.to_nat (Qnum (Qred q)))) as [a|] eqn:E.
  - exists a. reflexivity.
  - apply nth_error_None in E. lia.
Qed.

Lemma AudioEngine_playNote_sound (frequency : num) (duration : option num) (w : World) :
  exists (b : bool) (w' : World),
    AudioEngine.playNote frequency duration w = (Ok b, w') /\ Spec.only_sound w w'.
Proof.
  destruct (AudioEngine_playNote_frame frequency duration w) as [b [a' [co' H]]].
  eexists _, _. split; [exact H|]. repeat split.
Qed.

(** [xylophone.playNote] at a whole number from 0 returns a boolean and
    touches neither the recorder nor the clock. *)
Lemma Xylophone_playNote_sound (n : num) (w : World) :
  is_integer n = true ->
  ge n (int 0) = true ->
  exists (b : bool) (w' : World),
    Xylophone.playNote n w = (Ok b, w') /\ Spec.only_sound w w'.
Proof.
  intros Hint Hge.
  unfold Xylophone.playNote.
  unfold bind at 1. unfold Xylophone.this at 1, gets at 1.
  destruct (lt n (int 0) || ge n (Xylophone.size (XylophoneS.notes (xylo w)))) eqn:Hrange.
  { eexists _, _. split; [reflexivity|]. repeat split. }
  destruct (ge (Xylophone.size (XylophoneS.activeNotes (xylo w)))
               (XylophoneS.maxPolyphony (xylo w))) eqn:Hfull.
  { eexists _, _. split; [reflexivity|]. repeat split. }
  apply orb_false_iff in Hrange. destruct Hrange as [_ Hbelow].
  destruct (element_in_range _ _ Hint Hge Hbelow) as [note Hnote].
  rewrite Hnote.
  destruct (AudioEngine_playNote_sound (XylophoneS.frequency note)
              (Some (XylophoneS.noteDuration (xylo w))) w)
    as [b [w1 [Hplay Hs1]]].
  rewrite (bind_ok _ Hplay).
  destruct b.
  - eexists _, _. split; [reflexivity|].
    apply (only_sound_trans Hs1). repeat split.
  - eexists _, _. split; [reflexivity|]. exact Hs1.
Qed.

(** [visualFeedback.activateBar] likewise. *)
Lemma activateBar_sound (n : num) (w : World) :
  is_integer n = true ->
  ge n (int 0) = true ->
  exists (b : bool) (w' : World),
    VisualFeedback.activateBar n w = (Ok b, w') /\ Spec.only_sound w w'.
Proof.
  intros Hint Hge.
  unfold VisualFeedback.activateBar.
  unfold bind at 1. unfold VisualFeedback.this at 1, gets at 1.
  destruct (negb (VisualFeedbackS.isInitialized (visual w))).
  { eexists _, _. split; [reflexivity|]. repeat split. }
  destruct (lt n (int 0)
            || ge n (Xylophone.size (VisualFeedbackS.barElements (visual w)))) eqn:Hrange.
  { eexists _, _. split; [reflexivity|]. repeat split. }
  apply orb_false_iff in Hrange. destruct Hrange as [_ Hbelow].
  destruct (element_in_range _ _ Hint Hge Hbelow) as [bar Hbar].
  rewrite Hbar.
  destruct (find (fun kt => same n (fst kt)) (VisualFeedbackS.activeTimeouts (visual w)))
    as [[k id]|]; eexists _, _; (split; [reflexivity|]); repeat split.
Qed.


(** [Date.now()] returns the first of the upcoming readings and leaves the
    others. *)
Lemma Date_now_upcoming (w : World) :
  exists (t : num) (w' : World),
    Browser.Date_now w = (Ok t, w') /\
    ctrl w' = ctrl w /\ triggered w' = triggered w /\
    hd NaN (Spec.upcoming w) = t /\
    (forall P : num -> Prop,
        Forall P (Spec.upcoming w) -> P t /\ Forall P (Spec.upcoming w')).
Proof.
  unfold Browser.Date_now, Spec.upcoming.
  destruct (ticks w) as [|t rest] eqn:Et.
  - eexists _, _. split; [reflexivity|]. repeat split.
    + inversion H; assumption.
    + rewrite Et. exact H.
  - eexists _, _. split; [reflexivity|]. repeat split.
    + inversion H; assumption.
    + cbn. destruct rest as [|t' rest'].
      * inversion H; subst. constructor; [assumption|constructor].
      * inversion H; assumption.
Qed.








End Playback.

(** ** What a computation keeps *)

Section Keeping.
Variable P : World -> Prop.

Lemma preserves_ret (A : Type) (a : A) : Spec.preserves P (ret a).
Proof. intros w H. exact H. Qed.

Lemma preserves_throw (A : Type) (e : exn) : Spec.preserves P (@throw World A e).
Proof. intros w H. exact H. Qed.

Lemma preserves_gets (A : Type) (f : World -> A) : Spec.preserves P (gets f).
Proof. intros w H. exact H. Qed.

Lemma preserves_lift (A : Type) (r : result A) : Spec.preserves P (@lift_result World A r).
Proof. intros w H. exact H. Qed.

Lemma preserves_bind (A B : Type) (m : M World A) (f : A -> M World B) :
  Spec.preserves P m -> (forall a : A, Spec.preserves P (f a)) ->
  Spec.preserves P (bind m f).
Proof.
  intros Hm Hf w H. unfold bind.
  specialize (Hm w H). destruct (m w) as [[a|e] w']; cbn in Hm.
  - apply Hf. exact Hm.
  - exact Hm.
Qed.

Lemma preserves_try_catch (A : Type) (body : M World A) (handler : exn -> M World A) :
  Spec.preserves P body -> (forall e : exn, Spec.preserves P (handler e)) ->
  Spec.preserves P (try_catch body handler).
Proof.
  intros Hm Hf w H. unfold try_catch.
  specialize (Hm w H). destruct (body w) as [[a|e] w']; cbn in Hm.
  - exact Hm.
  - apply Hf. exact Hm.
Qed.

Lemma preserves_try_finally (A : Type) (body : M World A) (fin : M World unit) :
  Spec.preserves P body -> Spec.preserves P fin ->
  Spec.preserves P (try_finally body fin).
Proof.
  intros Hm Hf w H. unfold try_finally.
  specialize (Hm w H). destruct (body w) as [r w']. cbn in Hm.
  specialize (Hf w' Hm). destruct (fin w') as [[u|e] w'']; exact Hf.
Qed.

Lemma preserves_attempt (A : Type) (m : M World A) :
  Spec.preserves P m -> Spec.preserves P (Controls.attempt m).
Proof.
  intros Hm w H. unfold Controls.attempt.
  specialize (Hm w H). destruct (m w) as [r w']. exact Hm.
Qed.

Lemma preserves_for_each (A : Type) (f : A -> M World unit) (l : list A) :
  (forall a : A, Spec.preserves P (f a)) -> Spec.preserves P (Controls.for_each f l).
Proof.
  intro Hf. induction l as [|a l IH]; cbn [Controls.for_each].
  - apply preserves_ret.
  - apply preserves_bind; [apply Hf|intros _; exact IH].
Qed.

Hypothesis P_console : forall (l : console) (w : World), P w -> P (set_console l w).

Lemma preserves_reported (A : Type) (m : M World A) :
  Spec.preserves P m -> Spec.preserves P (Controls.reported m).
Proof.
  intros Hm w H. unfold Controls.reported.
  specialize (Hm w H). destruct (m w) as [[a|e] w']; cbn in Hm |- *.
  - exact Hm.
  - apply P_console. exact Hm.
Qed.

Lemma preserves_console_write (lv : level) (text : string) (args : list Js.value) :
  Spec.preserves P (Browser.console_write lv text args).
Proof. intros w H. apply P_console. exact H. Qed.

End Keeping.

Lemma preserves_and (A : Type) (P Q : World -> Prop) (m : M World A) :
  Spec.preserves P m -> Spec.preserves Q m ->
  Spec.preserves (fun w => P w /\ Q w) m.
Proof. intros HP HQ w [H1 H2]. split; [apply HP|apply HQ]; assumption. Qed.

Create HintDb keep discriminated.
(** A run is taken apart along its sequencing.  What is left are the calls
    whose effect is known, the steps on the browser, and the writes to the
    fields of a module. *)
Ltac head_of t :=
  lazymatch t with
  | ?f _ => head_of f
  | _ => t
  end.

Ltac keep_same :=
  solve [let w := fresh "w" in
         let H := fresh "H" in
         intros w H; exact H].

Ltac keep_prim m :=
  lazymatch m with
  | modify _ => keep_same
  | Browser.console_write _ _ _ => keep_same
  | Browser.queueMicrotask _ => keep_same
  | Browser.setTimeout _ _ => keep_same
  | Browser.clearTimeout _ => keep_same
  | AudioEngine.update _ => keep_same
  | Xylophone.update _ => keep_same
  | VisualFeedback.update _ => keep_same
  | Controls.update _ => keep_same
  | Browser.Date_now =>
      solve [let w := fresh "w" in
             let H := fresh "H" in
             intros w H; unfold Browser.Date_now; destruct (ticks w); exact H]
  end.

Ltac keep :=
  repeat
    lazymatch goal with
    | |- Spec.preserves _ (bind _ _) => apply preserves_bind; [|intro]
    | |- Spec.preserves _ (ret _) => apply preserves_ret
    | |- Spec.preserves _ (throw _) => apply preserves_throw
    | |- Spec.preserves _ (gets _) => apply preserves_gets
    | |- Spec.preserves _ (lift_result _) => apply preserves_lift
    | |- Spec.preserves _ (try_catch _ _) => apply preserves_try_catch; [|intro]
    | |- Spec.preserves _ (try_finally _ _) => apply preserves_try_finally
    | |- Spec.preserves _ (Controls.attempt _) => apply preserves_attempt
    | |- Spec.preserves _ (Controls.for_each _ _) => apply preserves_for_each; intro
    | |- Spec.preserves _ (Controls.reported _) =>
        apply preserves_reported; [intros ? ? ?; assumption|]
    | |- Spec.preserves _ (if ?b then _ else _) => destruct b
    | |- Spec.preserves _ (match ?x with _ => _ end) => destruct x
    | |- Spec.preserves _ (let _ := _ in _) => cbv zeta
    | |- Spec.preserves _ ?m =>
        first [ solve [auto with keep nocore]
              | keep_prim m
              | let h := head_of m in progress unfold h ]
    end.

(** ** The audio engine over its whole life *)

Section Engine.
Import AudioEngineS.

Lemma NoDup_snoc (A : Type) (l : list A) (x : A) :
  NoDup l -> ~ In x l -> NoDup (l ++ [x]).
Proof.
  intros Hl Hx. induction l as [|a l IH]; cbn.
  - constructor; [intros []|constructor].
  - inversion Hl as [|a' l' Ha Hl']; subst. constructor.
    + rewrite in_app_iff. intros [H|[H|[]]]; [auto|].
      subst. apply Hx. left. reflexivity.
    + apply IH; [exact Hl'|]. intro H. apply Hx. right. exact H.
Qed.

Lemma existsb_eqb_fresh (n : nat) (l : list nat) :
  Forall (fun id => (id < n)%nat) l -> existsb (Nat.eqb n) l = false.
Proof.
  induction 1 as [|a l Ha Hl IH]; [reflexivity|].
  cbn. rewrite IH. destruct (Nat.eqb n a) eqn:E; [|reflexivity].
  apply Nat.eqb_eq in E. lia.
Qed.

(** A change made to the voice at one position, as [stop()] and the
    [onended] handler make it, keeps the number of voices and whatever the
    change keeps of a voice. *)
Lemma at_position_length (f : Voice -> Voice) (id : nat) (vs : list Voice) (k : nat) :
  List.length
    (map (fun iv : nat * Voice => let (i, v) := iv in if Nat.eqb i id then f v else v)
         (combine (seq k (List.length vs)) vs))
  = List.length vs.
Proof.
  rewrite List.length_map, List.length_combine, List.length_seq. lia.
Qed.

Lemma at_position_forallb (p : Voice -> bool) (f : Voice -> Voice) (id : nat) :
  (forall v : Voice, p v = true -> p (f v) = true) ->
  forall (vs : list Voice) (k : nat),
    forallb p vs = true ->
    forallb p
      (map (fun iv : nat * Voice => let (i, v) := iv in if Nat.eqb i id then f v else v)
           (combine (seq k (List.length vs)) vs)) = true.
Proof.
  intros Hf. induction vs as [|v vs IH]; intros k H; [reflexivity|].
  cbn in H |- *. apply andb_true_iff in H. destruct H as [Hv Hvs].
  apply andb_true_iff. split.
  - destruct (Nat.eqb k id); [apply Hf|]; exact Hv.
  - apply IH. exact Hvs.
Qed.

Lemma engine_ok_console (l : console) (w : World) :
  Spec.engine_ok (audio w) -> Spec.engine_ok (audio (set_console l w)).
Proof. intro H. exact H. Qed.

Lemma engine_playNote (frequency : num) (duration : option num) :
  Spec.preserves (fun w => Spec.engine_ok (audio w)) (AudioEngine.playNote frequency duration).
Proof.
  intros w H.
  pose proof H as [Hinit [Hnodup Hctx]].
  destruct (isInitialized (audio w)) eqn:Ei.
  2:{ assert (E : AudioEngine.playNote frequency duration w
                  = (Ok false,
                     set_console (mkEntry Warn "Audio engine not initialized" []
                                    :: console_out w) w)).
      { unfold AudioEngine.playNote, AudioEngine.this, bind, gets. rewrite Ei.
        destruct (audioContext (audio w)); reflexivity. }
      rewrite E. exact H. }
  destruct Hinit as [c0 [g [Hc Hg]]].
  destruct (Hctx c0 Hc) as [Hids Hvoices].
  rewrite (@playNote_outcome w c0 g frequency duration Ei Hc Hg). cbv zeta.
  destruct (Spec.accepted _ _ _ _); cbn [snd]; [|exact H].
  rewrite (existsb_eqb_fresh Hids).
  unfold Spec.engine_ok.
  cbn [audio set_audio isInitialized audioContext masterGain activeOscillators
       set_activeOscillators set_audioContext].
  rewrite Ei, Hg.
  split; [eexists _, _; split; reflexivity|]. split.
  - apply NoDup_snoc; [exact Hnodup|].
    intro Hin. rewrite Forall_forall in Hids. specialize (Hids _ Hin). lia.
  - intros ctx' Hctx'. injection Hctx' as <-. cbn [voices]. split.
    + rewrite List.length_app. cbn [List.length]. apply Forall_app. split.
      * eapply Forall_impl; [|exact Hids]. cbn. intros; lia.
      * constructor; [lia|constructor].
    + rewrite forallb_app, Hvoices. reflexivity.
Qed.

Lemma engine_initialize (p : AudioEngine.Page) :
  Spec.preserves (fun w => Spec.engine_ok (audio w)) (AudioEngine.initialize p).
Proof.
  intros w H.
  destruct w as [a x v c co tr n ti tm nt j].
  destruct a as [ctx mg ini act env ty dv].
  pose proof H as H0.
  unfold Spec.engine_ok in H. cbn in H. destruct H as [Hinit [Hnodup Hctx]].
  destruct ini; [exact H0|]. subst act.
  destruct p as [has st t ful].
  destruct (AudioEngine.as_float dv) as [y|e] eqn:Ef;
    (destruct has; [destruct st; [destruct ful| |]|]);
    unfold Spec.engine_ok, AudioEngine.initialize, AudioEngine.this, AudioEngine.update,
      Browser.console_write, try_catch, bind, gets, modify, ret, throw, lift_result;
    cbn; rewrite ?Ef; cbn;
    (split; [try reflexivity; eexists _, _; split; reflexivity|]);
    (split; [constructor|]); intros ctx' Hctx'; try (injection Hctx' as <-; cbn);
    try (split; [constructor|reflexivity]);
    apply Hctx; exact Hctx'.
Qed.

Lemma engine_setVolume (volume : num) :
  Spec.preserves (fun w => Spec.engine_ok (audio w)) (AudioEngine.setVolume volume).
Proof.
  intros w H.
  pose proof H as [Hinit [Hnodup Hctx]].
  unfold AudioEngine.setVolume, AudioEngine.this.
  unfold bind at 1. unfold gets at 1. cbn beta.
  destruct (isInitialized (audio w)) eqn:Ei; [|exact H].
  destruct Hinit as [c0 [g [Hc Hg]]]. rewrite Hg, Hc. cbv zeta.
  unfold bind at 1. unfold lift_result at 1.
  destruct (AudioEngine.as_float _); [|exact H].
  unfold bind at 1. unfold lift_result at 1.
  destruct (AudioEngine.as_time _); [|exact H].
  unfold bind at 1. unfold lift_result at 1.
  destruct (AudioEngine.as_float _); [|exact H].
  unfold AudioEngine.update, modify. cbn [snd].
  unfold Spec.engine_ok.
  cbn [audio set_audio isInitialized audioContext masterGain activeOscillators
       set_masterGain].
  rewrite Ei, Hc.
  split; [eexists _, _; split; reflexivity|]. split; [exact Hnodup|].
  rewrite <- Hc. exact Hctx.
Qed.

Lemma engine_onended (id : nat) :
  Spec.preserves (fun w => Spec.engine_ok (audio w)) (AudioEngine.onended id).
Proof.
  intros w H.
  destruct w as [a x v c co tr n ti tm nt j].
  destruct a as [ctx mg ini act env ty dv].
  unfold Spec.engine_ok in H. cbn in H. destruct H as [Hinit [Hnodup Hctx]].
  assert (Hfilter : forall P : nat -> Prop,
             Forall P act -> Forall P (filter (fun i => negb (Nat.eqb i id)) act)).
  { intros P HP. rewrite Forall_forall in *. intros i Hi.
    apply filter_In in Hi. apply HP. tauto. }
  destruct ctx as [c0|]; unfold Spec.engine_ok; cbn.
  - destruct (Hctx c0 eq_refl) as [Hids Hvoices]. split; [|split].
    + destruct ini.
      * destruct Hinit as [c1 [g [_ ->]]]. eexists _, _. split; reflexivity.
      * subst act. reflexivity.
    + apply NoDup_filter. exact Hnodup.
    + intros ctx' Hctx'. injection Hctx' as <-. cbn. split.
      * rewrite at_position_length. apply Hfilter. exact Hids.
      * apply at_position_forallb; [|exact Hvoices].
        intros v0 Hv0. exact Hv0.
  - split; [|split].
    + destruct ini.
      * destruct Hinit as [c1 [g [Hc _]]]. discriminate.
      * subst act. reflexivity.
    + apply NoDup_filter. exact Hnodup.
    + intros ctx' Hctx'. discriminate.
Qed.

Lemma engine_oscillator_stop (when : num) (id : nat) :
  Spec.preserves (fun w => Spec.engine_ok (audio w)) (AudioEngine.oscillator_stop when id).
Proof.
  intros w H.
  destruct w as [a x v c co tr n ti tm nt j].
  destruct a as [ctx mg ini act env ty dv].
  pose proof H as H0.
  unfold Spec.engine_ok in H. cbn in H. destruct H as [Hinit [Hnodup Hctx]].
  unfold AudioEngine.oscillator_stop, AudioEngine.this, AudioEngine.update,
    bind, gets, modify, ret, throw, lift_result. cbn.
  destruct ctx as [c0|]; [|exact H0].
  destruct (nth_error (voices c0) id) as [v0|]; [|exact H0].
  destruct when as [| | |q]; try exact H0.
  destruct (started (oscillator v0)); [|exact H0].
  destruct (AudioEngine.as_time (Fin q)) as [[]|e]; [|exact H0].
  destruct (Hctx c0 eq_refl) as [Hids Hvoices].
  unfold Spec.engine_ok. cbn. split; [|split].
  - destruct ini; [|exact Hinit].
    destruct Hinit as [c1 [g [_ ->]]]. eexists _, _. split; reflexivity.
  - exact Hnodup.
  - intros ctx' Hctx'. injection Hctx' as <-. cbn. split.
    + unfold AudioEngine.stop_voice. rewrite at_position_length. exact Hids.
    + apply at_position_forallb; [|exact Hvoices].
      intros v1. unfold Spec.voice_scheduled. cbn.
      destruct (started (oscillator v1)); [reflexivity|discriminate].
Qed.

(** The loop of [stopAllNotes] never throws. *)
Lemma stop_each_returns (when : num) (ids : list nat) :
  forall w : World,
    Spec.engine_ok (audio w) ->
    exists w' : World,
      AudioEngine.stop_each when ids w = (Ok tt, w') /\
      Spec.engine_ok (audio w') /\
      isInitialized (audio w') = isInitialized (audio w) /\
      activeOscillators (audio w') = activeOscillators (audio w).
Proof.
  induction ids as [|id ids IH]; intros w H.
  - exists w. split; [reflexivity|]. split; [exact H|]. split; reflexivity.
  - cbn [AudioEngine.stop_each].
    pose proof (@engine_oscillator_stop when id w H) as H1.
    assert (Hsame : isInitialized (audio (snd (AudioEngine.oscillator_stop when id w)))
                    = isInitialized (audio w) /\
                    activeOscillators (audio (snd (AudioEngine.oscillator_stop when id w)))
                    = activeOscillators (audio w)).
    { destruct w as [a x v c co tr n ti tm nt j].
      destruct a as [ctx mg ini act env ty dv].
      unfold AudioEngine.oscillator_stop, AudioEngine.this, AudioEngine.update,
        bind, gets, modify, ret, throw, lift_result. cbn.
      destruct ctx as [c0|]; [|split; reflexivity].
      destruct (nth_error (voices c0) id) as [v0|]; [|split; reflexivity].
      destruct when as [| | |q]; try (split; reflexivity).
      destruct (started (oscillator v0)); [|split; reflexivity].
      destruct (AudioEngine.as_time (Fin q)) as [[]|e]; split; reflexivity. }
    unfold bind at 1. unfold try_catch.
    destruct (AudioEngine.oscillator_stop when id w) as [[[]|e] w1]; cbn in H1, Hsame.
    + destruct (IH w1 H1) as [w' [Hrun [Hok [Hi Ha]]]].
      exists w'. split; [exact Hrun|]. split; [exact Hok|].
      destruct Hsame as [S1 S2]. split; congruence.
    + destruct (IH (set_console
                      (mkEntry Debug "Error stopping oscillator:" [] :: console_out w1) w1) H1)
        as [w' [Hrun [Hok [Hi Ha]]]].
      exists w'. split; [exact Hrun|]. split; [exact Hok|].
      destruct Hsame as [S1 S2]. cbn in Hi, Ha. split; congruence.
Qed.

(** [stopAllNotes] keeps the engine together and leaves no oscillator
    tracked. *)
Lemma stopAllNotes_empties (w : World) :
  Spec.engine_ok (audio w) ->
  Spec.engine_ok (audio (snd (AudioEngine.stopAllNotes w))) /\
  activeOscillators (audio (snd (AudioEngine.stopAllNotes w))) = [] /\
  isInitialized (audio (snd (AudioEngine.stopAllNotes w))) = isInitialized (audio w).
Proof.
  intro H.
  pose proof H as H0. destruct H0 as [Hinit [Hnodup Hctx]].
  destruct (isInitialized (audio w)) eqn:Ei.
  2:{ assert (E : AudioEngine.stopAllNotes w = (Ok tt, w)).
      { unfold AudioEngine.stopAllNotes, AudioEngine.this, bind, gets.
        rewrite Ei. reflexivity. }
      rewrite E. cbn. split; [exact H|]. split; [exact Hinit|exact Ei]. }
  destruct Hinit as [c0 [g [Hc Hg]]].
  destruct (@stop_each_returns (add (currentTime c0) (Fin (1 # 20)))
              (activeOscillators (audio w)) w H) as [w' [Hrun [Hok [Hi Ha]]]].
  assert (E : AudioEngine.stopAllNotes w
              = (Ok tt, set_audio (set_activeOscillators [] (audio w')) w')).
  { unfold AudioEngine.stopAllNotes, AudioEngine.this.
    unfold bind at 1. unfold gets at 1. rewrite Ei, Hc. cbn [negb].
    unfold bind. rewrite Hrun. reflexivity. }
  rewrite E. cbn [snd].
  destruct w' as [a x v c co tr n ti tm nt j].
  destruct a as [ctx mg ini act env ty dv]. cbn in *.
  split; [|split; [reflexivity|congruence]].
  destruct Hok as [Hinit' [Hnodup' Hctx']]. cbn in *.
  unfold Spec.engine_ok. cbn. split; [|split].
  - destruct ini; [exact Hinit'|reflexivity].
  - constructor.
  - intros ctx1 Hctx1. split; [constructor|]. apply (Hctx' ctx1 Hctx1).
Qed.

Lemma engine_stopAllNotes :
  Spec.preserves (fun w => Spec.engine_ok (audio w)) AudioEngine.stopAllNotes.
Proof. intros w H. apply stopAllNotes_empties. exact H. Qed.

Lemma engine_resume (fulfilled : bool) :
  Spec.preserves (fun w => Spec.engine_ok (audio w)) (AudioEngine.resume fulfilled).
Proof.
  intros w H.
  destruct w as [a x v c co tr n ti tm nt j].
  destruct a as [ctx mg ini act env ty dv].
  pose proof H as H0.
  unfold Spec.engine_ok in H. cbn in H. destruct H as [Hinit [Hnodup Hctx]].
  destruct ctx as [c0|]; [|exact H0].
  destruct c0 as [t st vs].
  destruct st; [destruct fulfilled| |]; try exact H0.
  unfold Spec.engine_ok. cbn. split; [|split].
  - destruct ini; [|exact Hinit].
    destruct Hinit as [c1 [g [_ ->]]]. eexists _, _. split; reflexivity.
  - exact Hnodup.
  - intros ctx' Hctx'. injection Hctx' as <-. cbn. apply (Hctx _ eq_refl).
Qed.

Lemma engine_dispose :
  Spec.preserves (fun w => Spec.engine_ok (audio w)) AudioEngine.dispose.
Proof.
  intros w H.
  unfold AudioEngine.dispose, AudioEngine.this.
  unfold bind at 1. unfold gets at 1. cbn beta.
  destruct (audioContext (audio w)) as [c0|] eqn:Ec; [|exact H].
  destruct (@stopAllNotes_empties w H) as [Hok [Hact _]].
  unfold try_catch. unfold bind at 1.
  destruct (AudioEngine.stopAllNotes w) as [[[]|e] w1]; cbn in Hok, Hact.
  2:{ exact Hok. }
  destruct w1 as [a x v c co tr n ti tm nt j].
  destruct a as [ctx mg ini act env ty dv]. cbn in Hact. subst act.
  destruct (state c0); try exact Hok.
  all: unfold Spec.engine_ok; cbn; (split; [reflexivity|]); (split; [constructor|]);
    intros ctx' Hctx'; discriminate.
Qed.

Lemma engine_getVolume :
  Spec.preserves (fun w => Spec.engine_ok (audio w)) AudioEngine.getVolume.
Proof. unfold AudioEngine.getVolume, AudioEngine.this. keep. Qed.

End Engine.

(** ** The page over any run of calls *)

Section Reachable.

Lemma sane_of_engine (bars : nat) (A : Type) (m : M World A) :
  Spec.preserves (fun w => Spec.engine_ok (audio w)) m ->
  (forall k, Spec.preserves (fun w => (xylo w, visual w, timers w) = k) m) ->
  Spec.preserves (Spec.sane bars) m.
Proof.
  intros H1 H2 w [Ha [Hx [Hv Ht]]].
  specialize (H1 w Ha). specialize (H2 _ w eq_refl). cbn beta in H1, H2.
  injection H2 as E1 E2 E3. unfold Spec.sane. rewrite E1, E2, E3. auto.
Qed.

Lemma beside_stop_each (P : World -> Prop) (when : num) (ids : list nat) :
  (forall (a : AudioEngineS.t) (w : World), P w -> P (set_audio a w)) ->
  (forall (l : console) (w : World), P w -> P (set_console l w)) ->
  Spec.preserves P (AudioEngine.stop_each when ids).
Proof.
  intros Ha Hc. induction ids as [|id ids IH]; cbn [AudioEngine.stop_each].
  - keep.
  - apply preserves_bind; [|intro; exact IH].
    apply preserves_try_catch.
    + unfold AudioEngine.oscillator_stop. keep.
      intros w H. apply Ha. exact H.
    + intro e. intros w H. apply Hc. exact H.
Qed.

Lemma sane_audio_playNote (bars : nat) (frequency : num) (duration : option num) :
  Spec.preserves (Spec.sane bars) (AudioEngine.playNote frequency duration).
Proof.
  apply sane_of_engine; [apply engine_playNote|].
  intro k. unfold AudioEngine.playNote. keep.
Qed.

Lemma sane_audio_initialize (bars : nat) (p : AudioEngine.Page) :
  Spec.preserves (Spec.sane bars) (AudioEngine.initialize p).
Proof.
  apply sane_of_engine; [apply engine_initialize|].
  intro k. unfold AudioEngine.initialize. keep.
Qed.

Lemma sane_audio_setVolume (bars : nat) (volume : num) :
  Spec.preserves (Spec.sane bars) (AudioEngine.setVolume volume).
Proof.
  apply sane_of_engine; [apply engine_setVolume|].
  intro k. unfold AudioEngine.setVolume. keep.
Qed.

Lemma sane_audio_onended (bars : nat) (id : nat) :
  Spec.preserves (Spec.sane bars) (AudioEngine.onended id).
Proof.
  apply sane_of_engine; [apply engine_onended|].
  intro k. unfold AudioEngine.onended. keep.
Qed.

Lemma sane_audio_stopAllNotes (bars : nat) :
  Spec.preserves (Spec.sane bars) AudioEngine.stopAllNotes.
Proof.
  apply sane_of_engine; [apply engine_stopAllNotes|].
  intro k. unfold AudioEngine.stopAllNotes. keep.
  apply beside_stop_each; intros; assumption.
Qed.

Lemma sane_audio_resume (bars : nat) (fulfilled : bool) :
  Spec.preserves (Spec.sane bars) (AudioEngine.resume fulfilled).
Proof.
  apply sane_of_engine; [apply engine_resume|].
  intro k. unfold AudioEngine.resume. keep.
Qed.

Lemma sane_audio_dispose (bars : nat) :
  Spec.preserves (Spec.sane bars) AudioEngine.dispose.
Proof.
  apply sane_of_engine; [apply engine_dispose|].
  intro k. unfold AudioEngine.dispose. keep.
  unfold AudioEngine.stopAllNotes. keep.
  apply beside_stop_each; intros; assumption.
Qed.

(** *** The registry *)

Lemma has_app (n : num) (s t : list num) :
  Xylophone.has n (s ++ t) = Xylophone.has n s || Xylophone.has n t.
Proof. unfold Xylophone.has. apply existsb_app. Qed.

Lemma distinct_snoc (i : num) (s : list num) :
  Spec.distinct s = true -> Xylophone.has i s = false -> Spec.distinct (s ++ [i]) = true.
Proof.
  induction s as [|n s IH]; intros Hd Hi; [reflexivity|].
  cbn in Hd, Hi |- *. apply andb_true_iff in Hd. destruct Hd as [Hn Hs].
  apply orb_false_iff in Hi. destruct Hi as [Hin His].
  rewrite has_app. cbn. rewrite (same_sym n i), Hin. cbn [orb]. rewrite orb_false_r, Hn.
  apply IH; assumption.
Qed.

Lemma distinct_set_add (i : num) (s : list num) :
  Spec.distinct s = true -> Spec.distinct (Xylophone.set_add i s) = true.
Proof.
  intro Hd. unfold Xylophone.set_add.
  destruct (Xylophone.has i s) eqn:E; [exact Hd|].
  apply distinct_snoc; assumption.
Qed.

Lemma has_filter (f : num -> bool) (n : num) (s : list num) :
  Xylophone.has n (filter f s) = true -> Xylophone.has n s = true.
Proof.
  unfold Xylophone.has. rewrite !existsb_exists.
  intros [m [Hm Hs]]. exists m. split; [|exact Hs].
  apply filter_In in Hm. tauto.
Qed.

Lemma distinct_filter (f : num -> bool) (s : list num) :
  Spec.distinct s = true -> Spec.distinct (filter f s) = true.
Proof.
  induction s as [|n s IH]; intro Hd; [reflexivity|].
  cbn in Hd |- *. apply andb_true_iff in Hd. destruct Hd as [Hn Hs].
  destruct (f n); [|apply IH; exact Hs].
  cbn. rewrite (IH Hs), andb_true_r.
  destruct (Xylophone.has n (filter f s)) eqn:E; [|reflexivity].
  apply has_filter in E. rewrite E in Hn. discriminate.
Qed.

Lemma forallb_filter (A : Type) (p f : A -> bool) (s : list A) :
  forallb p s = true -> forallb p (filter f s) = true.
Proof.
  rewrite !forallb_forall. intros H a Ha. apply filter_In in Ha. apply H. tauto.
Qed.

(** An index at which an array of [n] elements has an element is a whole
    number from 0 up to [n]. *)
Lemma element_valid (A : Type) (l : list A) (i : num) (a : A) :
  Xylophone.element l i = Some a -> Spec.valid_index (List.length l) i = true.
Proof.
  destruct i as [| | |q]; try discriminate.
  unfold Xylophone.element, Spec.valid_index.
  destruct (is_integer (Fin q)) eqn:Hint; [|discriminate].
  cbn [andb ge le int].
  destruct (Qle_bool 0 q) eqn:Hge; [|discriminate].
  cbn [andb]. intro Hnth.
  assert (Hlen : (Z.to_nat (Qnum (Qred q)) < List.length l)%nat).
  { apply nth_error_Some. congruence. }
  cbv [is_integer] in Hint. apply Pos.eqb_eq in Hint.
  apply Qle_bool_iff in Hge.
  assert (Hq : (q == inject_Z (Qnum (Qred q)))%Q).
  { rewrite <- (Qred_correct q) at 1.
    destruct (Qred q) as [z d]. cbn in *. subst d. reflexivity. }
  cbn [lt int].
  apply Qltb_true. rewrite Hq in Hge |- *.
  unfold Qle, Qlt, inject_Z in *. cbn in *. lia.
Qed.

Lemma sane_set_xylo (bars : nat) (w : World) (x : XylophoneS.t) :
  Spec.sane bars w -> Spec.registry_ok x -> Spec.sane bars (set_xylo x w).
Proof.
  intros [Ha [_ [Hv Ht]]] Hx.
  split; [exact Ha|]. split; [exact Hx|]. split; [exact Hv|exact Ht].
Qed.

Lemma sane_set_timers (bars : nat) (w : World) (l : list timer) (n : nat) :
  Spec.sane bars w -> Forall (Spec.timer_ok bars) l -> Spec.sane bars (set_timers l n w).
Proof.
  intros [Ha [Hx [Hv _]]] Ht.
  split; [exact Ha|]. split; [exact Hx|]. split; [exact Hv|exact Ht].
Qed.

Lemma sane_setTimeout (bars : nat) (cb : callback) (delay : num) :
  Spec.timer_ok bars (mkTimer 0 delay cb) ->
  Spec.preserves (Spec.sane bars) (Browser.setTimeout cb delay).
Proof.
  intros Hcb w H. cbn. apply sane_set_timers; [exact H|].
  apply Forall_app. split; [apply H|]. constructor; [exact Hcb|constructor].
Qed.

Lemma sane_clearTimeout (bars : nat) (id : nat) :
  Spec.preserves (Spec.sane bars) (Browser.clearTimeout id).
Proof.
  intros w H. cbn. apply sane_set_timers; [exact H|].
  destruct H as [_ [_ [_ Ht]]].
  rewrite Forall_forall in *. intros t Hin. apply filter_In in Hin. apply Ht. tauto.
Qed.

Lemma registry_set_activeNotes (x : XylophoneS.t) (l : list num) :
  Spec.registry_ok x ->
  Spec.distinct l = true ->
  forallb (Spec.valid_index 11) l = true ->
  Spec.registry_ok (XylophoneS.set_activeNotes l x).
Proof.
  intros [Hn [Hk [Hd [Hp _]]]] Hdis Hval.
  destruct x as [ns km nd an mp]. cbn in Hn, Hk, Hd, Hp.
  split; [exact Hn|]. split; [exact Hk|]. split; [exact Hd|]. split; [exact Hp|].
  split; [exact Hdis|exact Hval].
Qed.

Lemma sane_xylo_playNote (bars : nat) (i : num) :
  Spec.preserves (Spec.sane bars) (Xylophone.playNote i).
Proof.
  intros w H.
  unfold Xylophone.playNote, Xylophone.this.
  unfold bind at 1. unfold gets at 1. cbn beta.
  destruct (lt i (int 0) || ge i (Xylophone.size (XylophoneS.notes (xylo w)))) eqn:Hrange;
    [exact H|].
  destruct (ge (Xylophone.size (XylophoneS.activeNotes (xylo w)))
               (XylophoneS.maxPolyphony (xylo w))); [exact H|].
  destruct (Xylophone.element (XylophoneS.notes (xylo w)) i) as [note|] eqn:Hnote;
    [|exact H].
  pose proof (@sane_audio_playNote bars (XylophoneS.frequency note)
                (Some (XylophoneS.noteDuration (xylo w))) w H) as H1.
  destruct (AudioEngine_playNote_frame (XylophoneS.frequency note)
              (Some (XylophoneS.noteDuration (xylo w))) w) as [b [a' [co' Hplay]]].
  rewrite Hplay in H1. cbn [snd] in H1.
  rewrite (bind_ok _ Hplay). clear Hplay.
  destruct b; [|exact H1].
  cbn. apply sane_set_timers.
  - apply sane_set_xylo; [exact H1|].
    destruct H as [_ [Hx _]]. pose proof Hx as [Hn [_ [_ [_ [Hdis Hval]]]]].
    apply element_valid in Hnote. rewrite Hn in Hnote.
    apply registry_set_activeNotes; [exact Hx| |].
    + apply distinct_set_add. exact Hdis.
    + unfold Xylophone.set_add.
      destruct (Xylophone.has i (XylophoneS.activeNotes (xylo w))); [exact Hval|].
      rewrite forallb_app, Hval. cbn. rewrite andb_true_r. exact Hnote.
  - apply Forall_app. split; [apply H1|]. constructor; [exact I|constructor].
Qed.

Lemma sane_xylo_delete_active (bars : nat) (i : num) :
  Spec.preserves (Spec.sane bars) (Xylophone.delete_active i).
Proof.
  intros w H. cbn. apply sane_set_xylo; [exact H|].
  destruct H as [_ [Hx _]]. pose proof Hx as [_ [_ [_ [_ [Hdis Hval]]]]].
  apply registry_set_activeNotes; [exact Hx| |].
  - apply distinct_filter. exact Hdis.
  - apply forallb_filter. exact Hval.
Qed.

Lemma sane_xylo_setNoteDuration (bars : nat) (d : num) :
  Spec.preserves (Spec.sane bars) (Xylophone.setNoteDuration d).
Proof.
  intros w H. unfold Xylophone.setNoteDuration.
  destruct (gt d (int 0) && le d (int 10)) eqn:E; [|exact H].
  cbn. apply sane_set_xylo; [exact H|].
  destruct H as [_ [[Hn [Hk [Hd [Hp [Hdis Hval]]]]] _]].
  destruct (xylo w) as [ns km nd an mp]. cbn in Hn, Hk, Hd, Hp, Hdis, Hval.
  split; [exact Hn|]. split; [exact Hk|]. split; [exact E|]. split; [exact Hp|].
  split; [exact Hdis|exact Hval].
Qed.

Lemma sane_xylo_setMaxPolyphony (bars : nat) (n : num) :
  Spec.preserves (Spec.sane bars) (Xylophone.setMaxPolyphony n).
Proof.
  intros w H. unfold Xylophone.setMaxPolyphony.
  destruct (gt n (int 0) && le n (int 50)) eqn:E; [|exact H].
  cbn. apply sane_set_xylo; [exact H|].
  destruct H as [_ [[Hn [Hk [Hd [Hp [Hdis Hval]]]]] _]].
  destruct (xylo w) as [ns km nd an mp]. cbn in Hn, Hk, Hd, Hp, Hdis, Hval.
  split; [exact Hn|]. split; [exact Hk|]. split; [exact Hd|]. split; [exact E|].
  split; [exact Hdis|exact Hval].
Qed.

Lemma sane_xylo_stopAllNotes (bars : nat) :
  Spec.preserves (Spec.sane bars) Xylophone.stopAllNotes.
Proof.
  unfold Xylophone.stopAllNotes.
  apply preserves_bind; [apply sane_audio_stopAllNotes|].
  intros _ w H. cbn. apply sane_set_xylo; [exact H|].
  destruct H as [_ [Hx _]].
  apply registry_set_activeNotes; [exact Hx|reflexivity|reflexivity].
Qed.

(** *** The bars *)

Lemma same_left (a b c : num) : same a b = true -> same a c = same b c.
Proof.
  intro Hab.
  destruct (same b c) eqn:Hbc.
  - apply (@same_trans a b c Hab Hbc).
  - destruct (same a c) eqn:Hac; [|reflexivity].
    rewrite same_sym in Hab. rewrite <- Hbc. symmetry.
    apply (@same_trans b a c Hab Hac).
Qed.

Lemma same_int_nat (i k : nat) :
  same (int (Z.of_nat i)) (int (Z.of_nat k)) = Nat.eqb i k.
Proof.
  unfold same, int.
  destruct (Nat.eqb i k) eqn:E.
  - apply Nat.eqb_eq in E. subst. apply Qeq_bool_iff. reflexivity.
  - apply Nat.eqb_neq in E.
    destruct (Qeq_bool (Z.of_nat i # 1) (Z.of_nat k # 1)) eqn:Q; [|reflexivity].
    apply Qeq_bool_iff in Q. unfold Qeq in Q. cbn in Q. lia.
Qed.

(** A valid index is a finite number, the same as the whole number of its
    position, which lies within the bars. *)
Lemma valid_position (b : nat) (n : num) :
  Spec.valid_index b n = true ->
  exists q : Q,
    n = Fin q /\
    (Z.to_nat (Qnum (Qred q)) < b)%nat /\
    same n (int (Z.of_nat (Z.to_nat (Qnum (Qred q))))) = true.
Proof.
  unfold Spec.valid_index. intro H.
  apply andb_true_iff in H. destruct H as [H Hlt].
  apply andb_true_iff in H. destruct H as [Hint Hge].
  destruct n as [| | |q]; try discriminate.
  exists q. split; [reflexivity|].
  cbv [is_integer] in Hint. apply Pos.eqb_eq in Hint.
  cbv [ge le int] in Hge. apply Qle_bool_iff in Hge.
  cbv [lt int] in Hlt. apply Qltb_true in Hlt.
  assert (Hq : (q == inject_Z (Qnum (Qred q)))%Q).
  { rewrite <- (Qred_correct q) at 1.
    destruct (Qred q) as [z d]. cbn in *. subst d. reflexivity. }
  rewrite Hq in Hge, Hlt. unfold Qle, Qlt, inject_Z in Hge, Hlt. cbn in Hge, Hlt.
  split; [lia|].
  unfold same, int. apply Qeq_bool_iff. rewrite Hq at 1.
  unfold inject_Z. rewrite Z2Nat.id by lia. reflexivity.
Qed.

Lemma valid_same (b : nat) (n m : num) :
  same n m = true -> Spec.valid_index b m = true -> Spec.valid_index b n = true.
Proof.
  intros Hs Hm.
  destruct n as [| | |p], m as [| | |q]; try discriminate.
  cbn in Hs. apply Qeq_bool_iff in Hs.
  unfold Spec.valid_index in *.
  apply andb_true_iff in Hm. destruct Hm as [Hm Hlt].
  apply andb_true_iff in Hm. destruct Hm as [Hint Hge].
  cbv [is_integer] in Hint |- *.
  rewrite (Qred_complete _ _ Hs), Hint. cbn [andb].
  cbv [ge le int] in Hge |- *. apply Qle_bool_iff in Hge.
  cbv [lt int] in Hlt |- *. apply Qltb_true in Hlt.
  apply andb_true_iff. split.
  - apply Qle_bool_iff. rewrite Hs. exact Hge.
  - apply Qltb_true. rewrite Hs. exact Hlt.
Qed.

Lemma set_nth_length (A : Type) (a : A) (l : list A) :
  forall i : nat, List.length (VisualFeedback.set_nth i a l) = List.length l.
Proof.
  induction l as [|x l IH]; intros [|i]; cbn; try reflexivity.
  rewrite IH. reflexivity.
Qed.

Lemma set_nth_nth (A : Type) (a d : A) (l : list A) :
  forall i j : nat,
    (i < List.length l)%nat ->
    nth j (VisualFeedback.set_nth i a l) d = if Nat.eqb j i then a else nth j l d.
Proof.
  induction l as [|x l IH]; intros i j Hi; [cbn in Hi; lia|].
  destruct i as [|i], j as [|j]; cbn; try reflexivity.
  apply IH. cbn in Hi. lia.
Qed.

Lemma has_key_keys (n : num) (m : list (num * nat)) :
  Xylophone.has n (map fst m) = Spec.has_key n m.
Proof.
  unfold Xylophone.has, Spec.has_key.
  induction m as [|[k id] m IH]; [reflexivity|]. cbn. rewrite IH. reflexivity.
Qed.

Lemma has_key_app (n : num) (s t : list (num * nat)) :
  Spec.has_key n (s ++ t) = Spec.has_key n s || Spec.has_key n t.
Proof. unfold Spec.has_key. apply existsb_app. Qed.

(** [map.delete(n)] takes away the entry of [n] and of no other key. *)
Lemma has_key_delete (n m : num) (l : list (num * nat)) :
  Spec.has_key m (filter (fun kt => negb (same n (fst kt))) l)
  = negb (same n m) && Spec.has_key m l.
Proof.
  unfold Spec.has_key.
  induction l as [|[k id] l IH]; [cbn; rewrite andb_false_r; reflexivity|].
  cbn [filter fst existsb].
  destruct (same n k) eqn:Hnk; cbn [negb].
  - rewrite IH. rewrite (same_sym m k), <- (@same_left n k m Hnk).
    destruct (same n m) eqn:Hnm; cbn [negb andb orb]; reflexivity.
  - cbn [existsb fst]. rewrite IH.
    destruct (same n m) eqn:Hnm; cbn [negb andb]; [|reflexivity].
    rewrite <- (@same_left n m k Hnm), Hnk. reflexivity.
Qed.

Lemma delete_delete (n : num) (l : list (num * nat)) :
  filter (fun kt => negb (same n (fst kt)))
         (filter (fun kt => negb (same n (fst kt))) l)
  = filter (fun kt => negb (same n (fst kt))) l.
Proof.
  induction l as [|[k id] l IH]; [reflexivity|].
  cbn [filter fst]. destruct (same n k) eqn:E; cbn [negb]; [exact IH|].
  cbn [filter fst]. rewrite E. cbn [negb]. rewrite IH. reflexivity.
Qed.

Lemma keys_delete (f : num * nat -> bool) (l : list (num * nat)) :
  Spec.distinct (map fst l) = true -> Spec.distinct (map fst (filter f l)) = true.
Proof.
  induction l as [|[k id] l IH]; intro Hd; [reflexivity|].
  cbn in Hd |- *. apply andb_true_iff in Hd. destruct Hd as [Hk Hl].
  destruct (f (k, id)); [|apply IH; exact Hl].
  cbn. rewrite (IH Hl), andb_true_r.
  destruct (Xylophone.has k (map fst (filter f l))) eqn:E; [|reflexivity].
  exfalso. unfold Xylophone.has in E, Hk. apply existsb_exists in E.
  destruct E as [m [Hm Hs]]. apply in_map_iff in Hm. destruct Hm as [[k' id'] [<- Hin]].
  apply filter_In in Hin. destruct Hin as [Hin _].
  assert (Hex : existsb (same k) (map fst l) = true).
  { apply existsb_exists. exists k'. split; [|exact Hs].
    apply in_map_iff. exists (k', id'). split; [reflexivity|exact Hin]. }
  rewrite Hex in Hk. discriminate.
Qed.

Lemma keys_valid_delete (b : nat) (f : num * nat -> bool) (l : list (num * nat)) :
  forallb (Spec.valid_index b) (map fst l) = true ->
  forallb (Spec.valid_index b) (map fst (filter f l)) = true.
Proof.
  rewrite !forallb_forall. intros H k Hk.
  apply in_map_iff in Hk. destruct Hk as [[k' id] [<- Hin]].
  apply filter_In in Hin. apply H. apply in_map_iff. exists (k', id). tauto.
Qed.

(** The visual feedback after the class of bar [n] has been set to [on] and
    the map holds an entry for [n] exactly if [on]. *)
Lemma visual_ok_set (b : nat) (v : VisualFeedbackS.t) (n : num) (id : nat)
      (kept : list (num * nat)) (on : bool) :
  Spec.visual_ok b v ->
  Spec.valid_index b n = true ->
  filter (fun kt => negb (same n (fst kt))) kept
  = filter (fun kt => negb (same n (fst kt))) (VisualFeedbackS.activeTimeouts v) ->
  Spec.visual_ok b
    (VisualFeedbackS.mk
       (VisualFeedback.set_class n on (VisualFeedbackS.barElements v))
       (VisualFeedbackS.activeDuration v)
       (filter (fun kt => negb (same n (fst kt))) kept
          ++ (if on then [(n, id)] else []))
       (VisualFeedbackS.isInitialized v)).
Proof.
  intros [Hlen [Hdis [Hval [Hbars [Hdur Hini]]]]] Hn Hkept.
  destruct v as [B dur T ini].
  cbn [VisualFeedbackS.barElements VisualFeedbackS.activeDuration
       VisualFeedbackS.activeTimeouts VisualFeedbackS.isInitialized] in *.
  rewrite Hkept. clear Hkept kept.
  destruct (@valid_position b n Hn) as [q [Hq [Hpos Hsame]]].
  set (k := Z.to_nat (Qnum (Qred q))) in *.
  assert (Hclass : VisualFeedback.set_class n on B = VisualFeedback.set_nth k on B).
  { rewrite Hq. reflexivity. }
  unfold Spec.visual_ok.
  cbn [VisualFeedbackS.barElements VisualFeedbackS.activeDuration
       VisualFeedbackS.activeTimeouts VisualFeedbackS.isInitialized].
  rewrite Hclass.
  split; [rewrite set_nth_length; exact Hlen|].
  split; [|split; [|split; [|split; [exact Hdur|exact Hini]]]].
  - rewrite List.map_app. destruct on; cbn [map fst].
    + apply distinct_snoc; [apply keys_delete; exact Hdis|].
      rewrite has_key_keys, has_key_delete, same_refl. reflexivity.
    + rewrite List.app_nil_r. apply keys_delete. exact Hdis.
  - rewrite List.map_app, forallb_app. apply andb_true_iff. split.
    + apply keys_valid_delete. exact Hval.
    + destruct on; cbn [map fst forallb]; [rewrite Hn|]; reflexivity.
  - intros i Hi.
    rewrite set_nth_nth by lia.
    rewrite has_key_app, has_key_delete.
    rewrite (@same_left _ _ (int (Z.of_nat i)) Hsame), same_int_nat, (Nat.eqb_sym k i).
    assert (Hone : forall m : num, Spec.has_key m [(n, id)] = same m n).
    { intro m. unfold Spec.has_key. cbn [existsb fst]. apply orb_false_r. }
    assert (Hnone : forall m : num, Spec.has_key m (@nil (num * nat)) = false)
      by reflexivity.
    destruct (Nat.eqb i k) eqn:E; cbn [negb andb orb].
    + apply Nat.eqb_eq in E. subst i.
      destruct on; [|rewrite Hnone; reflexivity].
      rewrite Hone, same_sym, Hsame. reflexivity.
    + rewrite (Hbars i Hi).
      destruct on; [|rewrite Hnone, orb_false_r; reflexivity].
      rewrite Hone, same_sym, (@same_left _ _ (int (Z.of_nat i)) Hsame).
      rewrite same_int_nat, Nat.eqb_sym, E, orb_false_r. reflexivity.
Qed.
Lemma sane_set_visual (bars : nat) (w : World) (v : VisualFeedbackS.t) :
  Spec.sane bars w -> Spec.visual_ok bars v -> Spec.sane bars (set_visual v w).
Proof.
  intros [Ha [Hx [_ Ht]]] Hv.
  split; [exact Ha|]. split; [exact Hx|]. split; [exact Hv|exact Ht].
Qed.

Lemma valid_element (A : Type) (l : list A) (n : num) :
  Spec.valid_index (List.length l) n = true ->
  exists a : A, Xylophone.element l n = Some a.
Proof.
  unfold Spec.valid_index. intro H.
  apply andb_true_iff in H. destruct H as [H Hlt].
  apply andb_true_iff in H. destruct H as [Hint Hge].
  apply element_in_range; [exact Hint|exact Hge|].
  destruct n as [| | |q]; try discriminate.
  cbv [lt int] in Hlt. apply Qltb_true in Hlt.
  cbv [ge le Xylophone.size int].
  destruct (Qle_bool (Z.of_nat (List.length l) # 1) q) eqn:E; [|reflexivity].
  apply Qle_bool_iff in E. lra.
Qed.

Lemma timers_cleared (bars : nat) (id : nat) (l : list timer) :
  Forall (Spec.timer_ok bars) l ->
  Forall (Spec.timer_ok bars) (filter (fun t => negb (Nat.eqb (timer_id t) id)) l).
Proof.
  rewrite !Forall_forall. intros H t Hin. apply filter_In in Hin. apply H. tauto.
Qed.

(** The entry [activateBar] and [deactivateBar] find for a bar, if any, is
    the entry of a bar of the page. *)
Lemma found_valid (bars : nat) (v : VisualFeedbackS.t) (n k : num) (id : nat) :
  Spec.visual_ok bars v ->
  find (fun kt => same n (fst kt)) (VisualFeedbackS.activeTimeouts v) = Some (k, id) ->
  Spec.valid_index bars n = true.
Proof.
  intros [_ [_ [Hval _]]] Hfind.
  apply find_some in Hfind. destruct Hfind as [Hin Hs]. cbn in Hs.
  apply (@valid_same bars n k Hs).
  rewrite forallb_forall in Hval. apply Hval.
  apply in_map_iff. exists (k, id). split; [reflexivity|exact Hin].
Qed.

Lemma sane_ext (bars : nat) (w w' : World) :
  Spec.sane bars w ->
  audio w' = audio w ->
  xylo w' = xylo w ->
  Spec.visual_ok bars (visual w') ->
  Forall (Spec.timer_ok bars) (timers w') ->
  Spec.sane bars w'.
Proof.
  intros [Ha [Hx _]] Ea Ex Hv Ht. unfold Spec.sane. rewrite Ea, Ex.
  split; [exact Ha|]. split; [exact Hx|]. split; [exact Hv|exact Ht].
Qed.

Lemma not_found_delete (n : num) (l : list (num * nat)) :
  find (fun kt => same n (fst kt)) l = None ->
  filter (fun kt => negb (same n (fst kt))) l = l.
Proof.
  induction l as [|[k id] l IH]; intro Hfind; [reflexivity|].
  cbn [find filter fst] in Hfind |- *.
  destruct (same n k); [discriminate|]. cbn [negb]. rewrite (IH Hfind). reflexivity.
Qed.

Lemma sane_activateBar (bars : nat) (n : num) :
  Spec.preserves (Spec.sane bars) (VisualFeedback.activateBar n).
Proof.
  intros w H.
  pose proof H as [_ [_ [Hv Ht]]]. pose proof Hv as [Hlen _].
  unfold VisualFeedback.activateBar, VisualFeedback.this.
  unfold bind at 1. unfold gets at 1. cbn beta.
  destruct (negb (VisualFeedbackS.isInitialized (visual w))); [exact H|].
  destruct (lt n (int 0)
            || ge n (Xylophone.size (VisualFeedbackS.barElements (visual w)))); [exact H|].
  destruct (Xylophone.element (VisualFeedbackS.barElements (visual w)) n) as [bar|] eqn:Hel.
  - pose proof (@element_valid _ _ _ _ Hel) as Hn. rewrite Hlen in Hn.
    destruct (find (fun kt => same n (fst kt))
                   (VisualFeedbackS.activeTimeouts (visual w))) as [[k id]|] eqn:Hfind.
    + apply (@sane_ext bars w _ H); [reflexivity|reflexivity| |].
      * pose proof (@visual_ok_set bars (visual w) n (next_timer w)
                      (filter (fun kt => negb (same n (fst kt)))
                              (VisualFeedbackS.activeTimeouts (visual w)))
                      true Hv Hn (delete_delete _ _)) as Hon.
        cbn. destruct (visual w) as [B dur T ini]. cbn in Hon |- *. exact Hon.
      * cbn. apply Forall_app. split; [apply timers_cleared; exact Ht|].
        constructor; [exact Hn|constructor].
    + apply (@sane_ext bars w _ H); [reflexivity|reflexivity| |].
      * pose proof (@visual_ok_set bars (visual w) n (next_timer w)
                      (VisualFeedbackS.activeTimeouts (visual w))
                      true Hv Hn eq_refl) as Hon.
        cbn. destruct (visual w) as [B dur T ini]. cbn in Hon |- *. exact Hon.
      * cbn. apply Forall_app. split; [exact Ht|].
        constructor; [exact Hn|constructor].
  - destruct (find (fun kt => same n (fst kt))
                   (VisualFeedbackS.activeTimeouts (visual w))) as [[k id]|] eqn:Hfind;
      [|exact H].
    pose proof (@found_valid bars (visual w) n k id Hv Hfind) as Hn. rewrite <- Hlen in Hn.
    destruct (@valid_element _ _ _ Hn) as [a Ha]. congruence.
Qed.

Lemma sane_deactivateBar (bars : nat) (n : num) :
  Spec.preserves (Spec.sane bars) (VisualFeedback.deactivateBar n).
Proof.
  intros w H.
  pose proof H as [_ [_ [Hv Ht]]]. pose proof Hv as [Hlen _].
  unfold VisualFeedback.deactivateBar, VisualFeedback.this.
  unfold bind at 1. unfold gets at 1. cbn beta.
  destruct (negb (VisualFeedbackS.isInitialized (visual w))); [exact H|].
  destruct (lt n (int 0)
            || ge n (Xylophone.size (VisualFeedbackS.barElements (visual w)))); [exact H|].
  destruct (Xylophone.element (VisualFeedbackS.barElements (visual w)) n) as [bar|] eqn:Hel.
  - pose proof (@element_valid _ _ _ _ Hel) as Hn. rewrite Hlen in Hn.
    pose proof (@visual_ok_set bars (visual w) n 0%nat
                  (VisualFeedbackS.activeTimeouts (visual w)) false Hv Hn eq_refl) as Hoff.
    rewrite List.app_nil_r in Hoff.
    destruct (find (fun kt => same n (fst kt))
                   (VisualFeedbackS.activeTimeouts (visual w))) as [[k id]|] eqn:Hfind.
    + apply (@sane_ext bars w _ H); [reflexivity|reflexivity| |].
      * cbn. destruct (visual w) as [B dur T ini]. cbn in Hoff |- *. exact Hoff.
      * cbn. apply timers_cleared. exact Ht.
    + apply (@sane_ext bars w _ H); [reflexivity|reflexivity| |exact Ht].
      rewrite (@not_found_delete _ _ Hfind) in Hoff.
      cbn. destruct (visual w) as [B dur T ini]. cbn in Hoff |- *. exact Hoff.
  - destruct (find (fun kt => same n (fst kt))
                   (VisualFeedbackS.activeTimeouts (visual w))) as [[k id]|] eqn:Hfind;
      [|exact H].
    pose proof (@found_valid bars (visual w) n k id Hv Hfind) as Hn. rewrite <- Hlen in Hn.
    destruct (@valid_element _ _ _ Hn) as [a Ha]. congruence.
Qed.

Lemma sane_remove_active (bars : nat) (n : num) :
  Spec.valid_index bars n = true ->
  Spec.preserves (Spec.sane bars) (VisualFeedback.remove_active n).
Proof.
  intros Hn w H. pose proof H as [_ [_ [Hv Ht]]].
  pose proof (@visual_ok_set bars (visual w) n 0%nat
                (VisualFeedbackS.activeTimeouts (visual w)) false Hv Hn eq_refl) as Hoff.
  rewrite List.app_nil_r in Hoff.
  apply (@sane_ext bars w _ H); [reflexivity|reflexivity| |exact Ht].
  cbn. destruct (visual w) as [B dur T ini]. cbn in Hoff |- *. exact Hoff.
Qed.

Lemma sane_setActiveDuration (bars : nat) (d : num) :
  Spec.preserves (Spec.sane bars) (VisualFeedback.setActiveDuration d).
Proof.
  intros w H. unfold VisualFeedback.setActiveDuration.
  destruct (gt d (int 0) && le d (int 2000)) eqn:E; [|exact H].
  cbn. apply sane_set_visual; [exact H|].
  destruct H as [_ [_ [[Hlen [Hdis [Hval [Hbars [Hdur Hini]]]]] _]]].
  split; [exact Hlen|]. split; [exact Hdis|]. split; [exact Hval|].
  split; [exact Hbars|]. split; [exact E|exact Hini].
Qed.
(** The loop of [deactivateAllBars] over entries of bars of the page: it
    does not throw, it takes the class from the bars of these entries and
    from no other bar, and it leaves the map itself alone. *)
Lemma clear_each_runs (bars : nat) (entries : list (num * nat)) :
  forall w : World,
    List.length (VisualFeedbackS.barElements (visual w)) = bars ->
    forallb (Spec.valid_index bars) (map fst entries) = true ->
    Forall (Spec.timer_ok bars) (timers w) ->
    exists w' : World,
      VisualFeedback.clear_each entries w = (Ok tt, w') /\
      audio w' = audio w /\ xylo w' = xylo w /\
      Forall (Spec.timer_ok bars) (timers w') /\
      List.length (VisualFeedbackS.barElements (visual w')) = bars /\
      VisualFeedbackS.activeDuration (visual w') = VisualFeedbackS.activeDuration (visual w) /\
      VisualFeedbackS.activeTimeouts (visual w') = VisualFeedbackS.activeTimeouts (visual w) /\
      VisualFeedbackS.isInitialized (visual w') = VisualFeedbackS.isInitialized (visual w) /\
      (forall i : nat,
          (i < bars)%nat ->
          nth i (VisualFeedbackS.barElements (visual w')) false
          = nth i (VisualFeedbackS.barElements (visual w)) false
            && negb (Spec.has_key (int (Z.of_nat i)) entries)).
Proof.
  induction entries as [|[k id] entries IH]; intros w Hlen Hval Ht.
  - exists w. split; [reflexivity|]. repeat split; try assumption.
    intros i Hi. cbn. rewrite andb_true_r. reflexivity.
  - cbn [map fst forallb] in Hval. apply andb_true_iff in Hval. destruct Hval as [Hk Hval].
    destruct (@valid_position bars k Hk) as [q [Hq [Hpos Hsame]]].
    set (p := Z.to_nat (Qnum (Qred q))) in *.
    pose proof Hk as Hel. rewrite <- Hlen in Hel.
    destruct (@valid_element _ _ _ Hel) as [bar Hbar].
    set (w2 := set_visual
                 (VisualFeedbackS.set_barElements
                    (VisualFeedback.set_nth p false (VisualFeedbackS.barElements (visual w)))
                    (visual w))
                 (set_timers (filter (fun t => negb (Nat.eqb (timer_id t) id)) (timers w))
                             (next_timer w) w)).
    assert (Hstep : VisualFeedback.clear_each ((k, id) :: entries) w
                    = VisualFeedback.clear_each entries w2).
    { cbn [VisualFeedback.clear_each].
      unfold bind at 1. unfold Browser.clearTimeout at 1. unfold modify at 1.
      unfold bind at 1.
      unfold bind at 1. unfold VisualFeedback.this at 1. unfold gets at 1.
      cbn [visual set_timers]. rewrite Hbar.
      unfold VisualFeedback.update, modify. subst w2. rewrite Hq. reflexivity. }
    destruct (IH w2) as [w' [Hrun [Ea [Ex [Ht' [Hlen' [Hd' [HT' [Hi' Hbars']]]]]]]]].
    + subst w2. destruct (visual w) as [B dur T ini]. cbn in Hlen |- *.
      rewrite set_nth_length. exact Hlen.
    + exact Hval.
    + subst w2. cbn. apply timers_cleared. exact Ht.
    + exists w'. split; [rewrite Hstep; exact Hrun|].
      split; [rewrite Ea; reflexivity|]. split; [rewrite Ex; reflexivity|].
      split; [exact Ht'|]. split; [exact Hlen'|].
      subst w2. destruct (visual w) as [B dur T ini].
      cbn in Hd', HT', Hi', Hbars', Hlen.
      cbn [VisualFeedbackS.barElements VisualFeedbackS.activeDuration
           VisualFeedbackS.activeTimeouts VisualFeedbackS.isInitialized].
      split; [exact Hd'|]. split; [exact HT'|]. split; [exact Hi'|].
      intros i Hi. rewrite (Hbars' i Hi).
      rewrite set_nth_nth by lia.
      change (Spec.has_key (int (Z.of_nat i)) ((k, id) :: entries))
        with (same (int (Z.of_nat i)) k || Spec.has_key (int (Z.of_nat i)) entries).
      rewrite (same_sym (int (Z.of_nat i)) k),
        (@same_left _ _ (int (Z.of_nat i)) Hsame), same_int_nat, (Nat.eqb_sym p i).
      destruct (Nat.eqb i p); cbn [negb andb orb]; [|reflexivity].
      rewrite andb_false_r. reflexivity.
Qed.

Lemma sane_deactivateAllBars (bars : nat) :
  Spec.preserves (Spec.sane bars) VisualFeedback.deactivateAllBars.
Proof.
  intros w H.
  pose proof H as [_ [_ [Hv Ht]]].
  pose proof Hv as [Hlen [Hdis [Hval [Hbars [Hdur Hini]]]]].
  unfold VisualFeedback.deactivateAllBars, VisualFeedback.this.
  unfold bind at 1. unfold gets at 1. cbn beta.
  destruct (negb (VisualFeedbackS.isInitialized (visual w))); [exact H|].
  destruct (@clear_each_runs bars (VisualFeedbackS.activeTimeouts (visual w)) w Hlen Hval Ht)
    as [w' [Hrun [Ea [Ex [Ht' [Hlen' [Hd' [HT' [Hi' Hbars']]]]]]]]].
  rewrite (bind_ok _ Hrun).
  apply (@sane_ext bars w _ H); [exact Ea|exact Ex| |exact Ht'].
  cbn. destruct (visual w') as [B' dur' T' ini'].
  cbn in Hlen', Hd', HT', Hi', Hbars' |- *.
  split; [exact Hlen'|]. split; [reflexivity|]. split; [reflexivity|].
  split; [|split; [rewrite Hd'; exact Hdur|rewrite Hi'; exact Hini]].
  intros i Hi. cbn. rewrite (Hbars' i Hi), (Hbars i Hi).
  apply andb_negb_r.
Qed.

(** *** Every call *)

#[local] Hint Resolve
  sane_audio_playNote sane_audio_initialize sane_audio_setVolume sane_audio_onended
  sane_audio_stopAllNotes sane_audio_resume sane_audio_dispose
  sane_xylo_playNote sane_xylo_delete_active sane_xylo_setNoteDuration
  sane_xylo_setMaxPolyphony sane_xylo_stopAllNotes
  sane_activateBar sane_deactivateBar sane_deactivateAllBars sane_setActiveDuration
  sane_remove_active sane_setTimeout sane_clearTimeout : keep.
#[local] Hint Extern 1 (Spec.timer_ok _ _) => exact I : keep.

Lemma sane_playFrom (bars : nat) (fuel : nat) :
  forall (startTime : num) (i : nat) (awaited : option Js.value),
    Spec.preserves (Spec.sane bars) (Controls.playFrom fuel startTime i awaited).
Proof.
  induction fuel as [|fuel IH]; intros startTime i awaited; cbn [Controls.playFrom].
  - keep.
  - keep.
Qed.

Lemma sane_run_microtasks (bars : nat) :
  Spec.preserves (Spec.sane bars) Controls.run_microtasks.
Proof.
  intros w H. unfold Controls.run_microtasks.
  apply (@preserves_for_each (Spec.sane bars) job
           (fun j => Controls.reported (Controls.run_job j)) (jobs w)).
  - intro j. keep.
  - exact H.
Qed.

#[local] Hint Resolve sane_playFrom sane_run_microtasks : keep.

Lemma sane_fire_timer (bars : nat) (fuel id : nat) :
  Spec.preserves (Spec.sane bars) (Controls.fire_timer fuel id).
Proof.
  intros w H. unfold Controls.fire_timer.
  destruct (find (fun t => Nat.eqb (timer_id t) id) (timers w)) as [t|] eqn:E; [|exact H].
  apply find_some in E. destruct E as [Hin _].
  assert (Hok : Spec.timer_ok bars t).
  { destruct H as [_ [_ [_ Ht]]]. rewrite Forall_forall in Ht. apply Ht. exact Hin. }
  unfold Spec.timer_ok in Hok. clear Hin.
  revert w H.
  change (Spec.preserves (Spec.sane bars)
            (Browser.clearTimeout id ;;
             p <- match timer_callback t with
                  | DeleteActiveNote n =>
                      Controls.reported (Xylophone.delete_active n) ;; ret Finished
                  | RemoveActiveClass n =>
                      Controls.reported (VisualFeedback.remove_active n) ;; ret Finished
                  | ResumePlayback i startTime note =>
                      r <- Controls.attempt (Controls.playFrom fuel startTime i (Some note)) ;;
                      Controls.settle r
                  end ;;
             Controls.run_microtasks ;;
             ret p)).
  destruct (timer_callback t); keep.
Qed.

#[local] Hint Resolve sane_fire_timer : keep.

(** Every call keeps the engine, the xylophone, the bars and the pending
    timers together. *)
Lemma sane_perform (bars : nat) (c : Api.call) :
  Spec.preserves (Spec.sane bars) (Api.perform c).
Proof.
  unfold Api.perform. destruct c; keep.
Qed.

Lemma sane_run (bars : nat) (calls : list Api.call) :
  Spec.preserves (Spec.sane bars) (Api.run calls).
Proof.
  unfold Api.run. apply preserves_for_each. intro c. apply sane_perform.
Qed.

Lemma sane_loaded (bars : nat) (t0 : Z) : Spec.sane bars (Page.loaded bars t0).
Proof.
  split; [|split; [|split]].
  - split; [reflexivity|]. split; [constructor|]. intros ctx H. discriminate.
  - repeat split.
  - destruct bars as [|n].
    + split; [reflexivity|]. repeat split. intros i Hi. lia.
    + unfold Page.loaded, VisualFeedback.initialized.
      cbn [visual set_visual]. split; [apply List.repeat_length|].
      split; [reflexivity|]. split; [reflexivity|].
      split; [|split; reflexivity].
      intros i Hi. cbn [VisualFeedbackS.barElements VisualFeedbackS.activeTimeouts].
      rewrite nth_repeat. reflexivity.
  - constructor.
Qed.

Lemma sane_reachable (bars : nat) (t0 : Z) (calls : list Api.call) :
  Spec.sane bars (Page.after (Api.run calls) (Page.loaded bars t0)).
Proof. apply sane_run. apply sane_loaded. Qed.

End Reachable.

(** ** The settings of the engine over any run of calls *)

Section Settings.
Import AudioEngineS.

Lemma seconds_valid (r : Reading) : Spec.valid_time (seconds r) = true.
Proof.
  unfold Spec.valid_time, seconds. apply Qle_bool_iff.
  rewrite Qred_correct. unfold Qle. cbn. lia.
Qed.

Lemma settings_context (t : num) (st : ctx_state) (vs : list Voice) :
  Spec.valid_time t = true ->
  Spec.preserves (fun w => Spec.engine_set (audio w))
    (AudioEngine.update (set_audioContext (Some (mkCtx t st vs)))).
Proof. intros Ht w [He [Hd _]]. split; [exact He|]. split; [exact Hd|exact Ht]. Qed.

Lemma settings_no_context :
  Spec.preserves (fun w => Spec.engine_set (audio w))
    (AudioEngine.update (set_audioContext None)).
Proof. intros w [He [Hd _]]. split; [exact He|]. split; [exact Hd|exact I]. Qed.

Lemma settings_masterGain (g : option GainNode) :
  Spec.preserves (fun w => Spec.engine_set (audio w))
    (AudioEngine.update (set_masterGain g)).
Proof. intros w H. exact H. Qed.

Lemma settings_isInitialized (b : bool) :
  Spec.preserves (fun w => Spec.engine_set (audio w))
    (AudioEngine.update (set_isInitialized b)).
Proof. intros w H. exact H. Qed.

Lemma settings_activeOscillators (f : t -> list nat) :
  Spec.preserves (fun w => Spec.engine_set (audio w))
    (AudioEngine.update (fun a => set_activeOscillators (f a) a)).
Proof. intros w H. exact H. Qed.

Lemma settings_no_oscillator :
  Spec.preserves (fun w => Spec.engine_set (audio w))
    (AudioEngine.update (set_activeOscillators [])).
Proof. intros w H. exact H. Qed.

#[local] Hint Resolve settings_context settings_no_context settings_masterGain
  settings_isInitialized settings_activeOscillators settings_no_oscillator seconds_valid : keep.

(** The clock of the context the engine holds reads a time. *)
Lemma settings_clock (w : World) (ctx : AudioContext) :
  Spec.engine_set (audio w) -> audioContext (audio w) = Some ctx ->
  Spec.valid_time (currentTime ctx) = true.
Proof. intros [_ [_ H]] Hc. rewrite Hc in H. exact H. Qed.

Ltac settle :=
  match goal with
  | H : Spec.engine_set (audio ?w) |- Spec.engine_set (audio (snd (?m ?w))) =>
      let P := fresh "P" in
      assert (P : Spec.preserves (fun w => Spec.engine_set (audio w)) m) by keep;
      exact (P w H)
  end.

Lemma settings_initialize (p : AudioEngine.Page) :
  Spec.preserves (fun w => Spec.engine_set (audio w)) (AudioEngine.initialize p).
Proof. unfold AudioEngine.initialize, AudioEngine.this. keep. Qed.

Lemma settings_playNote (frequency : num) (duration : option num) :
  Spec.preserves (fun w => Spec.engine_set (audio w))
    (AudioEngine.playNote frequency duration).
Proof.
  intros w H. unfold AudioEngine.playNote, AudioEngine.this.
  unfold bind at 1. unfold gets at 1. cbn beta.
  destruct (isInitialized (audio w)); [|exact H].
  destruct (audioContext (audio w)) as [ctx|] eqn:Hc; [|exact H].
  pose proof (@settings_clock w ctx H Hc) as Hclock.
  unfold AudioEngine.schedule. settle.
Qed.

Lemma settings_setVolume (volume : num) :
  Spec.preserves (fun w => Spec.engine_set (audio w)) (AudioEngine.setVolume volume).
Proof. unfold AudioEngine.setVolume, AudioEngine.this. keep. Qed.

Lemma settings_onended (id : nat) :
  Spec.preserves (fun w => Spec.engine_set (audio w)) (AudioEngine.onended id).
Proof.
  intros w [He [Hd Hc]]. unfold AudioEngine.onended, AudioEngine.update, modify.
  cbn [snd audio set_audio]. unfold Spec.engine_set.
  destruct (audioContext (audio w)) as [ctx|] eqn:E;
    cbn [envelope defaultVolume audioContext set_activeOscillators set_audioContext];
    rewrite ?E; (split; [exact He|]); (split; [exact Hd|]); exact Hc.
Qed.

Lemma settings_oscillator_stop (when : num) (id : nat) :
  Spec.preserves (fun w => Spec.engine_set (audio w)) (AudioEngine.oscillator_stop when id).
Proof.
  intros w H. unfold AudioEngine.oscillator_stop, AudioEngine.this.
  unfold bind at 1. unfold gets at 1. cbn beta.
  destruct (audioContext (audio w)) as [ctx|] eqn:Hc; [|exact H].
  pose proof (@settings_clock w ctx H Hc) as Hclock.
  settle.
Qed.

#[local] Hint Resolve settings_oscillator_stop : keep.

Lemma settings_stop_each (when : num) (ids : list nat) :
  Spec.preserves (fun w => Spec.engine_set (audio w)) (AudioEngine.stop_each when ids).
Proof. induction ids as [|id ids IH]; cbn [AudioEngine.stop_each]; keep. Qed.

#[local] Hint Resolve settings_stop_each : keep.

Lemma settings_stopAllNotes :
  Spec.preserves (fun w => Spec.engine_set (audio w)) AudioEngine.stopAllNotes.
Proof. unfold AudioEngine.stopAllNotes, AudioEngine.this. keep. Qed.

#[local] Hint Resolve settings_stopAllNotes : keep.

Lemma settings_resume (fulfilled : bool) :
  Spec.preserves (fun w => Spec.engine_set (audio w)) (AudioEngine.resume fulfilled).
Proof.
  intros w H. unfold AudioEngine.resume, AudioEngine.this.
  unfold bind at 1. unfold gets at 1. cbn beta.
  destruct (audioContext (audio w)) as [ctx|] eqn:Hc; [|exact H].
  pose proof (@settings_clock w ctx H Hc) as Hclock.
  settle.
Qed.

Lemma settings_dispose :
  Spec.preserves (fun w => Spec.engine_set (audio w)) AudioEngine.dispose.
Proof. unfold AudioEngine.dispose, AudioEngine.this. keep. Qed.

#[local] Hint Resolve settings_initialize settings_playNote settings_setVolume
  settings_onended settings_resume settings_dispose : keep.

Lemma settings_clear_each (entries : list (num * nat)) :
  Spec.preserves (fun w => Spec.engine_set (audio w)) (VisualFeedback.clear_each entries).
Proof.
  induction entries as [|[k id] entries IH]; cbn [VisualFeedback.clear_each]; keep.
Qed.

#[local] Hint Resolve settings_clear_each : keep.

Lemma settings_playFrom (fuel : nat) :
  forall (startTime : num) (i : nat) (awaited : option Js.value),
    Spec.preserves (fun w => Spec.engine_set (audio w))
      (Controls.playFrom fuel startTime i awaited).
Proof.
  induction fuel as [|fuel IH]; intros startTime i awaited; cbn [Controls.playFrom]; keep.
Qed.

Lemma settings_run_microtasks :
  Spec.preserves (fun w => Spec.engine_set (audio w)) Controls.run_microtasks.
Proof.
  intros w H. unfold Controls.run_microtasks.
  apply (@preserves_for_each (fun w => Spec.engine_set (audio w)) job
           (fun j => Controls.reported (Controls.run_job j)) (jobs w)).
  - intro j. keep.
  - exact H.
Qed.

#[local] Hint Resolve settings_playFrom settings_run_microtasks : keep.

Lemma settings_fire_timer (fuel id : nat) :
  Spec.preserves (fun w => Spec.engine_set (audio w)) (Controls.fire_timer fuel id).
Proof.
  intros w H. unfold Controls.fire_timer.
  destruct (find (fun t => Nat.eqb (timer_id t) id) (timers w)) as [t|]; [|exact H].
  settle.
Qed.

#[local] Hint Resolve settings_fire_timer : keep.

Lemma settings_strike (i : num) :
  Spec.preserves (fun w => Spec.engine_set (audio w)) (Xylophone.playNote i).
Proof. unfold Xylophone.playNote, Xylophone.this. keep. Qed.

Lemma settings_perform (c : Api.call) :
  Spec.preserves (fun w => Spec.engine_set (audio w)) (Api.perform c).
Proof. unfold Api.perform. destruct c; unfold Api.body, Api.drop; keep. Qed.

(** On every page that can arise the engine has the settings of its
    constructor, and its context, if it has one, a clock that reads a
    time. *)
Lemma settings_reachable (bars : nat) (t0 : Z) (calls : list Api.call) :
  Spec.engine_set (audio (Page.after (Api.run calls) (Page.loaded bars t0))).
Proof.
  unfold Page.after, Api.run.
  apply (@preserves_for_each (fun w => Spec.engine_set (audio w)) Api.call
           Api.perform calls).
  - intro c. apply settings_perform.
  - split; [reflexivity|]. split; [reflexivity|exact I].
Qed.

End Settings.

(** ** The audio engine on the pages that can arise *)

Section EngineLife.
Import AudioEngineS.

(** X1: whatever calls the page makes on the modules, in whatever order
    (timers firing and oscillators ending among them), the audio engine
    holds together: while it is initialized it has a context and a master
    gain; while it is not, it tracks no oscillator; the oscillators it tracks
    are distinct voices of its context; and every voice of the context has
    been started and told when to stop. *)
Theorem X1_engine_holds_together (bars : nat) (t0 : Z) (calls : list Api.call) :
  Spec.engine_ok (audio (Page.after (Api.run calls) (Page.loaded bars t0))).
Proof. apply sane_reachable. Qed.

Lemma valid_add (a b : num) :
  Spec.valid_time a = true -> Spec.valid_time b = true ->
  Spec.valid_time (add a b) = true.
Proof.
  destruct a as [| | |x], b as [| | |y]; try discriminate.
  unfold Spec.valid_time, add. rewrite !Qle_bool_iff, Qred_correct. lra.
Qed.

(** With the settings of the constructor and a clock that reads a time, what
    Web Audio has to accept in [playNote] is the frequency and the two
    times that depend on the duration. *)
Lemma accepted_settings (a : t) (ctx : AudioContext) (frequency d : num) :
  Spec.engine_set a ->
  audioContext a = Some ctx ->
  Spec.accepted (envelope a) (currentTime ctx) frequency d
  = Spec.is_float frequency
    && Spec.valid_time (add (currentTime ctx) d)
    && Spec.valid_time (add (add (currentTime ctx) d) (release (envelope a))).
Proof.
  intros [He [_ Hc]] Hctx. rewrite Hctx in Hc. rewrite He. unfold Spec.accepted.
  assert (H1 : Spec.valid_time
                 (add (currentTime ctx) (attack (envelope AudioEngine.constructor))) = true).
  { apply valid_add; [exact Hc|reflexivity]. }
  assert (H2 : Spec.valid_time
                 (add (add (currentTime ctx) (attack (envelope AudioEngine.constructor)))
                      (decay (envelope AudioEngine.constructor))) = true).
  { apply valid_add; [exact H1|reflexivity]. }
  assert (Hs : Spec.is_float (sustain (envelope AudioEngine.constructor)) = true)
    by (vm_compute; reflexivity).
  rewrite Hc, H1, H2, Hs. rewrite !andb_true_r. reflexivity.
Qed.

(** X2: on any page that can arise, [audioEngine.playNote] never throws.  It
    returns [true] exactly when the engine is initialized and Web Audio
    accepts the arguments: the frequency is a float, and the times
    [now + duration] and [(now + duration) + release] are finite and not
    negative.  When it returns [false] the context and the tracked
    oscillators are as they were; when it returns [true] it has added one
    voice to the context and tracks it, so that the count of active notes
    has gone up by one. *)
Theorem X2_engine_playNote_outcome
        (bars : nat) (t0 : Z) (calls : list Api.call)
        (frequency : num) (duration : option num) :
  let w := Page.after (Api.run calls) (Page.loaded bars t0) in
  let d := match duration with Some d => d | None => int 2 end in
  let played :=
    isInitialized (audio w)
    && match audioContext (audio w) with
       | Some ctx =>
           Spec.is_float frequency
           && Spec.valid_time (add (currentTime ctx) d)
           && Spec.valid_time (add (add (currentTime ctx) d) (release (envelope (audio w))))
       | None => false
       end in
  exists w' : World,
    AudioEngine.playNote frequency duration w = (Ok played, w') /\
    (played = false ->
     audioContext (audio w') = audioContext (audio w) /\
     activeOscillators (audio w') = activeOscillators (audio w)) /\
    (played = true ->
     exists ctx ctx' : AudioContext,
       audioContext (audio w) = Some ctx /\
       audioContext (audio w') = Some ctx' /\
       List.length (voices ctx') = S (List.length (voices ctx)) /\
       activeOscillators (audio w')
       = activeOscillators (audio w) ++ [List.length (voices ctx)] /\
       AudioEngine.getActiveNoteCount w'
       = (Ok (S (List.length (activeOscillators (audio w)))), w')).
Proof.
  intros w d played. pose proof (sane_reachable bars t0 calls) as [H _].
  pose proof (settings_reachable bars t0 calls) as Hset.
  fold w in H, Hset. clearbody w.
  pose proof H as [Hinit [Hnodup Hctx]].
  destruct (isInitialized (audio w)) eqn:Ei.
  2:{ subst played. cbn [andb].
      exists (set_console (mkEntry Warn "Audio engine not initialized" [] :: console_out w) w).
      split.
      { unfold AudioEngine.playNote, AudioEngine.this, bind, gets. rewrite Ei.
        destruct (audioContext (audio w)); reflexivity. }
      split; [intros _; split; reflexivity|discriminate]. }
  destruct Hinit as [c0 [g [Hc Hg]]].
  destruct (Hctx c0 Hc) as [Hids _].
  pose proof (@playNote_outcome w c0 g frequency duration Ei Hc Hg) as Hplay.
  cbv zeta in Hplay. fold d in Hplay.
  rewrite (@accepted_settings (audio w) c0 frequency d Hset Hc) in Hplay.
  subst played. rewrite Hc. cbn [andb].
  destruct (Spec.is_float frequency
            && Spec.valid_time (add (currentTime c0) d)
            && Spec.valid_time (add (add (currentTime c0) d) (release (envelope (audio w))))).
  - eexists. split; [exact Hplay|]. split; [discriminate|].
    intros _. eexists c0, _. split; [reflexivity|].
    rewrite (existsb_eqb_fresh Hids).
    cbn [audio set_audio audioContext activeOscillators set_activeOscillators
         set_audioContext voices].
    split; [reflexivity|].
    split; [cbn [voices]; rewrite List.length_app; cbn [List.length]; lia|].
    split; [reflexivity|].
    unfold AudioEngine.getActiveNoteCount, AudioEngine.this, bind, gets, ret.
    cbn [audio set_audio activeOscillators set_activeOscillators].
    rewrite List.length_app. cbn [List.length]. rewrite Nat.add_1_r. reflexivity.
  - eexists. split; [exact Hplay|]. split; [|discriminate].
    intros _. split; [exact (eq_sym Hc) || (cbn; exact Hc) || reflexivity|reflexivity].
Qed.

Lemma at_position_nth (f : Voice -> Voice) (id : nat) :
  forall (vs : list Voice) (k j : nat),
    nth_error
      (map (fun iv : nat * Voice => let (i, v) := iv in if Nat.eqb i id then f v else v)
           (combine (seq k (List.length vs)) vs)) j
    = option_map (fun v => if Nat.eqb (k + j) id then f v else v) (nth_error vs j).
Proof.
  induction vs as [|v vs IH]; intros k j.
  - destruct j; reflexivity.
  - destruct j as [|j]; cbn.
    + rewrite Nat.add_0_r. reflexivity.
    + rewrite IH. replace (S k + j)%nat with (k + S j)%nat by lia. reflexivity.
Qed.

Lemma filter_fresh (n : nat) (l : list nat) :
  Forall (fun id => (id < n)%nat) l ->
  filter (fun i => negb (Nat.eqb i n)) (l ++ [n]) = l.
Proof.
  intro H. rewrite filter_app. cbn. rewrite Nat.eqb_refl. cbn. rewrite List.app_nil_r.
  induction H as [|a l Ha Hl IH]; [reflexivity|].
  cbn. destruct (Nat.eqb a n) eqn:E.
  - apply Nat.eqb_eq in E. lia.
  - cbn. rewrite IH. reflexivity.
Qed.

Lemma filter_absent (n : nat) (l : list nat) :
  Forall (fun id => (id < n)%nat) l ->
  filter (fun i => negb (Nat.eqb i n)) l = l.
Proof.
  intro H. induction H as [|a l Ha Hl IH]; [reflexivity|].
  cbn. destruct (Nat.eqb a n) eqn:E.
  - apply Nat.eqb_eq in E. lia.
  - cbn. rewrite IH. reflexivity.
Qed.

(** X3: on a page that can arise, with the engine initialized: when the
    oscillator of a note just played ends, its [onended] handler leaves
    the set of tracked oscillators exactly as it was before the note, and
    the two nodes of the voice disconnected.  (When [playNote] has returned
    [false] there is no such voice, and the set is as it was.) *)
Theorem X3_ended_voice_is_forgotten
        (bars : nat) (t0 : Z) (calls : list Api.call)
        (frequency : num) (duration : option num) :
  let w := Page.after (Api.run calls) (Page.loaded bars t0) in
  isInitialized (audio w) = true ->
  exists ctx : AudioContext,
    audioContext (audio w) = Some ctx /\
    let w' := Page.after (AudioEngine.playNote frequency duration ;;
                          AudioEngine.onended (List.length (voices ctx))) w in
    activeOscillators (audio w') = activeOscillators (audio w) /\
    (Page.outcome (AudioEngine.playNote frequency duration) w = Ok true ->
     exists (ctx' : AudioContext) (v : Voice),
       audioContext (audio w') = Some ctx' /\
       nth_error (voices ctx') (List.length (voices ctx)) = Some v /\
       osc_to_gain (oscillator v) = false /\
       gain_to (gainNode v) = Unconnected).
Proof.
  intros w Hi. pose proof (sane_reachable bars t0 calls) as [H _].
  fold w in H. clearbody w.
  pose proof H as [Hinit [Hnodup Hctx]]. rewrite Hi in Hinit.
  destruct Hinit as [c0 [g [Hc Hg]]].
  destruct (Hctx c0 Hc) as [Hids _].
  exists c0. split; [exact Hc|]. cbv zeta.
  pose proof (@playNote_outcome w c0 g frequency duration Hi Hc Hg) as Hplay.
  cbv zeta in Hplay.
  unfold Page.after, Page.outcome.
  destruct (Spec.accepted _ _ _ _).
  2:{ rewrite (bind_ok _ Hplay), Hplay. cbn [fst].
      split; [|discriminate].
      unfold AudioEngine.onended, AudioEngine.update, modify.
      cbn [snd audio set_audio set_console].
      rewrite Hc.
      cbn [activeOscillators set_activeOscillators set_audioContext].
      apply filter_absent. exact Hids. }
  rewrite (bind_ok _ Hplay), Hplay. cbn [fst].
  rewrite (existsb_eqb_fresh Hids).
  unfold AudioEngine.onended, AudioEngine.update, modify.
  cbn [snd audio set_audio audioContext activeOscillators set_activeOscillators
       set_audioContext currentTime state voices].
  split; [apply filter_fresh; exact Hids|].
  intros _. eexists _, _. split; [reflexivity|].
  cbn [voices].
  rewrite at_position_nth.
  rewrite nth_error_app2 by lia. rewrite Nat.sub_diag. cbn.
  rewrite Nat.eqb_refl. split; [reflexivity|]. split; reflexivity.
Qed.
(** What the loop of [stopAllNotes] does to the voices: the oscillators it
    goes over get the new stop time, nothing else changes. *)
Lemma stop_each_effect (when : num) (ids : list nat) :
  Spec.valid_time when = true ->
  forall (w : World) (c : AudioContext),
    audioContext (audio w) = Some c ->
    Forall (fun id => (id < List.length (voices c))%nat) ids ->
    forallb Spec.voice_scheduled (voices c) = true ->
    exists c' : AudioContext,
      AudioEngine.stop_each when ids w
      = (Ok tt, set_audio (set_audioContext (Some c') (audio w)) w) /\
      currentTime c' = currentTime c /\ state c' = state c /\
      List.length (voices c') = List.length (voices c) /\
      forall (id : nat) (v : Voice),
        nth_error (voices c) id = Some v ->
        exists v' : Voice,
          nth_error (voices c') id = Some v' /\
          gainNode v' = gainNode v /\
          started (oscillator v') = started (oscillator v) /\
          stopped (oscillator v')
          = if existsb (Nat.eqb id) ids then Some when else stopped (oscillator v).
Proof.
  intro Hwhen.
  induction ids as [|id0 ids IH]; intros w c Hc Hids Hsch.
  - exists c. split.
    + cbn. destruct w as [a x v cc co tr n ti tm nt j].
      destruct a as [ctx mg ini act env ty dv]. cbn in Hc. subst ctx. reflexivity.
    + repeat split. intros id v Hv. exists v. repeat split. exact Hv.
  - inversion Hids as [|i l Hid0 Hids']; subst i l.
    destruct (nth_error (voices c) id0) as [v0|] eqn:Hv0.
    2:{ apply nth_error_None in Hv0. lia. }
    assert (Hst : exists t, started (oscillator v0) = Some t).
    { rewrite forallb_forall in Hsch. pose proof (Hsch v0 (nth_error_In _ _ Hv0)) as H.
      unfold Spec.voice_scheduled in H.
      destruct (started (oscillator v0)) as [t|]; [exists t; reflexivity|discriminate]. }
    destruct Hst as [t Hst].
    set (c1 := mkCtx (currentTime c) (state c) (AudioEngine.stop_voice when id0 (voices c))).
    set (w1 := set_audio (set_audioContext (Some c1) (audio w)) w).
    assert (Hstep : AudioEngine.stop_each when (id0 :: ids) w
                    = AudioEngine.stop_each when ids w1).
    { cbn [AudioEngine.stop_each]. unfold bind at 1. unfold try_catch.
      unfold AudioEngine.oscillator_stop, AudioEngine.this.
      unfold bind at 1. unfold gets at 1. rewrite Hc, Hv0, Hst.
      unfold bind, ret, lift_result. rewrite (@as_time_valid when Hwhen).
      destruct when; try discriminate. reflexivity. }
    assert (Hlen1 : List.length (voices c1) = List.length (voices c)).
    { unfold c1, AudioEngine.stop_voice. cbn [voices]. apply at_position_length. }
    destruct (IH w1 c1) as [c' [Hrun [Ht [Hs [Hlen Hvoices]]]]].
    + subst w1. destruct w as [a x v cc co tr n ti tm nt j].
      destruct a as [ctx mg ini act env ty dv]. reflexivity.
    + rewrite Hlen1. exact Hids'.
    + unfold c1, AudioEngine.stop_voice. cbn [voices].
      apply at_position_forallb; [|exact Hsch].
      intros v1. unfold Spec.voice_scheduled. cbn.
      destruct (started (oscillator v1)); [reflexivity|discriminate].
    + exists c'. split.
      * rewrite Hstep, Hrun. subst w1.
        destruct w as [a x v cc co tr n ti tm nt j].
        destruct a as [ctx mg ini act env ty dv]. reflexivity.
      * split; [exact Ht|]. split; [exact Hs|]. split; [congruence|].
        intros id v Hv.
        assert (Hv1 : nth_error (voices c1) id
                      = Some (if Nat.eqb id id0
                              then mkVoice
                                     (mkOsc (type (oscillator v)) (frequency (oscillator v))
                                            (osc_to_gain (oscillator v))
                                            (started (oscillator v)) (Some when))
                                     (gainNode v)
                              else v)).
        { unfold c1, AudioEngine.stop_voice. cbn [voices].
          rewrite at_position_nth, Hv. reflexivity. }
        destruct (Hvoices id _ Hv1) as [v' [Hv' [Hg [Hs' Hstop]]]].
        exists v'. split; [exact Hv'|].
        cbn [existsb].
        destruct (Nat.eqb id id0) eqn:E; cbn in Hg, Hs', Hstop.
        -- split; [exact Hg|]. split; [exact Hs'|].
           cbn [orb]. rewrite Hstop. destruct (existsb (Nat.eqb id) ids); reflexivity.
        -- split; [exact Hg|]. split; [exact Hs'|]. cbn [orb]. exact Hstop.
Qed.

(** X4: on a page that can arise, with the engine initialized,
    [stopAllNotes] returns without throwing and tracks no oscillator
    afterwards.  Each oscillator it tracked is told to stop 0.05 after the
    current audio time; no other oscillator is touched, and no gain
    schedule is changed (the fade the comment speaks of is not scheduled). *)
Theorem X4_stopAllNotes_stops_the_tracked_oscillators
        (bars : nat) (t0 : Z) (calls : list Api.call) :
  let w := Page.after (Api.run calls) (Page.loaded bars t0) in
  isInitialized (audio w) = true ->
  exists (ctx ctx' : AudioContext) (w' : World),
    audioContext (audio w) = Some ctx /\
    AudioEngine.stopAllNotes w = (Ok tt, w') /\
    audioContext (audio w') = Some ctx' /\
    activeOscillators (audio w') = [] /\
    AudioEngine.getActiveNoteCount w' = (Ok 0%nat, w') /\
    List.length (voices ctx') = List.length (voices ctx) /\
    forall (id : nat) (v : Voice),
      nth_error (voices ctx) id = Some v ->
      exists v' : Voice,
        nth_error (voices ctx') id = Some v' /\
        gainNode v' = gainNode v /\
        started (oscillator v') = started (oscillator v) /\
        stopped (oscillator v')
        = if existsb (Nat.eqb id) (activeOscillators (audio w))
          then Some (add (currentTime ctx) (Fin (1 # 20)))
          else stopped (oscillator v).
Proof.
  intros w Hi. pose proof (sane_reachable bars t0 calls) as [H _].
  pose proof (settings_reachable bars t0 calls) as Hset.
  fold w in H, Hset. clearbody w.
  destruct H as [Hinit [Hnodup Hctx]]. rewrite Hi in Hinit.
  destruct Hinit as [c0 [g [Hc Hg]]].
  destruct (Hctx c0 Hc) as [Hids Hsch].
  pose proof (@valid_add _ (Fin (1 # 20)) (@settings_clock w c0 Hset Hc) eq_refl) as Hwhen.
  destruct (@stop_each_effect (add (currentTime c0) (Fin (1 # 20)))
              (activeOscillators (audio w)) Hwhen w c0 Hc Hids Hsch)
    as [c' [Hrun [Ht [Hs [Hlen Hvoices]]]]].
  exists c0, c'. eexists. split; [exact Hc|].
  split.
  { unfold AudioEngine.stopAllNotes, AudioEngine.this.
    unfold bind at 1. unfold gets at 1. rewrite Hi, Hc. cbn [negb].
    unfold bind. rewrite Hrun. reflexivity. }
  destruct w as [a x v cc co tr n ti tm nt j].
  destruct a as [ctx mg ini act env ty dv]. cbn.
  split; [reflexivity|]. split; [reflexivity|]. split; [reflexivity|].
  split; [exact Hlen|exact Hvoices].
Qed.
(** X5: on a page that can arise, with the engine ready (initialized, its
    context running), [dispose()] brings the engine back to where its
    constructor left it: no context, no master gain, not initialized, no
    oscillator tracked.  After it [getState()] is "uninitialized",
    [playNote] returns [false], and [initialize()] succeeds again on a page
    that grants a context. *)
Theorem X5_dispose_returns_to_the_start
        (bars : nat) (t0 : Z) (calls : list Api.call) :
  let w := Page.after (Api.run calls) (Page.loaded bars t0) in
  Page.outcome AudioEngine.isReady w = Ok true ->
  let w' := Page.after AudioEngine.dispose w in
  Page.outcome AudioEngine.dispose w = Ok tt /\
  audioContext (audio w') = audioContext AudioEngine.constructor /\
  masterGain (audio w') = masterGain AudioEngine.constructor /\
  isInitialized (audio w') = isInitialized AudioEngine.constructor /\
  activeOscillators (audio w') = activeOscillators AudioEngine.constructor /\
  Page.outcome AudioEngine.getState w' = Ok "uninitialized"%string /\
  (forall (frequency : num) (duration : option num),
      Page.outcome (AudioEngine.playNote frequency duration) w' = Ok false) /\
  Page.outcome (AudioEngine.initialize Page.audio_page) w' = Ok true.
Proof.
  intros w Hready. pose proof (sane_reachable bars t0 calls) as [H _].
  pose proof (settings_reachable bars t0 calls) as Hset.
  fold w in H, Hset. clearbody w. intro w'.
  pose proof Hset as [_ [Hvolume _]].
  unfold Page.outcome, AudioEngine.isReady, AudioEngine.this, bind, gets, ret in Hready.
  cbn [fst] in Hready. injection Hready as Hready.
  apply andb_true_iff in Hready. destruct Hready as [Hi Hrun].
  destruct (audioContext (audio w)) as [c0|] eqn:Hc; [|discriminate].
  destruct (@stopAllNotes_empties w H) as [_ [Hact' Hi']].
  pose proof H as [Hinit [_ Hctx]]. rewrite Hi in Hinit.
  destruct (Hctx c0 Hc) as [Hids Hsch].
  pose proof (@valid_add _ (Fin (1 # 20)) (@settings_clock w c0 Hset Hc) eq_refl) as Hwhen.
  destruct (@stop_each_effect (add (currentTime c0) (Fin (1 # 20)))
              (activeOscillators (audio w)) Hwhen w c0 Hc Hids Hsch)
    as [c' [Hloop [Ht [Hs [Hlen Hvoices]]]]].
  assert (Hstop : AudioEngine.stopAllNotes w
                  = (Ok tt,
                     set_audio
                       (set_activeOscillators []
                          (set_audioContext (Some c') (audio w))) w)).
  { unfold AudioEngine.stopAllNotes, AudioEngine.this.
    unfold bind at 1. unfold gets at 1. rewrite Hi, Hc. cbn [negb].
    unfold bind. rewrite Hloop.
    destruct w as [a x v cc co tr n ti tm nt j].
    destruct a as [ctx mg ini act env ty dv]. reflexivity. }
  assert (Hdispose :
            AudioEngine.dispose w
            = (Ok tt,
               set_console
                 (mkEntry Log "Audio engine disposed" [] :: console_out w)
                 (set_audio
                    (mk None None false [] (envelope (audio w))
                        (oscillatorType (audio w)) (defaultVolume (audio w)))
                    w))).
  { unfold AudioEngine.dispose, AudioEngine.this.
    unfold bind at 1. unfold gets at 1. rewrite Hc.
    unfold try_catch. unfold bind at 1. rewrite Hstop.
    destruct (state c0); try discriminate.
    destruct w as [a x v cc co tr n ti tm nt j].
    destruct a as [ctx mg ini act env ty dv]. reflexivity. }
  subst w'. unfold Page.after, Page.outcome. rewrite Hdispose. cbn [fst snd].
  destruct w as [a x v cc co tr n ti tm nt j].
  destruct a as [ctx mg ini act env ty dv].
  cbn in Hvolume. subst dv.
  split; [reflexivity|]. split; [reflexivity|]. split; [reflexivity|].
  split; [reflexivity|]. split; [reflexivity|]. split; [reflexivity|].
  split; [intros; reflexivity|].
  vm_compute. reflexivity.
Qed.

(** X6: on an engine not yet initialized, whatever else the page holds,
    [initialize()] never throws; it returns [true] exactly when the browser
    has an [AudioContext] class, the default volume is a number the gain
    takes, and the new context is either not suspended or resumes; and
    [isInitialized] afterwards is what it returned.  On success the engine
    holds a new context with no voice, in the state it was made in or
    running if it was made suspended, and a master gain connected to the
    destination whose value is the 32-bit float nearest to the default
    volume; that float is what [getVolume()] then returns
    (0.699999988079071 for the 0.7 of the constructor).  After a failure
    [getVolume()] returns the default volume itself. *)
Theorem X6_initialize_outcome (w : World) (p : AudioEngine.Page) :
  isInitialized (audio w) = false ->
  let ok :=
    AudioEngine.has_AudioContext p
    && Spec.is_float (defaultVolume (audio w))
    && (negb (AudioEngine.is_suspended (AudioEngine.new_state p))
        || AudioEngine.resume_fulfilled p) in
  exists w' : World,
    AudioEngine.initialize p w = (Ok ok, w') /\
    isInitialized (audio w') = ok /\
    (ok = true ->
     exists volume : num,
       AudioEngine.as_float (defaultVolume (audio w)) = Ok volume /\
       audioContext (audio w')
       = Some (mkCtx (seconds (AudioEngine.new_time p))
                     (if AudioEngine.is_suspended (AudioEngine.new_state p)
                      then running else AudioEngine.new_state p)
                     []) /\
       masterGain (audio w')
       = Some (mkGain (mkParam volume []) ToDestination) /\
       AudioEngine.getVolume w' = (Ok volume, w')) /\
    (ok = false ->
     AudioEngine.getVolume w' = (Ok (defaultVolume (audio w)), w')) /\
    AudioEngine.as_float (defaultVolume AudioEngine.constructor)
    = Ok (Fin (11744051 # 16777216)).
Proof.
  intros Hi ok. subst ok.
  destruct w as [a x v cc co tr n ti tm nt j].
  destruct a as [ctx mg ini act env ty dv]. cbn in Hi. subst ini.
  destruct p as [has st t ful].
  cbn [audio defaultVolume AudioEngine.has_AudioContext AudioEngine.new_state
       AudioEngine.new_time AudioEngine.resume_fulfilled].
  unfold Spec.is_float.
  destruct (AudioEngine.as_float dv) as [y|e] eqn:Ef;
    (destruct has; [destruct st; [destruct ful| |]|]);
    unfold AudioEngine.initialize, AudioEngine.getVolume, AudioEngine.this,
      AudioEngine.update, Browser.console_write, try_catch, bind, gets, modify, ret,
      throw, lift_result;
    cbn; rewrite ?Ef; cbn;
    (eexists; split; [reflexivity|]); (split; [reflexivity|]).
  all: split; [try discriminate; intros _; exists y; repeat split|].
  all: split; [try discriminate; intros _; try reflexivity|].
  all: try (vm_compute; reflexivity).
Qed.

(** X3 on a ready page of eleven bars, for middle C. *)
Lemma X3_ended_voice_is_forgotten_witness :
  activeOscillators
    (audio (Page.after (AudioEngine.playNote (Xylophone.hz 26163) None ;;
                        AudioEngine.onended 0)
                       (Page.after (Api.run Api.start) (Page.loaded 11 0))))
  = activeOscillators (audio (Page.after (Api.run Api.start) (Page.loaded 11 0))).
Proof.
  destruct (@X3_ended_voice_is_forgotten 11 0 Api.start (Xylophone.hz 26163) None)
    as [ctx [Hc [Ha _]]].
  - vm_compute. reflexivity.
  - vm_compute in Hc. injection Hc as <-. exact Ha.
Defined.

(** X4 on a ready page on which bars 0 and 4 have been struck. *)
Lemma X4_stopAllNotes_stops_the_tracked_oscillators_witness :
  exists w' : World,
    AudioEngine.stopAllNotes
      (Page.after (Api.run (Api.start ++ [Api.PlayNote (int 0); Api.PlayNote (int 4)]))
                  (Page.loaded 11 0))
    = (Ok tt, w') /\
    activeOscillators (audio w') = [].
Proof.
  destruct (@X4_stopAllNotes_stops_the_tracked_oscillators 11 0
              (Api.start ++ [Api.PlayNote (int 0); Api.PlayNote (int 4)]))
    as [ctx [ctx' [w' [_ [Hrun [_ [Hact _]]]]]]].
  - vm_compute. reflexivity.
  - exists w'. split; [exact Hrun|exact Hact].
Defined.

(** X5 on a ready page on which bar 0 has been struck. *)
Lemma X5_dispose_returns_to_the_start_witness :
  Page.outcome AudioEngine.getState
    (Page.after AudioEngine.dispose
       (Page.after (Api.run (Api.start ++ [Api.PlayNote (int 0)])) (Page.loaded 11 0)))
  = Ok "uninitialized"%string.
Proof.
  apply (@X5_dispose_returns_to_the_start 11 0 (Api.start ++ [Api.PlayNote (int 0)])).
  vm_compute. reflexivity.
Defined.

(** X6 on a page just loaded, with a browser whose new context is
    suspended and resumes. *)
Lemma X6_initialize_outcome_witness :
  exists w' : World,
    AudioEngine.initialize (AudioEngine.mkPage true suspended (mkReading 0 1) true)
                           (Page.loaded 11 0)
    = (Ok true, w') /\
    isInitialized (audio w') = true /\
    AudioEngine.getVolume w' = (Ok (Fin (11744051 # 16777216)), w').
Proof.
  destruct (@X6_initialize_outcome (Page.loaded 11 0)
              (AudioEngine.mkPage true suspended (mkReading 0 1) true))
    as [w' [Hrun [Hinit [Hok _]]]].
  - vm_compute. reflexivity.
  - destruct Hok as [volume [Hvolume [_ [_ Hget]]]]; [vm_compute; reflexivity|].
    vm_compute in Hvolume. injection Hvolume as <-.
    exists w'. split; [exact Hrun|]. split; [exact Hinit|exact Hget].
Defined.

End EngineLife.

(** ** The xylophone on the pages that can arise *)

Section RegistryLife.
Import XylophoneS.

Lemma valid_position_same (b : nat) (n : num) :
  Spec.valid_index b n = true ->
  (Spec.position n < b)%nat /\ same n (int (Z.of_nat (Spec.position n))) = true.
Proof.
  intro H. destruct (@valid_position b n H) as [q [-> [Hpos Hsame]]].
  split; [exact Hpos|exact Hsame].
Qed.

(** Distinct indices of [b] bars are at most [b]. *)
Lemma distinct_valid_length (b : nat) (l : list num) :
  Spec.distinct l = true ->
  forallb (Spec.valid_index b) l = true ->
  (List.length l <= b)%nat.
Proof.
  intros Hd Hv.
  assert (Hnodup : NoDup (map Spec.position l)).
  { induction l as [|n l IH]; [constructor|].
    cbn in Hd, Hv |- *. apply andb_true_iff in Hd. destruct Hd as [Hn Hd].
    apply andb_true_iff in Hv. destruct Hv as [Hvn Hv].
    constructor; [|apply IH; assumption].
    intro Hin. apply in_map_iff in Hin. destruct Hin as [m [Hpos Hm]].
    assert (Hvm : Spec.valid_index b m = true).
    { rewrite forallb_forall in Hv. apply Hv. exact Hm. }
    destruct (@valid_position_same b n Hvn) as [_ Sn].
    destruct (@valid_position_same b m Hvm) as [_ Sm].
    rewrite Hpos in Sm. rewrite same_sym in Sm.
    pose proof (@same_trans _ _ _ Sn Sm) as Hnm.
    assert (Hhas : Xylophone.has n l = true).
    { unfold Xylophone.has. apply existsb_exists. exists m. split; assumption. }
    rewrite Hhas in Hn. discriminate. }
  assert (Hincl : incl (map Spec.position l) (seq 0 b)).
  { intros k Hk. apply in_map_iff in Hk. destruct Hk as [m [<- Hm]].
    rewrite forallb_forall in Hv.
    destruct (@valid_position_same b m (Hv m Hm)) as [Hlt _].
    apply in_seq. lia. }
  pose proof (NoDup_incl_length Hnodup Hincl) as Hlen.
  rewrite List.length_map, List.length_seq in Hlen. exact Hlen.
Qed.

(** X7: whatever calls the page makes, the xylophone keeps the notes and
    the key map of its constructor, a note duration in (0, 10] and a
    polyphony limit in (0, 50], and its active notes are distinct indices
    of its eleven notes; so at most eleven notes are ever active, and
    [getActiveNoteCount()] never returns more. *)
Theorem X7_registry_holds_together (bars : nat) (t0 : Z) (calls : list Api.call) :
  let w := Page.after (Api.run calls) (Page.loaded bars t0) in
  Spec.registry_ok (xylo w) /\
  exists n : nat,
    Xylophone.getActiveNoteCount w = (Ok n, w) /\ (n <= 11)%nat.
Proof.
  intro w. pose proof (sane_reachable bars t0 calls) as [_ [H _]].
  fold w in H. clearbody w. split; [exact H|].
  eexists. split; [reflexivity|].
  destruct H as [_ [_ [_ [_ [Hd Hv]]]]].
  apply (@distinct_valid_length 11 _ Hd Hv).
Qed.


Lemma console_same (a : AudioEngineS.t) (w : World) :
  set_audio a w = set_console (console_out w) (set_audio a w).
Proof. destruct w; reflexivity. Qed.

Lemma audio_same (l : console) (w : World) :
  set_console l w = set_console l (set_audio (audio w) w).
Proof. destruct w; reflexivity. Qed.

(** On an engine that holds together [audioEngine.playNote] returns, and
    touches nothing but the engine and the console; on an initialized engine
    it returns whether Web Audio accepts the arguments. *)
Lemma engine_playNote_returns (frequency : num) (duration : option num) (w : World) :
  Spec.engine_ok (audio w) ->
  exists (b : bool) (a' : AudioEngineS.t) (co' : console),
    AudioEngine.playNote frequency duration w
    = (Ok b, set_console co' (set_audio a' w)) /\
    AudioEngineS.isInitialized a' = AudioEngineS.isInitialized (audio w) /\
    (AudioEngineS.isInitialized (audio w) = true ->
     forall ctx : AudioEngineS.AudioContext,
       AudioEngineS.audioContext (audio w) = Some ctx ->
       b = Spec.accepted (AudioEngineS.envelope (audio w)) (AudioEngineS.currentTime ctx)
             frequency (match duration with Some d => d | None => int 2 end)).
Proof.
  intro H. pose proof H as [Hinit _].
  destruct (AudioEngineS.isInitialized (audio w)) eqn:Ei.
  - destruct Hinit as [c0 [g [Hc Hg]]].
    pose proof (@playNote_outcome w c0 g frequency duration Ei Hc Hg) as Hplay.
    cbv zeta in Hplay.
    destruct (Spec.accepted _ _ _ _) eqn:Ea in Hplay.
    + eexists true, _, (console_out w). split; [|split].
      * rewrite Hplay. apply f_equal. apply console_same.
      * exact Ei.
      * intros _ ctx Hctx. rewrite Hc in Hctx. injection Hctx as <-.
        symmetry. exact Ea.
    + exists false, (audio w). eexists. split; [|split].
      * rewrite Hplay. apply f_equal. apply audio_same.
      * exact Ei.
      * intros _ ctx Hctx. rewrite Hc in Hctx. injection Hctx as <-.
        symmetry. exact Ea.
  - exists false, (audio w). eexists. split; [|split].
    + unfold AudioEngine.playNote, AudioEngine.this, bind, gets. rewrite Ei.
      destruct (AudioEngineS.audioContext (audio w));
        cbn; apply f_equal; apply audio_same.
    + exact Ei.
    + discriminate.
Qed.

(** Web Audio takes the frequency of each of the eleven notes. *)
Lemma note_is_float (note : XylophoneS.Note) :
  In note (notes Xylophone.constructor) -> Spec.is_float (frequency note) = true.
Proof.
  assert (H : forallb (fun n => Spec.is_float (frequency n)) (notes Xylophone.constructor)
              = true) by (vm_compute; reflexivity).
  rewrite forallb_forall in H. exact (H note).
Qed.

Lemma element_In (A : Type) (l : list A) (n : num) (a : A) :
  Xylophone.element l n = Some a -> In a l.
Proof.
  unfold Xylophone.element. destruct n as [| | |q]; try discriminate.
  destruct (is_integer (Fin q) && Qle_bool 0 q); [|discriminate].
  apply nth_error_In.
Qed.

(** A note duration in (0, 10] is a time. *)
Lemma duration_valid (d : num) :
  gt d (int 0) && le d (int 10) = true -> Spec.valid_time d = true.
Proof.
  intro H. apply andb_true_iff in H. destruct H as [H H'].
  destruct d as [| | |q]; try discriminate.
  cbv [gt lt int] in H. apply Qltb_true in H.
  unfold Spec.valid_time. apply Qle_bool_iff. lra.
Qed.

(** On a page that holds together Web Audio accepts the strike of each of
    the eleven bars. *)
Lemma strike_accepted (bars : nat) (w : World) (ctx : AudioEngineS.AudioContext)
      (note : XylophoneS.Note) :
  Spec.sane bars w ->
  Spec.engine_set (audio w) ->
  AudioEngineS.audioContext (audio w) = Some ctx ->
  In note (notes (xylo w)) ->
  Spec.accepted (AudioEngineS.envelope (audio w)) (AudioEngineS.currentTime ctx)
    (frequency note) (noteDuration (xylo w)) = true.
Proof.
  intros [_ [Hx _]] Hset Hctx Hin.
  destruct Hx as [Hn [_ [Hd _]]].
  rewrite (@accepted_settings (audio w) ctx _ _ Hset Hctx).
  pose proof (@settings_clock w ctx Hset Hctx) as Hclock.
  pose proof (@duration_valid _ Hd) as Hdur.
  pose proof (@valid_add _ _ Hclock Hdur) as H1.
  destruct Hset as [He _]. rewrite He.
  assert (H2 : Spec.valid_time
                 (add (add (AudioEngineS.currentTime ctx) (noteDuration (xylo w)))
                      (AudioEngineS.release (AudioEngineS.envelope AudioEngine.constructor)))
               = true).
  { apply valid_add; [exact H1|reflexivity]. }
  rewrite Hn in Hin. rewrite (@note_is_float note Hin), H1, H2. reflexivity.
Qed.

Lemma valid_index_range (b : nat) (i : num) :
  Spec.valid_index b i = true ->
  lt i (int 0) || ge i (int (Z.of_nat b)) = false.
Proof.
  unfold Spec.valid_index. intro H.
  apply andb_true_iff in H. destruct H as [H Hlt].
  apply andb_true_iff in H. destruct H as [_ Hge].
  destruct i as [| | |q]; try discriminate.
  cbv [ge le int] in Hge. apply Qle_bool_iff in Hge.
  cbv [lt int] in Hlt. apply Qltb_true in Hlt.
  cbv [lt ge le int]. apply orb_false_iff. split.
  - apply Qltb_false. exact Hge.
  - destruct (Qle_bool (Z.of_nat b # 1) q) eqn:E; [|reflexivity].
    apply Qle_bool_iff in E. lra.
Qed.

(** A count of at most eleven is below a limit above eleven. *)
Lemma below_limit (A : Type) (l : list A) (limit : num) :
  (List.length l <= 11)%nat ->
  gt limit (int 11) = true ->
  ge (Xylophone.size l) limit = false.
Proof.
  intros Hlen Hgt.
  destruct limit as [| | |q]; try discriminate; try reflexivity.
  cbv [gt lt int] in Hgt. apply Qltb_true in Hgt.
  cbv [ge le Xylophone.size int].
  destruct (Qle_bool q (Z.of_nat (List.length l) # 1)) eqn:E; [|reflexivity].
  apply Qle_bool_iff in E.
  assert (H11 : (Z.of_nat (List.length l) # 1 <= 11 # 1)%Q).
  { unfold Qle. cbn. lia. }
  lra.
Qed.

(** The effect of a strike on a page where it cannot be refused. *)
Lemma strike_succeeds (bars : nat) (i : num) (w : World) :
  Spec.sane bars w ->
  Spec.engine_set (audio w) ->
  AudioEngineS.isInitialized (audio w) = true ->
  Spec.valid_index 11 i = true ->
  gt (maxPolyphony (xylo w)) (int 11) = true ->
  exists (a' : AudioEngineS.t) (co' : console),
    Xylophone.playNote i w
    = (Ok true,
       set_console co'
         (set_timers
            (timers w ++ [mkTimer (next_timer w)
                                  (mul (noteDuration (xylo w)) (int 1000))
                                  (DeleteActiveNote i)])
            (S (next_timer w))
            (set_xylo
               (set_activeNotes (Xylophone.set_add i (activeNotes (xylo w))) (xylo w))
               (set_audio a' w)))) /\
    Spec.engine_ok a' /\
    AudioEngineS.isInitialized a' = true.
Proof.
  intros H Hset Hi Hv Hlimit.
  pose proof H as [Ha [Hx _]]. pose proof Hx as [Hn [_ [_ [_ [Hd Hval]]]]].
  pose proof (@distinct_valid_length 11 _ Hd Hval) as Hcount.
  assert (Hsize : Xylophone.size (notes (xylo w)) = int 11).
  { rewrite Hn. reflexivity. }
  unfold Xylophone.playNote, Xylophone.this.
  unfold bind at 1. unfold gets at 1. cbn beta.
  rewrite Hsize. change (int 11) with (int (Z.of_nat 11)) at 1.
  rewrite (@valid_index_range _ _ Hv).
  rewrite (@below_limit _ _ _ Hcount Hlimit).
  assert (Hv' : Spec.valid_index (List.length (notes (xylo w))) i = true).
  { rewrite Hn. exact Hv. }
  destruct (@valid_element _ _ _ Hv') as [note Hnote]. rewrite Hnote.
  destruct (@engine_playNote_returns (frequency note) (Some (noteDuration (xylo w))) w Ha)
    as [b [a' [co' [Hplay [Hi' Hb]]]]].
  assert (Eb : b = true).
  { pose proof Ha as [Hinit _]. rewrite Hi in Hinit. destruct Hinit as [c0 [g [Hc _]]].
    rewrite (Hb Hi c0 Hc).
    apply (@strike_accepted bars w c0 note H Hset Hc).
    apply (@element_In _ _ _ _ Hnote). }
  subst b.
  pose proof (@engine_playNote (frequency note) (Some (noteDuration (xylo w))) w Ha) as Ha'.
  rewrite Hplay in Ha'. cbn in Ha'.
  rewrite (bind_ok _ Hplay).
  exists a'. eexists. split; [|split; [exact Ha'|congruence]].
  destruct w as [a x v c co tr n ti tm nt j]. cbn. reflexivity.
Qed.


Lemma has_delete (i : num) (s : list num) :
  Xylophone.has i (Xylophone.set_delete i s) = false.
Proof.
  unfold Xylophone.has, Xylophone.set_delete.
  induction s as [|n s IH]; [reflexivity|].
  cbn. destruct (same i n) eqn:E; cbn; [exact IH|].
  rewrite E, IH. reflexivity.
Qed.

(** X8: on a page that can arise, with the engine initialized and the
    polyphony limit above eleven (as the 20 of the constructor is), a strike
    of any of the eleven bars is never refused: [playNote] returns [true],
    the bar is among the active notes afterwards, and one timer has been
    added, which fires after the note duration in milliseconds and whose
    callback takes the bar out of the active notes again. *)
Theorem X8_strike_is_never_refused
        (bars : nat) (t0 : Z) (calls : list Api.call) (i : num) :
  let w := Page.after (Api.run calls) (Page.loaded bars t0) in
  AudioEngineS.isInitialized (audio w) = true ->
  Spec.valid_index 11 i = true ->
  gt (maxPolyphony (xylo w)) (int 11) = true ->
  exists w' : World,
    Xylophone.playNote i w = (Ok true, w') /\
    Xylophone.isNotePlaying i w' = (Ok true, w') /\
    activeNotes (xylo w') = Xylophone.set_add i (activeNotes (xylo w)) /\
    timers w'
    = timers w ++ [mkTimer (next_timer w)
                           (mul (noteDuration (xylo w)) (int 1000))
                           (DeleteActiveNote i)] /\
    Page.outcome (Xylophone.delete_active i ;; Xylophone.isNotePlaying i) w' = Ok false.
Proof.
  intros w Hi Hv Hlimit. pose proof (sane_reachable bars t0 calls) as H.
  pose proof (settings_reachable bars t0 calls) as Hset.
  fold w in H, Hset. clearbody w.
  destruct (@strike_succeeds bars i w H Hset Hi Hv Hlimit) as [a' [co' [Hplay _]]].
  eexists. split; [exact Hplay|].
  destruct w as [a x v c co tr n ti tm nt j].
  destruct x as [ns km nd an mp].
  unfold Page.outcome, Xylophone.isNotePlaying, Xylophone.delete_active,
    Xylophone.this, Xylophone.update, bind, gets, modify, ret. cbn.
  pose proof (has_set_add i an) as E1. unfold Xylophone.has in E1.
  pose proof (has_delete i (Xylophone.set_add i an)) as E2.
  unfold Xylophone.has, Xylophone.set_delete in E2.
  rewrite E1, E2. repeat split.
Qed.

Lemma find_fresh (nt : nat) (tm : list timer) :
  forallb (fun t => Nat.ltb (timer_id t) nt) tm = true ->
  find (fun t => Nat.eqb (timer_id t) nt) tm = None /\
  filter (fun t => negb (Nat.eqb (timer_id t) nt)) tm = tm.
Proof.
  induction tm as [|t tm IH]; intro H; [split; reflexivity|].
  cbn in H |- *. apply andb_true_iff in H. destruct H as [Ht H].
  apply Nat.ltb_lt in Ht.
  destruct (Nat.eqb (timer_id t) nt) eqn:E; [apply Nat.eqb_eq in E; lia|].
  destruct (IH H) as [H1 H2]. cbn. rewrite H2. split; [exact H1|reflexivity].
Qed.

Lemma find_after (A : Type) (f : A -> bool) (l l' : list A) :
  find f l = None -> find f (l ++ l') = find f l'.
Proof.
  induction l as [|a l IH]; intro H; [reflexivity|].
  cbn in H |- *. destruct (f a); [discriminate|]. apply IH. exact H.
Qed.

(** The timer of a strike fires, with no microtask waiting: the timer
    leaves the pending ones and its bar leaves the active notes. *)
Lemma fire_delete_timer (fuel id : nat) (w : World) (t : timer) (n : num) :
  find (fun t => Nat.eqb (timer_id t) id) (timers w) = Some t ->
  timer_callback t = DeleteActiveNote n ->
  jobs w = [] ->
  Controls.fire_timer fuel id w
  = (Ok Finished,
     set_xylo (set_activeNotes (Xylophone.set_delete n (activeNotes (xylo w))) (xylo w))
       (set_timers (filter (fun t => negb (Nat.eqb (timer_id t) id)) (timers w))
                   (next_timer w) w)).
Proof.
  intros Hfind Hcb Hjobs. unfold Controls.fire_timer. rewrite Hfind, Hcb.
  destruct w as [a x v c co tr nw ti tm nt j]. cbn in Hjobs. subst j.
  reflexivity.
Qed.

(** X9: a second strike of a bar does not put off the moment the bar leaves
    the active notes.  On a page that can arise (engine initialized, limit
    above eleven, no microtask waiting), a bar is struck twice; both strikes
    succeed and each sets its own timer.  When the timer of the first strike
    fires, the bar leaves the active notes, although the timer of the second
    strike is still pending: [isNotePlaying] is [false] while the second
    note sounds. *)
Theorem X9_second_strike_does_not_extend
        (bars : nat) (t0 : Z) (calls : list Api.call) (i : num) (fuel : nat) :
  let w := Page.after (Api.run calls) (Page.loaded bars t0) in
  AudioEngineS.isInitialized (audio w) = true ->
  Spec.valid_index 11 i = true ->
  gt (maxPolyphony (xylo w)) (int 11) = true ->
  Spec.fresh_ids w = true ->
  jobs w = [] ->
  Page.outcome (Xylophone.playNote i ;; Xylophone.playNote i) w = Ok true /\
  let w' := Page.after (Xylophone.playNote i ;; Xylophone.playNote i ;;
                        Controls.fire_timer fuel (next_timer w)) w in
  Page.outcome (Xylophone.isNotePlaying i) w' = Ok false /\
  timers w'
  = timers w ++ [mkTimer (S (next_timer w))
                         (mul (noteDuration (xylo w)) (int 1000))
                         (DeleteActiveNote i)].
Proof.
  intros w Hi Hv Hlimit Hfresh Hjobs. pose proof (sane_reachable bars t0 calls) as H.
  pose proof (settings_reachable bars t0 calls) as Hset.
  fold w in H, Hset. clearbody w.
  destruct (@strike_succeeds bars i w H Hset Hi Hv Hlimit) as [a1 [co1 [Hplay1 [Ha1 Hi1]]]].
  set (w1 := set_console co1 _) in Hplay1.
  assert (Hset1 : Spec.engine_set (audio w1)).
  { pose proof (@settings_strike i w Hset) as Hs. rewrite Hplay1 in Hs. exact Hs. }
  assert (H1 : Spec.sane bars w1).
  { pose proof (@sane_xylo_playNote bars i w H) as Hs. rewrite Hplay1 in Hs. exact Hs. }
  assert (Hlimit1 : gt (maxPolyphony (xylo w1)) (int 11) = true).
  { subst w1. destruct w as [a x v c co tr n ti tm nt j].
    destruct x as [ns km nd an mp]. exact Hlimit. }
  assert (Hinit1 : AudioEngineS.isInitialized (audio w1) = true).
  { subst w1. destruct w as [a x v c co tr n ti tm nt j]. exact Hi1. }
  destruct (@strike_succeeds bars i w1 H1 Hset1 Hinit1 Hv Hlimit1) as [a2 [co2 [Hplay2 _]]].
  set (w2 := set_console co2 _) in Hplay2.
  assert (Htwice : (Xylophone.playNote i ;; Xylophone.playNote i) w = (Ok true, w2)).
  { rewrite (bind_ok _ Hplay1). exact Hplay2. }
  unfold Spec.fresh_ids in Hfresh.
  destruct (@find_fresh _ _ Hfresh) as [Hfind Hfilter].
  split; [unfold Page.outcome; rewrite Htwice; reflexivity|].
  assert (Hthen : (Xylophone.playNote i ;; Xylophone.playNote i ;;
                   Controls.fire_timer fuel (next_timer w)) w
                  = Controls.fire_timer fuel (next_timer w) w2).
  { rewrite (bind_ok _ Hplay1). rewrite (bind_ok _ Hplay2). reflexivity. }
  assert (Htimers2 : timers w2
                     = timers w
                         ++ [mkTimer (next_timer w)
                                     (mul (noteDuration (xylo w)) (int 1000))
                                     (DeleteActiveNote i);
                             mkTimer (S (next_timer w))
                                     (mul (noteDuration (xylo w)) (int 1000))
                                     (DeleteActiveNote i)]).
  { subst w2 w1. destruct w as [a x v c co tr n ti tm nt j].
    destruct x as [ns km nd an mp]. cbn. rewrite <- List.app_assoc. reflexivity. }
  assert (Hfire : Controls.fire_timer fuel (next_timer w) w2
                  = (Ok Finished,
                     set_xylo
                       (set_activeNotes
                          (Xylophone.set_delete i (activeNotes (xylo w2))) (xylo w2))
                       (set_timers
                          (filter (fun t => negb (Nat.eqb (timer_id t) (next_timer w)))
                                  (timers w2))
                          (next_timer w2) w2))).
  { apply (@fire_delete_timer fuel (next_timer w) w2
             (mkTimer (next_timer w) (mul (noteDuration (xylo w)) (int 1000))
                      (DeleteActiveNote i)) i).
    - rewrite Htimers2, (@find_after _ _ _ _ Hfind). cbn. rewrite Nat.eqb_refl. reflexivity.
    - reflexivity.
    - subst w2 w1. destruct w as [a x v c co tr n ti tm nt j]. exact Hjobs. }
  cbv zeta. unfold Page.after, Page.outcome. rewrite Hthen, Hfire. cbn [snd fst].
  split.
  - unfold Xylophone.isNotePlaying, Xylophone.this, bind, gets, ret.
    cbn [fst xylo set_xylo set_timers].
    destruct (xylo w2) as [ns km nd an mp]. cbn [activeNotes set_activeNotes].
    rewrite has_delete. reflexivity.
  - cbn [timers set_xylo set_timers]. rewrite Htimers2, filter_app, Hfilter.
    cbn [filter timer_id]. rewrite Nat.eqb_refl. cbn [negb].
    replace (Nat.eqb (S (next_timer w)) (next_timer w)) with false
      by (symmetry; apply Nat.eqb_neq; lia).
    reflexivity.
Qed.

(** X10: [getNoteInfo] and [isValidNoteIndex] do not draw the same line.  On
    a page that can arise, [getNoteInfo(n)] gives the name and frequency of a
    note exactly when [isValidNoteIndex(n)] holds and gives [null] exactly
    when [n] is below 0 or not below 11; for any other number (a fraction
    between, or [NaN]) it gives an object with no property, not [null]. *)
Theorem X10_getNoteInfo_and_validity
        (bars : nat) (t0 : Z) (calls : list Api.call) (n : num) :
  let w := Page.after (Api.run calls) (Page.loaded bars t0) in
  exists info : Js.value,
    Xylophone.getNoteInfo n w = (Ok info, w) /\
    Xylophone.isValidNoteIndex (VNum n) w = (Ok (Spec.valid_index 11 n), w) /\
    (Spec.valid_index 11 n = true <->
     exists note : Note,
       nth_error (notes Xylophone.constructor) (Spec.position n) = Some note /\
       info = VObj [("name"%string, VStr (name note));
                    ("frequency"%string, VNum (frequency note))]) /\
    (lt n (int 0) || ge n (int 11) = true <-> info = VNull) /\
    (Spec.valid_index 11 n = false -> lt n (int 0) || ge n (int 11) = false ->
     info = VObj []).
Proof.
  intro w. pose proof (sane_reachable bars t0 calls) as [_ [[Hn _] _]].
  fold w in Hn. clearbody w.
  unfold Xylophone.getNoteInfo, Xylophone.isValidNoteIndex, Xylophone.this,
    bind, gets, ret.
  rewrite Hn.
  change (Xylophone.size (notes Xylophone.constructor)) with (int 11).
  change (Number_isInteger (VNum n) && ge (Xylophone.as_number (VNum n)) (int 0)
          && lt (Xylophone.as_number (VNum n)) (int 11))
    with (Spec.valid_index 11 n).
  destruct (lt n (int 0) || ge n (int 11)) eqn:Hrange.
  - exists VNull. split; [reflexivity|]. split; [reflexivity|].
    assert (Hinvalid : Spec.valid_index 11 n = false).
    { destruct (Spec.valid_index 11 n) eqn:E; [|reflexivity].
      pose proof (@valid_index_range 11 n E) as R.
      change (int (Z.of_nat 11)) with (int 11) in R. congruence. }
    rewrite Hinvalid. split; [|split].
    + split; [discriminate|]. intros [note [_ Hinfo]]. discriminate.
    + split; reflexivity.
    + discriminate.
  - destruct (Xylophone.element (notes Xylophone.constructor) n) as [note|] eqn:Hel.
    + eexists. split; [reflexivity|]. split; [reflexivity|].
      pose proof (@element_valid _ _ _ _ Hel) as Hvalid.
      change (List.length (notes Xylophone.constructor)) with 11%nat in Hvalid.
      rewrite Hvalid. split; [|split].
      * split; [|reflexivity]. intros _. exists note. split; [|reflexivity].
        destruct n as [| | |q]; try discriminate.
        unfold Xylophone.element in Hel.
        destruct (is_integer (Fin q) && Qle_bool 0 q); [exact Hel|discriminate].
      * split; discriminate.
      * discriminate.
    + exists (VObj []). split; [reflexivity|]. split; [reflexivity|].
      assert (Hinvalid : Spec.valid_index 11 n = false).
      { destruct (Spec.valid_index 11 n) eqn:E; [|reflexivity].
        change 11%nat with (List.length (notes Xylophone.constructor)) in E.
        destruct (@valid_element _ _ _ E) as [a Ha]. congruence. }
      rewrite Hinvalid. split; [|split].
      * split; [discriminate|]. intros [note [_ Hinfo]]. discriminate.
      * split; discriminate.
      * reflexivity.
Qed.


(** X8 at bar 3 of a ready page. *)
Lemma X8_strike_is_never_refused_witness :
  exists w' : World,
    Xylophone.playNote (int 3) (Page.after (Api.run Api.start) (Page.loaded 11 0))
    = (Ok true, w') /\
    Xylophone.isNotePlaying (int 3) w' = (Ok true, w').
Proof.
  destruct (@X8_strike_is_never_refused 11 0 Api.start (int 3))
    as [w' [Hplay [Hactive _]]].
  - vm_compute. reflexivity.
  - vm_compute. reflexivity.
  - vm_compute. reflexivity.
  - exists w'. split; [exact Hplay|exact Hactive].
Defined.

(** X9 at bar 3 of a ready page. *)
Lemma X9_second_strike_does_not_extend_witness :
  Page.outcome (Xylophone.playNote (int 3) ;; Xylophone.playNote (int 3))
               (Page.after (Api.run Api.start) (Page.loaded 11 0))
  = Ok true /\
  Page.outcome (Xylophone.isNotePlaying (int 3))
    (Page.after (Xylophone.playNote (int 3) ;; Xylophone.playNote (int 3) ;;
                 Controls.fire_timer 1
                   (next_timer (Page.after (Api.run Api.start) (Page.loaded 11 0))))
                (Page.after (Api.run Api.start) (Page.loaded 11 0)))
  = Ok false.
Proof.
  destruct (@X9_second_strike_does_not_extend 11 0 Api.start (int 3) 1%nat)
    as [Htwice [Hgone _]].
  - vm_compute. reflexivity.
  - vm_compute. reflexivity.
  - vm_compute. reflexivity.
  - vm_compute. reflexivity.
  - vm_compute. reflexivity.
  - split; [exact Htwice|exact Hgone].
Defined.

End RegistryLife.

(** ** The bars on the pages that can arise *)

Section BarsLife.
Import VisualFeedbackS.

Lemma int_valid (b i : nat) : (i < b)%nat -> Spec.valid_index b (int (Z.of_nat i)) = true.
Proof.
  intro H. unfold Spec.valid_index, int.
  cbv [is_integer ge le lt].
  rewrite Qred_int. cbn [Qden Pos.eqb andb].
  apply andb_true_iff. split.
  - apply Qle_bool_iff. unfold Qle. cbn. lia.
  - apply Qltb_true. unfold Qlt. cbn. lia.
Qed.

Lemma int_element (A : Type) (l : list A) (i : nat) :
  (i < List.length l)%nat ->
  Xylophone.element l (int (Z.of_nat i)) = nth_error l i.
Proof.
  intro H. unfold Xylophone.element, int.
  cbv [is_integer]. rewrite Qred_int. cbn [Qden Pos.eqb Qnum andb].
  assert (H0 : Qle_bool 0 (Z.of_nat i # 1) = true).
  { apply Qle_bool_iff. unfold Qle. cbn. lia. }
  rewrite H0, Nat2Z.id. reflexivity.
Qed.

(** The bars that carry the class, counted through their positions. *)
Lemma lit_positions (B : list bool) :
  forall k : nat,
    Spec.lit B
    = List.length (filter (fun i => nth (i - k) B false) (seq k (List.length B))).
Proof.
  unfold Spec.lit. induction B as [|b B IH]; intro k; [reflexivity|].
  assert (Htail : filter (fun i => nth (i - k) (b :: B) false) (seq (S k) (List.length B))
                  = filter (fun i => nth (i - S k) B false) (seq (S k) (List.length B))).
  { apply filter_ext_in. intros i Hi. apply in_seq in Hi.
    replace (i - k)%nat with (S (i - S k)) by lia. reflexivity. }
  assert (Hhead : filter (fun i => nth (i - k) (b :: B) false)
                         (seq k (List.length (b :: B)))
                  = if b
                    then k :: filter (fun i => nth (i - k) (b :: B) false)
                                     (seq (S k) (List.length B))
                    else filter (fun i => nth (i - k) (b :: B) false)
                                (seq (S k) (List.length B))).
  { change (seq k (List.length (b :: B))) with (k :: seq (S k) (List.length B)).
    change (filter (fun i => nth (i - k) (b :: B) false) (k :: seq (S k) (List.length B)))
      with (if nth (k - k) (b :: B) false
            then k :: filter (fun i => nth (i - k) (b :: B) false)
                             (seq (S k) (List.length B))
            else filter (fun i => nth (i - k) (b :: B) false)
                        (seq (S k) (List.length B))).
    rewrite Nat.sub_diag. reflexivity. }
  rewrite Hhead, Htail.
  destruct b; cbn [filter List.length]; rewrite (IH (S k)); reflexivity.
Qed.

(** The entries of the map are as many as the bars that carry the class. *)
Lemma entries_count (b : nat) (v : VisualFeedbackS.t) :
  Spec.visual_ok b v ->
  List.length (activeTimeouts v) = Spec.lit (barElements v).
Proof.
  intros [Hlen [Hdis [Hval [Hbars _]]]].
  rewrite (lit_positions (barElements v) 0), Hlen.
  set (keys := map fst (activeTimeouts v)) in *.
  assert (Hnodup : NoDup (map Spec.position keys)).
  { clearbody keys. clear Hbars Hlen.
    induction keys as [|n l IH]; [constructor|].
    cbn in Hdis, Hval |- *. apply andb_true_iff in Hdis. destruct Hdis as [Hn Hd].
    apply andb_true_iff in Hval. destruct Hval as [Hvn Hv].
    constructor; [|apply IH; assumption].
    intro Hin. apply in_map_iff in Hin. destruct Hin as [m [Hpos Hm]].
    assert (Hvm : Spec.valid_index b m = true).
    { rewrite forallb_forall in Hv. apply Hv. exact Hm. }
    destruct (@valid_position_same b n Hvn) as [_ Sn].
    destruct (@valid_position_same b m Hvm) as [_ Sm].
    rewrite Hpos in Sm. rewrite same_sym in Sm.
    pose proof (@same_trans _ _ _ Sn Sm) as Hnm.
    assert (Hhas : Xylophone.has n l = true).
    { unfold Xylophone.has. apply existsb_exists. exists m. split; assumption. }
    rewrite Hhas in Hn. discriminate. }
  assert (Hlit : NoDup (filter (fun i => nth (i - 0) (barElements v) false) (seq 0 b))).
  { apply NoDup_filter. apply seq_NoDup. }
  assert (Hsame : forall i : nat,
             In i (map Spec.position keys)
             <-> In i (filter (fun i => nth (i - 0) (barElements v) false) (seq 0 b))).
  { intro i. rewrite filter_In, in_seq, Nat.sub_0_r. split.
    - intro Hin. apply in_map_iff in Hin. destruct Hin as [m [<- Hm]].
      assert (Hvm : Spec.valid_index b m = true).
      { rewrite forallb_forall in Hval. apply Hval. exact Hm. }
      destruct (@valid_position_same b m Hvm) as [Hlt Sm].
      split; [lia|]. rewrite (Hbars _ Hlt), <- has_key_keys.
      unfold Xylophone.has. apply existsb_exists. exists m. split; [exact Hm|].
      rewrite same_sym. exact Sm.
    - intros [[_ Hlt] Hon]. cbn in Hlt. rewrite (Hbars _ Hlt), <- has_key_keys in Hon.
      unfold Xylophone.has in Hon. apply existsb_exists in Hon.
      destruct Hon as [m [Hm Sm]]. apply in_map_iff. exists m. split; [|exact Hm].
      assert (Hvm : Spec.valid_index b m = true).
      { rewrite forallb_forall in Hval. apply Hval. exact Hm. }
      destruct (@valid_position_same b m Hvm) as [_ Sm'].
      pose proof (@same_trans _ _ _ Sm Sm') as Hik.
      rewrite same_int_nat in Hik. apply Nat.eqb_eq in Hik. congruence. }
  assert (Hle1 : (List.length (map Spec.position keys)
                  <= List.length (filter (fun i => nth (i - 0) (barElements v) false)
                                         (seq 0 b)))%nat).
  { apply NoDup_incl_length; [exact Hnodup|]. intros i Hi. apply Hsame. exact Hi. }
  assert (Hle2 : (List.length (filter (fun i => nth (i - 0) (barElements v) false)
                                      (seq 0 b))
                  <= List.length (map Spec.position keys))%nat).
  { apply NoDup_incl_length; [exact Hlit|]. intros i Hi. apply Hsame. exact Hi. }
  subst keys. rewrite !List.length_map in Hle1, Hle2. lia.
Qed.

(** X11: whatever calls the page makes, the visual feedback holds together:
    the map of pending removals has distinct keys, all of them bars of the
    page, and a bar carries the animation class exactly when the map has an
    entry for it.  So [isBarActive(i)] tells whether the map has [i], and
    [getActiveBarCount()] is the number of bars that carry the class. *)
Theorem X11_bars_hold_together (bars : nat) (t0 : Z) (calls : list Api.call) :
  let w := Page.after (Api.run calls) (Page.loaded bars t0) in
  Spec.visual_ok bars (visual w) /\
  VisualFeedback.getActiveBarCount w = (Ok (Spec.lit (barElements (visual w))), w) /\
  forall i : nat,
    (i < bars)%nat ->
    VisualFeedback.isBarActive (int (Z.of_nat i)) w
    = (Ok (Spec.has_key (int (Z.of_nat i)) (activeTimeouts (visual w))), w).
Proof.
  intro w. pose proof (sane_reachable bars t0 calls) as [_ [_ [H _]]].
  fold w in H. clearbody w. split; [exact H|]. split.
  - unfold VisualFeedback.getActiveBarCount, VisualFeedback.this, bind, gets, ret.
    rewrite (@entries_count bars _ H). reflexivity.
  - intros i Hi. pose proof H as [Hlen [_ [_ [Hbars [_ Hini]]]]].
    assert (Einit : isInitialized (visual w) = true).
    { destruct bars; [lia|exact Hini]. }
    unfold VisualFeedback.isBarActive, VisualFeedback.this, bind, gets, ret.
    rewrite Einit. cbn [negb orb].
    pose proof (@int_valid bars i Hi) as Hv.
    pose proof (@valid_index_range bars _ Hv) as Hr.
    rewrite <- Hlen in Hr. unfold Xylophone.size. rewrite Hr.
    rewrite int_element by lia.
    rewrite <- (Hbars i Hi).
    destruct (nth_error (barElements (visual w)) i) as [b|] eqn:E.
    + rewrite (nth_error_nth _ _ false E). reflexivity.
    + apply nth_error_None in E. lia.
Qed.

(** The loop of [deactivateAllBars] leaves no bar with the class when every
    bar that has it has an entry. *)
Lemma all_bars_off (B : list bool) :
  (forall i : nat, (i < List.length B)%nat -> nth i B false = false) ->
  Spec.lit B = 0%nat.
Proof.
  unfold Spec.lit. induction B as [|b B IH]; intro H; [reflexivity|].
  pose proof (H 0%nat ltac:(cbn; lia)) as H0. cbn in H0. subst b. cbn.
  apply IH. intros i Hi. apply (H (S i)). cbn. lia.
Qed.

(** X12: on a page that can arise, [deactivateAllBars()] returns without
    throwing and leaves no bar active: no bar carries the animation class,
    [isBarActive] is [false] for every bar, and [getActiveBarCount()] is 0. *)
Theorem X12_deactivateAllBars_clears_every_bar
        (bars : nat) (t0 : Z) (calls : list Api.call) :
  let w := Page.after (Api.run calls) (Page.loaded bars t0) in
  exists w' : World,
    VisualFeedback.deactivateAllBars w = (Ok tt, w') /\
    Spec.lit (barElements (visual w')) = 0%nat /\
    VisualFeedback.getActiveBarCount w' = (Ok 0%nat, w') /\
    forall i : nat,
      (i < bars)%nat ->
      VisualFeedback.isBarActive (int (Z.of_nat i)) w' = (Ok false, w').
Proof.
  intro w. pose proof (sane_reachable bars t0 calls) as H.
  fold w in H. clearbody w.
  pose proof H as [_ [_ [Hv Ht]]].
  pose proof Hv as [Hlen [Hdis [Hval [Hbars [Hdur Hini]]]]].
  unfold VisualFeedback.deactivateAllBars, VisualFeedback.this.
  unfold bind at 1. unfold gets at 1. cbn beta.
  destruct (isInitialized (visual w)) eqn:Einit; cbn [negb].
  - destruct (@clear_each_runs bars (activeTimeouts (visual w)) w Hlen Hval Ht)
      as [w' [Hrun [Ea [Ex [Ht' [Hlen' [Hd' [HT' [Hi' Hbars']]]]]]]]].
    rewrite (bind_ok _ Hrun). eexists. split; [reflexivity|].
    assert (Hoff : forall i : nat,
               (i < bars)%nat -> nth i (barElements (visual w')) false = false).
    { intros i Hi. rewrite (Hbars' i Hi), (Hbars i Hi). apply andb_negb_r. }
    destruct (visual w') as [B' dur' T' ini'] eqn:Ev.
    cbn in Hlen', Hi', Hoff.
    unfold VisualFeedback.getActiveBarCount, VisualFeedback.isBarActive,
      VisualFeedback.this, bind, gets, ret.
    cbn [visual set_visual set_activeTimeouts barElements activeTimeouts isInitialized
         fst snd List.length].
    split; [apply all_bars_off; rewrite Hlen'; exact Hoff|].
    split; [reflexivity|].
    intros i Hi. rewrite Hi', Einit. cbn [negb orb].
    pose proof (@int_valid bars i Hi) as Hvi.
    pose proof (@valid_index_range bars _ Hvi) as Hr.
    rewrite <- Hlen' in Hr. unfold Xylophone.size. rewrite Hr.
    rewrite int_element by lia.
    destruct (nth_error B' i) as [b|] eqn:E.
    + rewrite <- (Hoff i Hi), (nth_error_nth _ _ false E). reflexivity.
    + apply nth_error_None in E. lia.
  - assert (Hzero : bars = 0%nat).
    { destruct bars; [reflexivity|]. cbn in Hini. congruence. }
    exists w. split; [reflexivity|].
    assert (Hnil : barElements (visual w) = []).
    { apply length_zero_iff_nil. lia. }
    pose proof (@entries_count bars _ Hv) as Hcount. rewrite Hnil in Hcount.
    unfold VisualFeedback.getActiveBarCount, VisualFeedback.this, bind, gets, ret.
    rewrite Hnil, Hcount. split; [reflexivity|]. split; [reflexivity|].
    intros i Hi. lia.
Qed.


Lemma has_key_same (a b : num) (T : list (num * nat)) :
  same a b = true -> Spec.has_key a T = Spec.has_key b T.
Proof.
  intro H. unfold Spec.has_key. induction T as [|[k id] T IH]; [reflexivity|].
  cbn [existsb fst]. rewrite IH, (@same_left a b k H). reflexivity.
Qed.

Lemma find_none_has_key (n : num) (T : list (num * nat)) :
  Spec.has_key n T = false -> find (fun kt => same n (fst kt)) T = None.
Proof.
  unfold Spec.has_key. induction T as [|[k id] T IH]; intro H; [reflexivity|].
  cbn [existsb find fst] in H |- *. apply orb_false_iff in H. destruct H as [Hk H].
  rewrite Hk. apply IH. exact H.
Qed.

Lemma set_nth_twice (A : Type) (a b : A) (l : list A) :
  forall p : nat,
    VisualFeedback.set_nth p a (VisualFeedback.set_nth p b l) = VisualFeedback.set_nth p a l.
Proof.
  induction l as [|x l IH]; intros [|p]; cbn; try reflexivity.
  rewrite IH. reflexivity.
Qed.

Lemma set_nth_same (l : list bool) :
  forall p : nat, nth p l false = false -> VisualFeedback.set_nth p false l = l.
Proof.
  induction l as [|x l IH]; intros [|p] H; cbn in H |- *; try reflexivity.
  - subst x. reflexivity.
  - rewrite (IH p H). reflexivity.
Qed.

(** What [activateBar] does on a bar of the page that is not active. *)
Lemma activate_inactive (bars : nat) (n : num) (w : World) :
  Spec.visual_ok bars (visual w) ->
  Spec.valid_index bars n = true ->
  Spec.has_key n (activeTimeouts (visual w)) = false ->
  VisualFeedback.activateBar n w
  = (Ok true,
     set_visual
       (mk (VisualFeedback.set_nth (Spec.position n) true (barElements (visual w)))
           (activeDuration (visual w))
           (activeTimeouts (visual w) ++ [(n, next_timer w)])
           (isInitialized (visual w)))
       (set_timers
          (timers w ++ [mkTimer (next_timer w) (activeDuration (visual w))
                                (RemoveActiveClass n)])
          (S (next_timer w)) w)).
Proof.
  intros [Hlen [_ [_ [_ [_ Hini]]]]] Hv Hoff.
  assert (Einit : isInitialized (visual w) = true).
  { destruct bars; [|exact Hini].
    destruct (@valid_position_same 0 n Hv) as [Hlt _]. lia. }
  pose proof (@valid_index_range bars n Hv) as Hr. rewrite <- Hlen in Hr.
  pose proof Hv as Hv'. rewrite <- Hlen in Hv'.
  destruct (@valid_element _ _ _ Hv') as [b Hb].
  pose proof (@find_none_has_key _ _ Hoff) as Hfind.
  destruct (@valid_position bars n Hv) as [q [Hq _]].
  unfold VisualFeedback.activateBar, VisualFeedback.this.
  unfold bind at 1. unfold gets at 1. cbn beta.
  rewrite Einit. cbn [negb]. unfold Xylophone.size at 1. rewrite Hr, Hfind, Hb.
  destruct w as [a x v c co tr nw ti tm nt j].
  destruct v as [B dur T ini]. cbn in Einit. subst ini. cbn in Hfind |- *.
  rewrite (@not_found_delete _ _ Hfind). rewrite Hq. reflexivity.
Qed.

(** X13: on a page that can arise, [activateBar] on a bar that is not
    active followed by [deactivateBar] on the same bar leaves the visual
    feedback and the pending timers exactly as they were: both calls return
    [true], the bar is active in between, and the timer the first call set
    is cancelled by the second. *)
Theorem X13_activate_then_deactivate
        (bars : nat) (t0 : Z) (calls : list Api.call) (n : num) :
  let w := Page.after (Api.run calls) (Page.loaded bars t0) in
  Spec.valid_index bars n = true ->
  Spec.has_key n (activeTimeouts (visual w)) = false ->
  Spec.fresh_ids w = true ->
  exists w1 w2 : World,
    VisualFeedback.activateBar n w = (Ok true, w1) /\
    Spec.has_key n (activeTimeouts (visual w1)) = true /\
    nth (Spec.position n) (barElements (visual w1)) false = true /\
    VisualFeedback.deactivateBar n w1 = (Ok true, w2) /\
    visual w2 = visual w /\
    timers w2 = timers w.
Proof.
  intros w Hv Hoff Hfresh. pose proof (sane_reachable bars t0 calls) as H.
  fold w in H. clearbody w.
  pose proof H as [_ [_ [Hok _]]].
  pose proof (@activate_inactive bars n w Hok Hv Hoff) as Hon.
  set (w1 := set_visual _ _) in Hon.
  pose proof (@sane_activateBar bars n w H) as H1. rewrite Hon in H1. cbn [snd] in H1.
  pose proof H1 as [_ [_ [Hok1 _]]].
  pose proof Hok as [Hlen [_ [_ [Hbars [_ Hini]]]]].
  destruct (@valid_position_same bars n Hv) as [Hpos Hsame].
  assert (Einit : isInitialized (visual w) = true).
  { destruct bars; [lia|exact Hini]. }
  assert (Hbar : nth (Spec.position n) (barElements (visual w)) false = false).
  { rewrite (Hbars _ Hpos), <- (@has_key_same _ _ _ Hsame). exact Hoff. }
  unfold Spec.fresh_ids in Hfresh.
  destruct (@find_fresh _ _ Hfresh) as [_ Hfilter].
  destruct (@valid_position bars n Hv) as [q [Hq _]].
  exists w1, (set_timers (timers w) (S (next_timer w)) w). split; [exact Hon|].
  split.
  { subst w1. cbn. rewrite existsb_app. cbn [existsb fst].
    rewrite same_refl. rewrite orb_true_l. apply orb_true_r. }
  split.
  { subst w1. cbn. rewrite set_nth_nth by lia. rewrite Nat.eqb_refl. reflexivity. }
  assert (Hfind1 : find (fun kt => same n (fst kt)) (activeTimeouts (visual w1))
                   = Some (n, next_timer w)).
  { subst w1. cbn. rewrite (@find_after _ _ _ _ (@find_none_has_key _ _ Hoff)).
    cbn. rewrite same_refl. reflexivity. }
  pose proof Hok1 as [Hlen1 _].
  pose proof (@valid_index_range bars n Hv) as Hr. rewrite <- Hlen1 in Hr.
  pose proof Hv as Hv'. rewrite <- Hlen1 in Hv'.
  destruct (@valid_element _ _ _ Hv') as [b Hb].
  unfold VisualFeedback.deactivateBar, VisualFeedback.this.
  unfold bind at 1. unfold gets at 1. cbn beta.
  assert (Einit1 : isInitialized (visual w1) = true) by (subst w1; exact Einit).
  rewrite Einit1. cbn [negb]. unfold Xylophone.size at 1. rewrite Hr, Hfind1, Hb.
  subst w1.
  destruct w as [a x v c co tr nw ti tm nt j].
  destruct v as [B dur T ini].
  cbn in Hbar, Hfilter, Hoff |- *.
  split; [|split; reflexivity].
  rewrite filter_app, (@not_found_delete _ _ (@find_none_has_key _ _ Hoff)).
  cbn [filter fst]. rewrite same_refl. cbn [negb]. rewrite List.app_nil_r.
  rewrite filter_app, Hfilter. cbn [filter timer_id]. rewrite Nat.eqb_refl. cbn [negb].
  rewrite List.app_nil_r.
  rewrite Hq. cbn [VisualFeedback.set_class].
  rewrite Hq in Hbar. cbn [Spec.position] in Hbar |- *.
  rewrite set_nth_twice, (@set_nth_same _ _ Hbar). reflexivity.
Qed.

(** X13 at bar 2 of a ready page. *)
Lemma X13_activate_then_deactivate_witness :
  exists w1 w2 : World,
    VisualFeedback.activateBar (int 2) (Page.after (Api.run Api.start) (Page.loaded 11 0))
    = (Ok true, w1) /\
    VisualFeedback.deactivateBar (int 2) w1 = (Ok true, w2) /\
    visual w2 = visual (Page.after (Api.run Api.start) (Page.loaded 11 0)).
Proof.
  destruct (@X13_activate_then_deactivate 11 0 Api.start (int 2))
    as [w1 [w2 [Hon [_ [_ [Hoff [Hvisual _]]]]]]].
  - vm_compute. reflexivity.
  - vm_compute. reflexivity.
  - vm_compute. reflexivity.
  - exists w1, w2. split; [exact Hon|]. split; [exact Hoff|exact Hvisual].
Defined.

End BarsLife.

Section InputLife.
Import ControlsS.

Lemma reported_returns (A : Type) (m : M World A) (w : World) :
  exists w' : World, Controls.reported m w = (Ok tt, w').
Proof.
  unfold Controls.reported. destruct (m w) as [[a|e] w']; eexists; reflexivity.
Qed.

(** The listeners of [notePlayed] never let an exception out. *)
Lemma dispatchEvent_returns (detail : NoteDetail) (w : World) :
  exists w' : World, Controls.dispatchEvent detail w = (Ok tt, w').
Proof.
  unfold Controls.dispatchEvent, Controls.this.
  unfold bind at 1. unfold gets at 1. cbn beta.
  generalize (listeners (ctrl w)) as ls.
  intro ls. revert w.
  induction ls as [|l ls IH]; intro w; cbn [Controls.for_each].
  - exists w. reflexivity.
  - assert (Hone : exists w1,
               match l with
               | NotePlayed => Controls.reported (Controls.notePlayedHandler detail)
               | _ => ret tt
               end w = (Ok tt, w1)).
    { destruct l; try (exists w; reflexivity). apply reported_returns. }
    destruct Hone as [w1 H1].
    rewrite (bind_ok _ H1). apply IH.
Qed.

(** A value that is a valid index is a number, and converts to a string. *)
Lemma integer_has_string (v : Js.value) :
  Number_isInteger v = true -> has_string v = true.
Proof. destruct v; try discriminate. reflexivity. Qed.

(** [handleBarActivation] returns on every argument that converts to a
    string, in every state. *)
Lemma handleBarActivation_returns (w : World) (v : Js.value) :
  has_string v = true ->
  exists w' : World,
    InputHandler.handleBarActivation Controls.dispatchEvent v w = (Ok tt, w') /\
    (Page.outcome (Xylophone.isValidNoteIndex v) w = Ok false ->
     w' = set_console (mkEntry Warn "Invalid note index: " [v] :: console_out w) w).
Proof.
  intro Hstring.
  assert (E : Xylophone.isValidNoteIndex v w
              = (Ok (Number_isInteger v
                     && ge (Xylophone.as_number v) (int 0)
                     && lt (Xylophone.as_number v)
                           (Xylophone.size (XylophoneS.notes (xylo w)))), w))
    by reflexivity.
  unfold InputHandler.handleBarActivation, Page.outcome.
  rewrite (bind_ok _ E), E. cbn [fst].
  destruct (Number_isInteger v
            && ge (Xylophone.as_number v) (int 0)
            && lt (Xylophone.as_number v) (Xylophone.size (XylophoneS.notes (xylo w))))
    eqn:Hvalid; cbn [negb].
  2:{ rewrite Hstring. eexists. split; [reflexivity|]. intros _. reflexivity. }
  apply andb_true_iff in Hvalid. destruct Hvalid as [Hvalid _].
  apply andb_true_iff in Hvalid. destruct Hvalid as [Hint Hge].
  assert (Hint' : is_integer (Xylophone.as_number v) = true).
  { destruct v; try discriminate. exact Hint. }
  destruct (@Xylophone_playNote_sound (Xylophone.as_number v) w Hint' Hge)
    as [b [w1 [Hplay _]]].
  rewrite (bind_ok _ Hplay).
  destruct b.
  2:{ exists w1. split; [reflexivity|]. discriminate. }
  destruct (@activateBar_sound (Xylophone.as_number v) w1 Hint' Hge) as [b' [w2 [Hbar _]]].
  rewrite (bind_ok _ Hbar).
  unfold InputHandler.emitNoteEvent.
  destruct (Date_now_upcoming w2) as [t [w3 [Hnow _]]].
  rewrite (bind_ok _ Hnow).
  destruct (dispatchEvent_returns (mkDetail v t) w3) as [w4 H4].
  exists w4. split; [exact H4|]. discriminate.
Qed.

(** On a value that does not convert to a string, [handleBarActivation]
    throws from the template literal of its warning. *)
Lemma handleBarActivation_throws (w : World) (v : Js.value) :
  has_string v = false ->
  Page.outcome (Xylophone.isValidNoteIndex v) w = Ok false /\
  InputHandler.handleBarActivation Controls.dispatchEvent v w
  = (Throw (TypeError "Cannot convert object to primitive value"), w).
Proof.
  intro Hstring.
  assert (Hint : Number_isInteger v = false).
  { destruct (Number_isInteger v) eqn:E; [|reflexivity].
    rewrite (@integer_has_string v E) in Hstring. discriminate. }
  assert (E : Xylophone.isValidNoteIndex v w = (Ok false, w)).
  { unfold Xylophone.isValidNoteIndex, Xylophone.this, bind, gets, ret.
    rewrite Hint. reflexivity. }
  unfold InputHandler.handleBarActivation, Page.outcome.
  rewrite (bind_ok _ E), E. cbn [fst negb].
  split; [reflexivity|].
  unfold bind, throw. rewrite Hstring. reflexivity.
Qed.

(** X14: [handleBarActivation] throws exactly on the values that have no
    conversion to a string, whatever state the page is in.  On every other
    value it returns: the test of [isValidNoteIndex] keeps from
    [xylophone.playNote] and [activateBar] every argument on which they
    would throw, and the listeners of the event it emits keep their
    exceptions; given anything but a valid index it writes one warning and
    changes nothing else.  A value without a conversion to a string (an
    object whose own [toString] is not a function, or an array that holds
    one) is no valid index, and the template literal of the warning throws a
    [TypeError] on it before anything is written. *)
Theorem X14_handleBarActivation_outcome (w : World) (v : Js.value) :
  if has_string v then
    exists w' : World,
      InputHandler.handleBarActivation Controls.dispatchEvent v w = (Ok tt, w') /\
      (Page.outcome (Xylophone.isValidNoteIndex v) w = Ok false ->
       w' = set_console (mkEntry Warn "Invalid note index: " [v] :: console_out w) w)
  else
    Page.outcome (Xylophone.isValidNoteIndex v) w = Ok false /\
    exists message : string,
      InputHandler.handleBarActivation Controls.dispatchEvent v w
      = (Throw (TypeError message), w).
Proof.
  destruct (has_string v) eqn:E.
  - exact (@handleBarActivation_returns w v E).
  - destruct (@handleBarActivation_throws w v E) as [H1 H2].
    split; [exact H1|]. eexists. exact H2.
Qed.


Lemma room_now (k : nat) (c : ControlsS.t) :
  Spec.room (S k) c = true ->
  ge (Xylophone.size (recordedSequence c)) (maxRecordingLength c) = false.
Proof.
  unfold Spec.room, Xylophone.size. intro H. apply negb_true_iff in H.
  destruct (maxRecordingLength c) as [| | |q]; try reflexivity; try discriminate.
  cbv [ge le int] in H |- *.
  destruct (Qle_bool q (Z.of_nat (List.length (recordedSequence c)) # 1)) eqn:E;
    [|reflexivity].
  apply Qle_bool_iff in E.
  assert (Hle : Qle_bool q (Z.of_nat (List.length (recordedSequence c) + k) # 1) = true).
  { apply Qle_bool_iff. eapply Qle_trans; [exact E|]. unfold Qle. cbn. lia. }
  rewrite Hle in H. discriminate.
Qed.

(** The listeners of [notePlayed] while the recorder records and has room:
    each of them stores the note. *)
Lemma record_each (d : NoteDetail) (ls : list listener) :
  forall w : World,
    isRecording (ctrl w) = true ->
    Spec.room (List.length (filter (fun l => match l with NotePlayed => true | _ => false end) ls))
              (ctrl w) = true ->
    exists c' : ControlsS.t,
      Controls.for_each
        (fun l => match l with
                  | NotePlayed => Controls.reported (Controls.notePlayedHandler d)
                  | _ => ret tt
                  end) ls w
      = (Ok tt, set_ctrl c' w) /\
      recordedSequence c'
      = recordedSequence (ctrl w)
          ++ repeat (Spec.entry (recordingStartTime (ctrl w)) d)
                    (List.length (filter (fun l => match l with NotePlayed => true | _ => false end) ls)) /\
      isRecording c' = true /\
      recordingStartTime c' = recordingStartTime (ctrl w) /\
      maxRecordingLength c' = maxRecordingLength (ctrl w) /\
      listeners c' = listeners (ctrl w).
Proof.
  induction ls as [|l ls IH]; intros w Hrec Hroom.
  - exists (ctrl w). cbn. rewrite List.app_nil_r.
    split; [destruct w; reflexivity|]. split; [reflexivity|].
    split; [exact Hrec|]. repeat split.
  - cbn [Controls.for_each].
    destruct l; cbn [filter List.length] in Hroom |- *;
      try (rewrite (bind_ok (m := ret tt) _ (eq_refl : ret tt w = (Ok tt, w)));
           exact (IH w Hrec Hroom)).
    pose proof (@room_now _ _ Hroom) as Hnow.
    destruct (@recordNote_appends w d Hrec Hnow) as [msg Happ].
    set (c1 := set_recordingStatus _ _) in Happ.
    assert (Hone : Controls.reported (Controls.notePlayedHandler d) w
                   = (Ok tt, set_ctrl c1 w)).
    { unfold Controls.reported, Controls.notePlayedHandler, Controls.this.
      unfold bind at 1. unfold gets at 1. cbn beta. rewrite Hrec, Happ. reflexivity. }
    rewrite (bind_ok _ Hone).
    assert (Hroom1 : Spec.room
                       (List.length (filter (fun l => match l with NotePlayed => true | _ => false end) ls))
                       (ctrl (set_ctrl c1 w)) = true).
    { destruct (List.length (filter _ ls)) as [|k] eqn:Ek; [reflexivity|].
      unfold Spec.room in Hroom |- *. subst c1. cbn.
      rewrite length_app. cbn [List.length].
      replace (List.length (recordedSequence (ctrl w)) + 1 + k)%nat
        with (List.length (recordedSequence (ctrl w)) + S k)%nat by lia.
      exact Hroom. }
    destruct (IH (set_ctrl c1 w) Hrec Hroom1) as [c' [Hrun [Hseq [Hr [Hs [Hm Hl]]]]]].
    exists c'. split; [exact Hrun|].
    split.
    { rewrite Hseq. subst c1. cbn. rewrite <- List.app_assoc. reflexivity. }
    split; [exact Hr|]. split; [exact Hs|]. split; [exact Hm|exact Hl].
Qed.


(** X15: a strike while the recorder records is stored once for each
    [notePlayed] listener the controls have registered, so once for each
    [initialize()] that succeeded.  On a page that can arise, with the
    engine initialized, the polyphony limit above eleven, the recorder
    recording with room for the notes: [handleBarActivation] on a bar of
    the xylophone returns, and the sequence has grown by one record of the
    bar for each listener, each with the delay from the start of the
    recording to the reading of the clock. *)
Theorem X15_strike_is_recorded_once_per_listener
        (bars : nat) (t0 : Z) (calls : list Api.call) (i : num) :
  let w := Page.after (Api.run calls) (Page.loaded bars t0) in
  AudioEngineS.isInitialized (audio w) = true ->
  Spec.valid_index 11 i = true ->
  gt (XylophoneS.maxPolyphony (xylo w)) (int 11) = true ->
  isRecording (ctrl w) = true ->
  Spec.room (Spec.note_listeners (ctrl w)) (ctrl w) = true ->
  exists w' : World,
    InputHandler.handleBarActivation Controls.dispatchEvent (VNum i) w = (Ok tt, w') /\
    recordedSequence (ctrl w')
    = recordedSequence (ctrl w)
        ++ repeat (Spec.entry (recordingStartTime (ctrl w))
                              (mkDetail (VNum i) (hd NaN (Spec.upcoming w))))
                  (Spec.note_listeners (ctrl w)) /\
    isRecording (ctrl w') = true.
Proof.
  intros w Hinit Hv Hlimit Hrec Hroom.
  pose proof (sane_reachable bars t0 calls) as H.
  pose proof (settings_reachable bars t0 calls) as Hset.
  fold w in H, Hset. clearbody w.
  pose proof H as [_ [Hx _]]. pose proof Hx as [Hn _].
  assert (E : Xylophone.isValidNoteIndex (VNum i) w = (Ok true, w)).
  { unfold Xylophone.isValidNoteIndex, Xylophone.this, bind, gets, ret.
    rewrite Hn.
    change (Number_isInteger (VNum i) && ge (Xylophone.as_number (VNum i)) (int 0)
            && lt (Xylophone.as_number (VNum i))
                  (Xylophone.size (XylophoneS.notes Xylophone.constructor)))
      with (Spec.valid_index 11 i).
    rewrite Hv. reflexivity. }
  destruct (@strike_succeeds bars i w H Hset Hinit Hv Hlimit) as [a' [co' [Hplay _]]].
  set (w1 := set_console _ _) in Hplay.
  assert (Hint : is_integer i = true /\ ge i (int 0) = true).
  { unfold Spec.valid_index in Hv.
    apply andb_true_iff in Hv. destruct Hv as [Hv _].
    apply andb_true_iff in Hv. exact Hv. }
  destruct Hint as [Hint Hge].
  destruct (@activateBar_sound i w1 Hint Hge) as [b' [w2 [Hbar [A1 [_ [A3 [A4 _]]]]]]].
  destruct (Date_now_upcoming w2) as [t [w3 [Hnow [B1 [_ [B3 _]]]]]].
  assert (Ht : t = hd NaN (Spec.upcoming w)).
  { rewrite <- B3. unfold Spec.upcoming. rewrite A3, A4. reflexivity. }
  assert (Hc : ctrl w3 = ctrl w).
  { rewrite B1, A1. reflexivity. }
  unfold InputHandler.handleBarActivation.
  rewrite (bind_ok _ E). cbn [negb].
  change (Xylophone.as_number (VNum i)) with i.
  rewrite (bind_ok _ Hplay), (bind_ok _ Hbar).
  unfold InputHandler.emitNoteEvent. rewrite (bind_ok _ Hnow).
  unfold Controls.dispatchEvent, Controls.this.
  unfold bind at 1. unfold gets at 1. cbn beta.
  rewrite <- Hc in Hrec, Hroom. unfold Spec.note_listeners in Hroom.
  destruct (@record_each (mkDetail (VNum i) t) (listeners (ctrl w3)) w3 Hrec Hroom)
    as [c' [Hrun [Hseq [Hr _]]]].
  exists (set_ctrl c' w3). split; [exact Hrun|].
  split; [|exact Hr].
  cbn [ctrl set_ctrl]. rewrite Hseq, Hc, Ht. reflexivity.
Qed.

(** X15 on a page whose controls were initialized twice: the strike of bar 3
    is in the sequence twice. *)
Lemma X15_strike_is_recorded_once_per_listener_witness :
  exists w' : World,
    InputHandler.handleBarActivation Controls.dispatchEvent (VNum (int 3))
      (Page.after (Api.run (Api.start
                              ++ [Api.ControlsInitialize Page.controls_page;
                                  Api.StartRecording;
                                  Api.ClockReads [250]]))
                  (Page.loaded 11 0))
    = (Ok tt, w') /\
    recordedSequence (ctrl w') = [Spec.note_record 3 250; Spec.note_record 3 250].
Proof.
  destruct (@X15_strike_is_recorded_once_per_listener
              11 0 (Api.start ++ [Api.ControlsInitialize Page.controls_page;
                                  Api.StartRecording;
                                  Api.ClockReads [250]]) (int 3))
    as [w' [Hrun [Hseq _]]].
  - vm_compute. reflexivity.
  - vm_compute. reflexivity.
  - vm_compute. reflexivity.
  - vm_compute. reflexivity.
  - vm_compute. reflexivity.
  - exists w'. split; [exact Hrun|]. rewrite Hseq. vm_compute. reflexivity.
Defined.


Lemma on_page_ok (A : Type) (m : M World A) (h : InputHandlerS.t) (w w' : World) (a : A) :
  m w = (Ok a, w') -> InputHandler.on_page m (h, w) = (Ok a, (h, w')).
Proof.
  intro H. unfold InputHandler.on_page, zoom. cbn [fst snd]. rewrite H. reflexivity.
Qed.

Lemma getNoteIndexForKey_returns (key : string) (w : World) (noteIndex : Js.value) :
  Page.outcome (Xylophone.getNoteIndexForKey key) w = Ok (Some noteIndex) ->
  Xylophone.getNoteIndexForKey key w = (Ok (Some noteIndex), w).
Proof.
  unfold Page.outcome, Xylophone.getNoteIndexForKey, Xylophone.this, bind, gets, ret.
  cbn [fst]. intro H. rewrite H. reflexivity.
Qed.

Lemma filter_released (key : string) (l : list string) :
  existsb (String.eqb key) l = false ->
  filter (fun k => negb (String.eqb key k)) (l ++ [key]) = l.
Proof.
  intro H. rewrite filter_app. cbn [filter]. rewrite String.eqb_refl. cbn [negb].
  rewrite List.app_nil_r.
  induction l as [|k l IH]; [reflexivity|].
  cbn [existsb filter] in H |- *. apply orb_false_iff in H. destruct H as [Hk H].
  rewrite Hk. cbn [negb]. rewrite (IH H). reflexivity.
Qed.

(** What the key map gives for a key converts to a string: a number, or a
    member of [Object.prototype]. *)
Lemma mapped_has_string (key : string) (w : World) (noteIndex : Js.value) :
  Page.outcome (Xylophone.getNoteIndexForKey key) w = Ok (Some noteIndex) ->
  has_string noteIndex = true.
Proof.
  unfold Page.outcome, Xylophone.getNoteIndexForKey, Xylophone.this, bind, gets, ret.
  cbn [fst]. destruct (Xylophone.keyMap_get key (xylo w)); intro H;
    try discriminate; injection H as <-; reflexivity.
Qed.

(** X16: one strike for each press of a key.  A [keydown] of a mapped key
    that is not held, when the debounce time has passed since its last
    strike, calls [preventDefault()], notes the key as held and the reading
    of the clock as its last press, and activates the bar.  While the key
    is held, further [keydown] events of it (the auto-repeat) change
    nothing, whatever the page does meanwhile.  [keyup] releases the key;
    a [keydown] that follows within the debounce time of the strike reads
    the clock and does nothing else. *)
Theorem X16_one_strike_for_each_press
        (h : InputHandlerS.t) (w : World) (key : string) (noteIndex : Js.value) :
  Page.outcome (Xylophone.getNoteIndexForKey key) w = Ok (Some noteIndex) ->
  existsb (String.eqb key) (InputHandlerS.keysCurrentlyPressed h) = false ->
  lt (sub (hd NaN (Spec.upcoming w))
          (InputHandler.last_press key (InputHandlerS.lastKeyPress h)))
     (InputHandlerS.keyDebounceTime h) = false ->
  exists (h1 : InputHandlerS.t) (w1 : World),
    InputHandler.keyDownHandler Controls.dispatchEvent key (h, w) = (Ok true, (h1, w1)) /\
    w1 = Page.after (InputHandler.handleBarActivation Controls.dispatchEvent noteIndex)
                    (Page.after Browser.Date_now w) /\
    h1 = InputHandlerS.mk
           (InputHandlerS.keyDebounceTime h)
           (InputHandler.map_set key (hd NaN (Spec.upcoming w)) (InputHandlerS.lastKeyPress h))
           (InputHandlerS.keysCurrentlyPressed h ++ [key]) /\
    (forall (w2 : World) (n2 : Js.value),
        Page.outcome (Xylophone.getNoteIndexForKey key) w2 = Ok (Some n2) ->
        InputHandler.keyDownHandler Controls.dispatchEvent key (h1, w2)
        = (Ok true, (h1, w2))) /\
    exists h2 : InputHandlerS.t,
      InputHandler.keyUpHandler key (h1, w1) = (Ok tt, (h2, w1)) /\
      InputHandlerS.keysCurrentlyPressed h2 = InputHandlerS.keysCurrentlyPressed h /\
      forall (w2 : World) (n2 : Js.value),
        Page.outcome (Xylophone.getNoteIndexForKey key) w2 = Ok (Some n2) ->
        lt (sub (hd NaN (Spec.upcoming w2))
                (InputHandler.last_press key (InputHandlerS.lastKeyPress h1)))
           (InputHandlerS.keyDebounceTime h) = true ->
        InputHandler.keyDownHandler Controls.dispatchEvent key (h2, w2)
        = (Ok true, (h2, Page.after Browser.Date_now w2)).
Proof.
  intros Hmap Hheld Hdeb.
  destruct (Date_now_upcoming w) as [t [wt [Hnow [_ [_ [Ht _]]]]]].
  destruct (@handleBarActivation_returns wt noteIndex (@mapped_has_string _ _ _ Hmap))
    as [w1 [H1 _]].
  rewrite Ht in Hdeb |- *.
  destruct h as [deb last held]. cbn [InputHandlerS.keyDebounceTime
    InputHandlerS.lastKeyPress InputHandlerS.keysCurrentlyPressed] in *.
  exists (InputHandlerS.mk deb (InputHandler.map_set key t last) (held ++ [key])), w1.
  split.
  { unfold InputHandler.keyDownHandler.
    rewrite (bind_ok _ (@on_page_ok _ _ _ _ _ _ (@getNoteIndexForKey_returns _ _ _ Hmap))).
    unfold InputHandler.this. unfold bind at 1. unfold gets at 1.
    cbn [fst InputHandlerS.keysCurrentlyPressed]. rewrite Hheld.
    rewrite (bind_ok _ (@on_page_ok _ _ _ _ _ _ Hnow)).
    cbn [fst InputHandlerS.keyDebounceTime InputHandlerS.lastKeyPress]. rewrite Hdeb.
    unfold InputHandler.update. unfold bind at 1. unfold modify at 1.
    unfold bind at 1. unfold modify at 1.
    cbn [fst snd InputHandlerS.keyDebounceTime InputHandlerS.lastKeyPress
         InputHandlerS.keysCurrentlyPressed].
    rewrite Hheld.
    rewrite (bind_ok _ (@on_page_ok _ _ _ _ _ _ H1)). reflexivity. }
  split.
  { unfold Page.after. rewrite Hnow. cbn [snd]. rewrite H1. reflexivity. }
  split; [reflexivity|].
  split.
  { intros w2 n2 Hmap2.
    unfold InputHandler.keyDownHandler.
    rewrite (bind_ok _ (@on_page_ok _ _ _ _ _ _ (@getNoteIndexForKey_returns _ _ _ Hmap2))).
    unfold InputHandler.this. unfold bind at 1. unfold gets at 1.
    cbn [fst InputHandlerS.keysCurrentlyPressed].
    rewrite existsb_app. cbn [existsb]. rewrite String.eqb_refl.
    rewrite orb_true_l, orb_true_r. reflexivity. }
  exists (InputHandlerS.mk deb (InputHandler.map_set key t last) held).
  split.
  { unfold InputHandler.keyUpHandler, InputHandler.update, modify.
    cbn [fst snd InputHandlerS.keyDebounceTime InputHandlerS.lastKeyPress
         InputHandlerS.keysCurrentlyPressed].
    rewrite (@filter_released _ _ Hheld). reflexivity. }
  split; [reflexivity|].
  intros w2 n2 Hmap2 Hsoon.
  destruct (Date_now_upcoming w2) as [t2 [wt2 [Hnow2 [_ [_ [Ht2 _]]]]]].
  rewrite Ht2 in Hsoon.
  unfold InputHandler.keyDownHandler.
  rewrite (bind_ok _ (@on_page_ok _ _ _ _ _ _ (@getNoteIndexForKey_returns _ _ _ Hmap2))).
  unfold InputHandler.this. unfold bind at 1. unfold gets at 1.
  cbn [fst InputHandlerS.keysCurrentlyPressed]. rewrite Hheld.
  rewrite (bind_ok _ (@on_page_ok _ _ _ _ _ _ Hnow2)).
  cbn [fst InputHandlerS.keyDebounceTime InputHandlerS.lastKeyPress] in Hsoon |- *.
  rewrite Hsoon. unfold Page.after. rewrite Hnow2. reflexivity.
Qed.

(** X16 for the key [a] on a ready page whose clock reads 500. *)
Lemma X16_one_strike_for_each_press_witness :
  exists (h1 : InputHandlerS.t) (w1 : World),
    InputHandler.keyDownHandler Controls.dispatchEvent "a"
      (InputHandler.constructor,
       Page.after (Api.run (Api.start ++ [Api.ClockReads [500]])) (Page.loaded 11 0))
    = (Ok true, (h1, w1)) /\
    InputHandlerS.keysCurrentlyPressed h1 = ["a"%string].
Proof.
  destruct (@X16_one_strike_for_each_press
              InputHandler.constructor
              (Page.after (Api.run (Api.start ++ [Api.ClockReads [500]])) (Page.loaded 11 0))
              "a" (VNum (int 0)))
    as [h1 [w1 [Hdown [_ [Hh _]]]]].
  - vm_compute. reflexivity.
  - vm_compute. reflexivity.
  - vm_compute. reflexivity.
  - exists h1, w1. split; [exact Hdown|]. rewrite Hh. reflexivity.
Defined.

End InputLife.

Section RecorderLife.
Import ControlsS.

Lemma recorder_setTimeout (cb : callback) (delay : num) :
  Spec.resume_ok (mkTimer 0 delay cb) ->
  Spec.preserves Spec.recorder_ok (Browser.setTimeout cb delay).
Proof.
  intros Hcb w [Hm [Hs Ht]]. cbn. split; [exact Hm|]. split; [exact Hs|].
  apply Forall_app. split; [exact Ht|]. constructor; [exact Hcb|constructor].
Qed.

Lemma recorder_clearTimeout (id : nat) :
  Spec.preserves Spec.recorder_ok (Browser.clearTimeout id).
Proof.
  intros w [Hm [Hs Ht]]. cbn. split; [exact Hm|]. split; [exact Hs|].
  rewrite Forall_forall in *. intros t Hin. apply filter_In in Hin. apply Ht. tauto.
Qed.

#[local] Hint Resolve recorder_setTimeout recorder_clearTimeout : keep.
#[local] Hint Extern 1 (Spec.resume_ok _) => exact I : keep.

Lemma recorder_stop_each (when : num) (ids : list nat) :
  Spec.preserves Spec.recorder_ok (AudioEngine.stop_each when ids).
Proof.
  induction ids as [|id ids IH]; cbn [AudioEngine.stop_each]; keep.
Qed.

Lemma recorder_clear_each (entries : list (num * nat)) :
  Spec.preserves Spec.recorder_ok (VisualFeedback.clear_each entries).
Proof.
  induction entries as [|[k id] entries IH]; cbn [VisualFeedback.clear_each]; keep.
Qed.

#[local] Hint Resolve recorder_stop_each recorder_clear_each : keep.

Lemma recorder_forget :
  Spec.preserves Spec.recorder_ok (Controls.update (set_recordedSequence [])).
Proof.
  intros w [Hm [_ Ht]]. split; [exact Hm|]. split; [reflexivity|exact Ht].
Qed.

Lemma recorder_store (items : list Js.value) :
  forallb Spec.well_formed items = true ->
  Spec.preserves Spec.recorder_ok (Controls.update (set_recordedSequence items)).
Proof.
  intros Hitems w [Hm [_ Ht]]. split; [exact Hm|]. split; [exact Hitems|exact Ht].
Qed.

Lemma recorder_append (note : Js.value) :
  Spec.well_formed note = true ->
  Spec.preserves Spec.recorder_ok
    (Controls.update (fun c => set_recordedSequence (recordedSequence c ++ [note]) c)).
Proof.
  intros Hnote w [Hm [Hs Ht]]. split; [exact Hm|]. split; [|exact Ht].
  cbn. rewrite forallb_app, Hs. cbn. rewrite Hnote. reflexivity.
Qed.

Lemma record_well_formed (index : Js.value) (delay : num) :
  typeof index = "number"%string ->
  Spec.well_formed (VObj [("noteIndex"%string, index); ("delay"%string, VNum delay)]) = true.
Proof.
  intro H. unfold Spec.well_formed. cbn. rewrite H. reflexivity.
Qed.

Lemma recorder_stopPlayback : Spec.preserves Spec.recorder_ok Controls.stopPlayback.
Proof. keep. Qed.

Lemma recorder_stopRecording : Spec.preserves Spec.recorder_ok Controls.stopRecording.
Proof. keep. Qed.

#[local] Hint Resolve recorder_forget recorder_stopPlayback recorder_stopRecording : keep.

Lemma recorder_run_microtasks : Spec.preserves Spec.recorder_ok Controls.run_microtasks.
Proof.
  intros w H. unfold Controls.run_microtasks.
  apply (@preserves_for_each Spec.recorder_ok job
           (fun j => Controls.reported (Controls.run_job j)) (jobs w)).
  - intro j. keep.
  - exact H.
Qed.

#[local] Hint Resolve recorder_run_microtasks : keep.

(** The recorder stores only what a valid strike gave it. *)
Lemma recorder_recordNote (d : NoteDetail) :
  typeof (noteIndex d) = "number"%string ->
  Spec.preserves Spec.recorder_ok (Controls.recordNote d).
Proof.
  intro Hd. unfold Controls.recordNote.
  apply preserves_bind; [keep|intro c].
  destruct (negb (isRecording c)); [keep|].
  destruct (ge (Xylophone.size (recordedSequence c)) (maxRecordingLength c)); [keep|].
  cbv zeta. apply preserves_bind; [|intro; keep].
  apply (@recorder_append _ (@record_well_formed _ _ Hd)).
Qed.

Lemma recorder_dispatchEvent (d : NoteDetail) :
  typeof (noteIndex d) = "number"%string ->
  Spec.preserves Spec.recorder_ok (Controls.dispatchEvent d).
Proof.
  intro Hd. pose proof (@recorder_recordNote d Hd) as Hrec.
  unfold Controls.dispatchEvent, Controls.notePlayedHandler. keep.
Qed.

Lemma recorder_handleBarActivation (v : Js.value) :
  Spec.preserves Spec.recorder_ok
    (InputHandler.handleBarActivation Controls.dispatchEvent v).
Proof.
  intros w H.
  assert (E : Xylophone.isValidNoteIndex v w
              = (Ok (Number_isInteger v
                     && ge (Xylophone.as_number v) (int 0)
                     && lt (Xylophone.as_number v)
                           (Xylophone.size (XylophoneS.notes (xylo w)))), w))
    by reflexivity.
  unfold InputHandler.handleBarActivation.
  rewrite (bind_ok _ E).
  destruct (Number_isInteger v
            && ge (Xylophone.as_number v) (int 0)
            && lt (Xylophone.as_number v) (Xylophone.size (XylophoneS.notes (xylo w))))
    eqn:Hvalid; cbn [negb]; [|unfold bind, ret, throw; destruct (has_string v); exact H].
  assert (Hv : typeof v = "number"%string).
  { destruct v; try discriminate. reflexivity. }
  revert w H E Hvalid.
  assert (P : Spec.preserves Spec.recorder_ok
                (success <- Xylophone.playNote (Xylophone.as_number v) ;;
                 if success : bool then
                   _ <- VisualFeedback.activateBar (Xylophone.as_number v) ;;
                   InputHandler.emitNoteEvent Controls.dispatchEvent v
                 else ret tt)).
  { unfold InputHandler.emitNoteEvent.
    assert (Hd : forall t : num, Spec.preserves Spec.recorder_ok
                                   (Controls.dispatchEvent (mkDetail v t))).
    { intro t. apply recorder_dispatchEvent. exact Hv. }
    keep. }
  intros w H _ _. exact (P w H).
Qed.

#[local] Hint Resolve recorder_handleBarActivation : keep.

Lemma recorder_triggerBar (v : Js.value) :
  Spec.preserves Spec.recorder_ok (Controls.triggerBar v).
Proof. unfold Controls.triggerBar, InputHandler.triggerBar. keep. Qed.

#[local] Hint Resolve recorder_triggerBar : keep.

Lemma stored_well_formed (w : World) (i : nat) (note : Js.value) :
  Spec.recorder_ok w ->
  nth_error (recordedSequence (ctrl w)) i = Some note ->
  Spec.well_formed note = true.
Proof.
  intros [_ [Hs _]] Hnth. rewrite forallb_forall in Hs.
  apply Hs. eapply nth_error_In. exact Hnth.
Qed.

Lemma recorder_playFrom (fuel : nat) :
  forall (startTime : num) (i : nat) (awaited : option Js.value),
    match awaited with
    | Some note => Spec.well_formed note = true
    | None => True
    end ->
    Spec.preserves Spec.recorder_ok (Controls.playFrom fuel startTime i awaited).
Proof.
  induction fuel as [|fuel IH]; intros startTime i awaited Hnote; cbn [Controls.playFrom].
  - keep.
  - destruct awaited as [note|].
    + apply preserves_bind; [keep|intro c].
      apply preserves_bind; [keep|intro].
      apply IH. exact I.
    + intros w H. unfold bind at 1. unfold Controls.this at 1. unfold gets at 1. cbn beta.
      destruct (nth_error (recordedSequence (ctrl w)) i) as [note|] eqn:Hnth; [|exact H].
      pose proof (@stored_well_formed w i note H Hnth) as Hwf.
      destruct (negb (isPlaying (ctrl w))); [exact H|].
      revert w H Hnth.
      assert (P : Spec.preserves Spec.recorder_ok
                    (delay <- lift_result (get_prop note "delay") ;;
                     let targetTime := add startTime (Xylophone.as_number delay) in
                     currentTime <- Browser.Date_now ;;
                     let waitTime := sub targetTime currentTime in
                     if gt waitTime (int 0) then
                       id <- Browser.setTimeout (ResumePlayback i startTime note) waitTime ;;
                       Controls.update (set_playbackTimeout (Some id)) ;;
                       ret Waiting
                     else Controls.playFrom fuel startTime i (Some note))).
      { pose proof (IH startTime i (Some note) Hwf) as IH'.
        assert (Hset : forall delay : num,
                   Spec.preserves Spec.recorder_ok
                     (Browser.setTimeout (ResumePlayback i startTime note) delay)).
        { intro delay. apply recorder_setTimeout. exact Hwf. }
        keep. }
      intros w H _. exact (P w H).
Qed.

Lemma recorder_fire_timer (fuel id : nat) :
  Spec.preserves Spec.recorder_ok (Controls.fire_timer fuel id).
Proof.
  intros w H. unfold Controls.fire_timer.
  destruct (find (fun t => Nat.eqb (timer_id t) id) (timers w)) as [t|] eqn:E; [|exact H].
  apply find_some in E. destruct E as [Hin _].
  assert (Hok : Spec.resume_ok t).
  { destruct H as [_ [_ Ht]]. rewrite Forall_forall in Ht. apply Ht. exact Hin. }
  unfold Spec.resume_ok in Hok. clear Hin.
  revert w H.
  change (Spec.preserves Spec.recorder_ok
            (Browser.clearTimeout id ;;
             p <- match timer_callback t with
                  | DeleteActiveNote n =>
                      Controls.reported (Xylophone.delete_active n) ;; ret Finished
                  | RemoveActiveClass n =>
                      Controls.reported (VisualFeedback.remove_active n) ;; ret Finished
                  | ResumePlayback i startTime note =>
                      r <- Controls.attempt (Controls.playFrom fuel startTime i (Some note)) ;;
                      Controls.settle r
                  end ;;
             Controls.run_microtasks ;;
             ret p)).
  destruct (timer_callback t) as [n|n|i startTime note].
  - keep.
  - keep.
  - pose proof (@recorder_playFrom fuel startTime i (Some note) Hok) as Hplay. keep.
Qed.

Lemma recorder_playSequence (fuel : nat) :
  Spec.preserves Spec.recorder_ok (Controls.playSequenceWithTiming fuel).
Proof.
  unfold Controls.playSequenceWithTiming.
  assert (H : forall startTime : num,
             Spec.preserves Spec.recorder_ok (Controls.playFrom fuel startTime 0 None)).
  { intro startTime. apply recorder_playFrom. exact I. }
  keep.
Qed.

Lemma recorder_importSequence (text : string) :
  Spec.preserves Spec.recorder_ok (Controls.importSequence text).
Proof.
  unfold Controls.importSequence.
  apply preserves_try_catch; [|intro; keep].
  apply preserves_bind; [keep|intro sequence].
  destruct sequence as [| | | | |items|]; try solve [keep].
  intros w H.
  destruct (validate_all_spec items w) as [r [Hr Hiff]].
  unfold bind at 1. rewrite Hr.
  destruct r as [[]|e]; [|exact H].
  assert (Hitems : forallb Spec.well_formed items = true) by (apply Hiff; reflexivity).
  pose proof (@recorder_store items Hitems) as Hstore.
  match goal with
  | |- Spec.recorder_ok (snd (?m w)) =>
      assert (P : Spec.preserves Spec.recorder_ok m) by keep; exact (P w H)
  end.
Qed.

Lemma recorder_setMaxRecordingLength (maxLength : num) :
  Spec.preserves Spec.recorder_ok (Controls.setMaxRecordingLength maxLength).
Proof.
  intros w H. unfold Controls.setMaxRecordingLength.
  destruct (gt maxLength (int 0) && le maxLength (int 500)) eqn:E; [|exact H].
  destruct H as [_ [Hs Ht]]. split; [exact E|]. split; [exact Hs|exact Ht].
Qed.

#[local] Hint Resolve recorder_fire_timer recorder_playSequence recorder_importSequence
  recorder_setMaxRecordingLength : keep.

(** Every call keeps the recorder together. *)
Lemma recorder_perform (c : Api.call) :
  Spec.preserves Spec.recorder_ok (Api.perform c).
Proof.
  unfold Api.perform. destruct c; unfold Api.body, Api.drop; keep.
Qed.

Lemma recorder_reachable (bars : nat) (t0 : Z) (calls : list Api.call) :
  Spec.recorder_ok (Page.after (Api.run calls) (Page.loaded bars t0)).
Proof.
  unfold Page.after, Api.run.
  apply (@preserves_for_each Spec.recorder_ok Api.call Api.perform calls).
  - intro c. apply recorder_perform.
  - split; [reflexivity|]. split; [reflexivity|]. constructor.
Qed.


(** X17: after the calls of [Api.call], the recorder holds together: its
    maximum length stays in (0, 500], and every note it has stored, or
    holds in a timer a playback waits on, has a [noteIndex] and a [delay]
    that are numbers, whether it was recorded or imported.  So what the
    recorder holds would pass the test [importSequence] makes of each
    element.  Among these calls a note reaches [recordNote] only through
    the [notePlayed] listener, on the event [handleBarActivation] emits for
    a valid index; [recordNote] called by other code, or a [notePlayed]
    event dispatched by other code, is not among them, and [recordNote]
    itself stores whatever [noteIndex] it is given. *)
Theorem X17_recorder_holds_together (bars : nat) (t0 : Z) (calls : list Api.call) :
  let w := Page.after (Api.run calls) (Page.loaded bars t0) in
  Spec.recorder_ok w /\
  Controls.for_each Controls.validate_note (recordedSequence (ctrl w)) w = (Ok tt, w).
Proof.
  intro w. pose proof (recorder_reachable bars t0 calls) as H. fold w in H.
  split; [exact H|].
  destruct H as [_ [Hs _]].
  destruct (validate_all_spec (recordedSequence (ctrl w)) w) as [r [Hr Hiff]].
  rewrite Hr. destruct Hiff as [_ Hok]. rewrite (Hok Hs). reflexivity.
Qed.

Lemma well_formed_fields (note : Js.value) :
  Spec.well_formed note = true ->
  exists a b : Js.value,
    get_prop note "noteIndex" = Ok a /\ get_prop note "delay" = Ok b /\
    has_string a = true.
Proof.
  unfold Spec.well_formed. intro H.
  destruct (get_prop note "noteIndex") as [a|e]; [|discriminate].
  destruct (get_prop note "delay") as [b|e]; [|discriminate].
  exists a, b. split; [reflexivity|]. split; [reflexivity|].
  destruct a; try discriminate. reflexivity.
Qed.

Lemma triggerBar_returns (v : Js.value) (w : World) :
  has_string v = true ->
  exists w' : World, Controls.triggerBar v w = (Ok tt, w').
Proof.
  intro Hv.
  unfold Controls.triggerBar, InputHandler.triggerBar.
  unfold bind at 1. unfold modify at 1.
  destruct (@handleBarActivation_returns (set_triggered (triggered w ++ [v]) w) v Hv)
    as [w' [H _]].
  exists w'. exact H.
Qed.

(** The loop of the playback never throws while the recorder holds
    together. *)
Lemma playFrom_returns (fuel : nat) :
  forall (startTime : num) (i : nat) (awaited : option Js.value) (w : World),
    Spec.recorder_ok w ->
    match awaited with
    | Some note => Spec.well_formed note = true
    | None => True
    end ->
    exists (p : progress) (w' : World),
      Controls.playFrom fuel startTime i awaited w = (Ok p, w').
Proof.
  induction fuel as [|fuel IH]; intros startTime i awaited w H Hnote;
    cbn [Controls.playFrom].
  - eexists _, _. reflexivity.
  - destruct awaited as [note|].
    + unfold bind at 1. unfold Controls.this at 1. unfold gets at 1. cbn beta.
      destruct (isPlaying (ctrl w)).
      * destruct (@well_formed_fields note Hnote) as [a [b [Ha [_ Hstring]]]].
        rewrite Ha.
        destruct (@triggerBar_returns a w Hstring) as [w1 H1].
        pose proof (@recorder_triggerBar a w H) as Hok. rewrite H1 in Hok. cbn [snd] in Hok.
        unfold bind at 1. unfold bind at 1. unfold lift_result at 1.
        rewrite H1. apply IH; [exact Hok|exact I].
      * unfold bind at 1. unfold ret at 1. apply IH; [exact H|exact I].
    + unfold bind at 1. unfold Controls.this at 1. unfold gets at 1. cbn beta.
      destruct (nth_error (recordedSequence (ctrl w)) i) as [note|] eqn:Hnth;
        [|eexists _, _; reflexivity].
      pose proof (@stored_well_formed w i note H Hnth) as Hwf.
      destruct (negb (isPlaying (ctrl w))); [eexists _, _; reflexivity|].
      destruct (@well_formed_fields note Hwf) as [a [b [_ [Hb _]]]].
      rewrite Hb. unfold bind at 1. unfold lift_result at 1. cbv zeta.
      destruct (Date_now_upcoming w) as [t [w1 [Hnow _]]].
      assert (Hok : Spec.recorder_ok w1).
      { assert (P : Spec.preserves Spec.recorder_ok Browser.Date_now) by keep.
        pose proof (P w H) as Hok. rewrite Hnow in Hok. exact Hok. }
      rewrite (bind_ok _ Hnow).
      destruct (gt (sub (add startTime (Xylophone.as_number b)) t) (int 0)).
      * eexists _, _. reflexivity.
      * apply IH; [exact Hok|exact Hwf].
Qed.

(** X18: on a page that can arise the loop of the playback never throws,
    neither when it starts nor when it goes on after a timer it waited on
    has fired: every note it reads has the fields it reads, and
    [triggerBar] does not throw.  So the [catch] of [playRecording] has
    nothing to catch from the loop. *)
Theorem X18_playback_loop_never_throws (bars : nat) (t0 : Z) (calls : list Api.call) :
  let w := Page.after (Api.run calls) (Page.loaded bars t0) in
  (forall fuel : nat,
      exists (p : progress) (w' : World),
        Controls.playSequenceWithTiming fuel w = (Ok p, w')) /\
  (forall (fuel : nat) (t : timer) (i : nat) (startTime : num) (note : Js.value),
      In t (timers w) ->
      timer_callback t = ResumePlayback i startTime note ->
      exists (p : progress) (w' : World),
        Controls.playFrom fuel startTime i (Some note)
          (Page.after (Browser.clearTimeout (timer_id t)) w)
        = (Ok p, w')).
Proof.
  intro w. pose proof (recorder_reachable bars t0 calls) as H. fold w in H.
  clearbody w. split.
  - intro fuel. unfold Controls.playSequenceWithTiming.
    destruct (Date_now_upcoming w) as [t [w1 [Hnow _]]].
    assert (Hok : Spec.recorder_ok w1).
    { assert (P : Spec.preserves Spec.recorder_ok Browser.Date_now) by keep.
      pose proof (P w H) as Hok. rewrite Hnow in Hok. exact Hok. }
    rewrite (bind_ok _ Hnow).
    apply playFrom_returns; [exact Hok|exact I].
  - intros fuel t i startTime note Hin Hcb.
    apply playFrom_returns; [exact (@recorder_clearTimeout (timer_id t) w H)|].
    destruct H as [_ [_ Ht]]. rewrite Forall_forall in Ht.
    pose proof (Ht t Hin) as Hres. unfold Spec.resume_ok in Hres.
    rewrite Hcb in Hres. exact Hres.
Qed.

(** X19: what [controls.initialize()] comes to, by the elements the page
    has.  It always takes the four elements as the page has them.  Without
    the volume slider or the record button it returns [false]; with both
    but without the play or the clear button it throws a [TypeError] from
    [setupRecordingControls]; only with all four it returns [true], sets
    [isInitialized] and registers one more [notePlayed] listener.  In the
    two other cases [isInitialized] and the [notePlayed] listeners stay as
    they were. *)
Theorem X19_controls_initialize_outcome (w : World) (p : Controls.Page) :
  let w' := Page.after (Controls.initialize p) w in
  recordBtn (ctrl w') = Controls.record_btn p /\
  playBtn (ctrl w') = Controls.play_btn p /\
  clearBtn (ctrl w') = Controls.clear_btn p /\
  recordingStatus (ctrl w') = Controls.recording_status p /\
  match Controls.volume_slider p, Controls.record_btn p,
        Controls.play_btn p, Controls.clear_btn p with
  | true, Some _, Some _, Some _ =>
      Page.outcome (Controls.initialize p) w = Ok true /\
      isInitialized (ctrl w') = true /\
      Spec.note_listeners (ctrl w') = S (Spec.note_listeners (ctrl w))
  | true, Some _, _, _ =>
      (exists message : string,
          Page.outcome (Controls.initialize p) w = Throw (TypeError message)) /\
      isInitialized (ctrl w') = isInitialized (ctrl w) /\
      Spec.note_listeners (ctrl w') = Spec.note_listeners (ctrl w)
  | _, _, _, _ =>
      Page.outcome (Controls.initialize p) w = Ok false /\
      isInitialized (ctrl w') = isInitialized (ctrl w) /\
      Spec.note_listeners (ctrl w') = Spec.note_listeners (ctrl w)
  end.
Proof.
  destruct w as [a x v c co tr n ti tm nt j].
  destruct c as [rb pb cb st ir ip sq s0 mx pt ls ini].
  destruct p as [slider record play clear status].
  unfold Spec.note_listeners.
  destruct slider, record as [r|], play as [pl|], clear as [cl|]; cbn;
    repeat rewrite filter_app; cbn; repeat rewrite List.app_nil_r;
    repeat rewrite length_app; cbn;
    repeat split; try reflexivity; try lia; eexists; reflexivity.
Qed.

End RecorderLife.

Section BarsAgain.
Import VisualFeedbackS.

(** What [activateBar] does on a bar of the page that is active. *)
Lemma activate_active (bars : nat) (n k : num) (id : nat) (w : World) :
  Spec.visual_ok bars (visual w) ->
  Spec.valid_index bars n = true ->
  find (fun kt => same n (fst kt)) (activeTimeouts (visual w)) = Some (k, id) ->
  VisualFeedback.activateBar n w
  = (Ok true,
     set_visual
       (mk (VisualFeedback.set_nth (Spec.position n) true (barElements (visual w)))
           (activeDuration (visual w))
           (filter (fun kt => negb (same n (fst kt))) (activeTimeouts (visual w))
              ++ [(n, next_timer w)])
           (isInitialized (visual w)))
       (set_timers
          (filter (fun t => negb (Nat.eqb (timer_id t) id)) (timers w)
             ++ [mkTimer (next_timer w) (activeDuration (visual w))
                         (RemoveActiveClass n)])
          (S (next_timer w)) w)).
Proof.
  intros [Hlen [_ [_ [_ [_ Hini]]]]] Hv Hfind.
  assert (Einit : isInitialized (visual w) = true).
  { destruct bars; [|exact Hini].
    destruct (@valid_position_same 0 n Hv) as [Hlt _]. lia. }
  pose proof (@valid_index_range bars n Hv) as Hr. rewrite <- Hlen in Hr.
  pose proof Hv as Hv'. rewrite <- Hlen in Hv'.
  destruct (@valid_element _ _ _ Hv') as [b Hb].
  destruct (@valid_position bars n Hv) as [q [Hq _]].
  unfold VisualFeedback.activateBar, VisualFeedback.this.
  unfold bind at 1. unfold gets at 1. cbn beta.
  rewrite Einit. cbn [negb]. unfold Xylophone.size at 1. rewrite Hr, Hfind, Hb.
  destruct w as [a x v c co tr nw ti tm nt j].
  destruct v as [B dur T ini]. cbn in Einit. subst ini. cbn in Hfind |- *.
  rewrite delete_delete. rewrite Hq. reflexivity.
Qed.


Lemma fresh_next (nt : nat) (tm : list timer) :
  forallb (fun t => Nat.ltb (timer_id t) nt) tm = true ->
  forallb (fun t => Nat.ltb (timer_id t) (S nt)) tm = true.
Proof.
  intro H. rewrite forallb_forall in *. intros t Hin.
  pose proof (H t Hin) as Ht. apply Nat.ltb_lt in Ht. apply Nat.ltb_lt. lia.
Qed.

(** The timer of an animation fires, with no microtask waiting. *)
Lemma fire_remove_timer (fuel id : nat) (w : World) (t : timer) (n : num) :
  find (fun t => Nat.eqb (timer_id t) id) (timers w) = Some t ->
  timer_callback t = RemoveActiveClass n ->
  jobs w = [] ->
  Controls.fire_timer fuel id w
  = (Ok Finished,
     set_visual
       (set_activeTimeouts
          (filter (fun kt => negb (same n (fst kt))) (activeTimeouts (visual w)))
          (set_barElements (VisualFeedback.set_class n false (barElements (visual w)))
                           (visual w)))
       (set_timers (filter (fun t => negb (Nat.eqb (timer_id t) id)) (timers w))
                   (next_timer w) w)).
Proof.
  intros Hfind Hcb Hjobs. unfold Controls.fire_timer. rewrite Hfind, Hcb.
  destruct w as [a x v c co tr nw ti tm nt j]. cbn in Hjobs. subst j.
  reflexivity.
Qed.

(** X20: a bar activated again while its animation runs ends its animation
    once, with the timer of the second call.  On a page that can arise
    (no microtask waiting), [activateBar] is called twice on a bar that was
    not active: both calls return [true], the second cancels the timer of
    the first, so that one timer is pending for the bar; when it fires, the
    visual feedback and the pending timers are as they were before the
    first call. *)
Theorem X20_retriggered_bar_ends_once
        (bars : nat) (t0 : Z) (calls : list Api.call) (n : num) (fuel : nat) :
  let w := Page.after (Api.run calls) (Page.loaded bars t0) in
  Spec.valid_index bars n = true ->
  Spec.has_key n (activeTimeouts (visual w)) = false ->
  Spec.fresh_ids w = true ->
  jobs w = [] ->
  Page.outcome (VisualFeedback.activateBar n ;; VisualFeedback.activateBar n) w = Ok true /\
  let w2 := Page.after (VisualFeedback.activateBar n ;; VisualFeedback.activateBar n) w in
  timers w2
  = timers w ++ [mkTimer (S (next_timer w)) (activeDuration (visual w))
                         (RemoveActiveClass n)] /\
  Spec.has_key n (activeTimeouts (visual w2)) = true /\
  let w3 := Page.after (Controls.fire_timer fuel (S (next_timer w))) w2 in
  visual w3 = visual w /\ timers w3 = timers w.
Proof.
  intros w Hv Hoff Hfresh Hjobs. pose proof (sane_reachable bars t0 calls) as H.
  fold w in H. clearbody w.
  pose proof H as [_ [_ [Hok _]]].
  pose proof (@activate_inactive bars n w Hok Hv Hoff) as Hon.
  set (w1 := set_visual _ _) in Hon.
  pose proof (@sane_activateBar bars n w H) as H1. rewrite Hon in H1. cbn [snd] in H1.
  pose proof H1 as [_ [_ [Hok1 _]]].
  pose proof Hok as [Hlen [_ [_ [Hbars _]]]].
  destruct (@valid_position_same bars n Hv) as [Hpos Hsame].
  assert (Hbar : nth (Spec.position n) (barElements (visual w)) false = false).
  { rewrite (Hbars _ Hpos), <- (@has_key_same _ _ _ Hsame). exact Hoff. }
  unfold Spec.fresh_ids in Hfresh.
  destruct (@find_fresh _ _ Hfresh) as [_ Hfilter].
  destruct (@find_fresh _ _ (@fresh_next _ _ Hfresh)) as [Hfind2 Hfilter2].
  destruct (@valid_position bars n Hv) as [q [Hq _]].
  pose proof (@find_none_has_key _ _ Hoff) as Hnone.
  assert (Hfind1 : find (fun kt => same n (fst kt)) (activeTimeouts (visual w1))
                   = Some (n, next_timer w)).
  { subst w1. cbn. rewrite (@find_after _ _ _ _ Hnone).
    cbn. rewrite same_refl. reflexivity. }
  pose proof (@activate_active bars n n (next_timer w) w1 Hok1 Hv Hfind1) as Hon2.
  assert (E2 : (VisualFeedback.activateBar n ;; VisualFeedback.activateBar n) w
               = (Ok true,
                  set_visual
                    (mk (VisualFeedback.set_nth (Spec.position n) true (barElements (visual w)))
                        (activeDuration (visual w))
                        (activeTimeouts (visual w) ++ [(n, S (next_timer w))])
                        (isInitialized (visual w)))
                    (set_timers
                       (timers w ++ [mkTimer (S (next_timer w)) (activeDuration (visual w))
                                             (RemoveActiveClass n)])
                       (S (S (next_timer w))) w))).
  { rewrite (bind_ok _ Hon), Hon2. subst w1.
    destruct w as [a x v c co tr nw ti tm nt j].
    destruct v as [B dur T ini].
    cbn in Hfilter, Hnone |- *.
    rewrite set_nth_twice.
    rewrite filter_app, (@not_found_delete _ _ Hnone).
    cbn [filter fst]. rewrite same_refl. cbn [negb]. rewrite List.app_nil_r.
    rewrite filter_app, Hfilter. cbn [filter timer_id]. rewrite Nat.eqb_refl. cbn [negb].
    rewrite List.app_nil_r. reflexivity. }
  unfold Page.outcome, Page.after. rewrite E2. cbn [fst snd].
  split; [reflexivity|].
  split; [destruct w; reflexivity|].
  split.
  { destruct w as [a x v c co tr nw ti tm nt j]. destruct v as [B dur T ini].
    cbn. rewrite existsb_app. cbn [existsb fst].
    rewrite same_refl. rewrite orb_true_l. apply orb_true_r. }
  set (t2 := mkTimer (S (next_timer w)) (activeDuration (visual w)) (RemoveActiveClass n)).
  set (w2 := set_visual _ _).
  assert (Hf : find (fun t => Nat.eqb (timer_id t) (S (next_timer w))) (timers w2) = Some t2).
  { subst w2. destruct w as [a x v c co tr nw ti tm nt j]. cbn in Hfind2 |- *.
    rewrite (@find_after _ _ _ _ Hfind2). cbn. rewrite Nat.eqb_refl. reflexivity. }
  assert (Hj : jobs w2 = []).
  { subst w2. destruct w; exact Hjobs. }
  rewrite (@fire_remove_timer fuel (S (next_timer w)) w2 t2 n Hf eq_refl Hj).
  cbn [snd]. subst w2 t2.
  destruct w as [a x v c co tr nw ti tm nt j]. destruct v as [B dur T ini].
  cbn in Hbar, Hfilter2, Hnone |- *.
  rewrite filter_app, (@not_found_delete _ _ Hnone).
  cbn [filter fst]. rewrite same_refl. cbn [negb]. rewrite List.app_nil_r.
  rewrite filter_app, Hfilter2. cbn [filter timer_id]. rewrite Nat.eqb_refl. cbn [negb].
  rewrite List.app_nil_r.
  rewrite Hq. cbn [VisualFeedback.set_class].
  rewrite Hq in Hbar. cbn [Spec.position] in Hbar |- *.
  rewrite set_nth_twice, (@set_nth_same _ _ Hbar). split; reflexivity.
Qed.

(** X20 at bar 2 of a ready page. *)
Lemma X20_retriggered_bar_ends_once_witness :
  Page.outcome (VisualFeedback.activateBar (int 2) ;; VisualFeedback.activateBar (int 2))
               (Page.after (Api.run Api.start) (Page.loaded 11 0))
  = Ok true.
Proof.
  destruct (@X20_retriggered_bar_ends_once 11 0 Api.start (int 2) 0)
    as [Hboth _].
  - vm_compute. reflexivity.
  - vm_compute. reflexivity.
  - vm_compute. reflexivity.
  - vm_compute. reflexivity.
  - exact Hboth.
Defined.

End BarsAgain.

Section StopAll.
Import AudioEngineS XylophoneS.

Lemma engine_stopAllNotes_returns (w : World) :
  Spec.engine_ok (audio w) ->
  exists w' : World, AudioEngine.stopAllNotes w = (Ok tt, w').
Proof.
  intro H. pose proof H as [Hinit _].
  unfold AudioEngine.stopAllNotes, AudioEngine.this.
  unfold bind at 1. unfold gets at 1. cbn beta.
  destruct (isInitialized (audio w)) eqn:Ei; cbn [negb]; [|eexists; reflexivity].
  destruct Hinit as [c0 [g [Hc _]]]. rewrite Hc. cbv zeta.
  destruct (@stop_each_returns (add (currentTime c0) (Fin (1 # 20)))
              (activeOscillators (audio w)) w H) as [w' [Hrun _]].
  rewrite (bind_ok _ Hrun). eexists. reflexivity.
Qed.

(** X21: on a page that can arise, [xylophone.stopAllNotes()] returns
    without throwing; afterwards no note is active and the engine tracks no
    oscillator.  The timers that earlier strikes have set stay pending: the
    call cancels none of them. *)
Theorem X21_stopAllNotes_leaves_the_timers
        (bars : nat) (t0 : Z) (calls : list Api.call) :
  let w := Page.after (Api.run calls) (Page.loaded bars t0) in
  exists w' : World,
    Xylophone.stopAllNotes w = (Ok tt, w') /\
    activeNotes (xylo w') = [] /\
    Xylophone.getActiveNoteCount w' = (Ok 0%nat, w') /\
    activeOscillators (audio w') = [] /\
    timers w' = timers w /\
    next_timer w' = next_timer w.
Proof.
  intro w. pose proof (sane_reachable bars t0 calls) as H. fold w in H. clearbody w.
  pose proof H as [Ha _].
  destruct (@engine_stopAllNotes_returns w Ha) as [w1 H1].
  destruct (@stopAllNotes_empties w Ha) as [_ [Hnone _]].
  rewrite H1 in Hnone. cbn [snd] in Hnone.
  assert (Hframe : Spec.preserves
                     (fun w' => timers w' = timers w /\ next_timer w' = next_timer w)
                     AudioEngine.stopAllNotes).
  { unfold AudioEngine.stopAllNotes.
    assert (Hs : forall (when : num) (ids : list nat),
               Spec.preserves
                 (fun w' => timers w' = timers w /\ next_timer w' = next_timer w)
                 (AudioEngine.stop_each when ids)).
    { intros when ids. apply beside_stop_each; intros ? ? K; exact K. }
    keep. }
  pose proof (Hframe w (conj eq_refl eq_refl)) as [Ht Hn].
  rewrite H1 in Ht, Hn. cbn [snd] in Ht, Hn.
  exists (set_xylo (set_activeNotes [] (xylo w1)) w1).
  unfold Xylophone.stopAllNotes. rewrite (bind_ok _ H1).
  split; [reflexivity|]. split; [reflexivity|]. split; [reflexivity|].
  split; [exact Hnone|]. split; [exact Ht|exact Hn].
Qed.

End StopAll.
